(** * Lite SD-WAN: a shallow embedding of the agent and controller core

    The development follows the Python sources module by module:
    - [PyStr]    the [str] methods the executor's parser relies on;
    - [PyDict]   insertion-ordered dictionaries;
    - [IPv4]     the part of [ipaddress] the subnet check relies on;
    - [Models]   [models.py] (pydantic records);
    - [World]    the outside world: ICMP, subprocesses, HTTP, the clock;
    - [Prober]   [agent/prober.py]   (sliding windows, probe cycle);
    - [Executor] [agent/executor.py] (route table reading, diff, apply);
    - [Client]   [agent/client.py]   (HTTP client, retry with backoff);
    - [Agent]    [agent/main.py]     (the sync cycle and fallback mode);
    - [Solver]   [controller/solver.py] (graph, hysteresis, next hops);
    - [NxReference], [Scenarios] and the [...Spec] modules: a reference
      shortest-path search, concrete agents and environments, and the
      vocabulary of the statements.

    Python [float]s are IEEE-754 binary64 values: they are embedded as
    Rocq's primitive floats, so every arithmetic step computes exactly
    what the interpreter computes.  The libraries the sources call
    ([ping3], [subprocess], [requests], [networkx]) are interfaces: the
    agent runs against an environment [World.Env], the solver against
    [Solver.Networkx].  Definitions come first, module by module; the
    facts proved about them follow in the second half. *)

From Stdlib Require Import List String Ascii ZArith Bool Lia Floats Uint63.
Import ListNotations.

Set Implicit Arguments.
Set Warnings "-inexact-float".

Local Open Scope string_scope.
Local Open Scope list_scope.

(* ================================================================== *)
(** * Python strings *)

(** Strings are sequences of code points below 256, which covers the ASCII
    listings the executor parses ([ip route show]). *)
Module PyStr.

(** [str.isspace] below 256: space, TAB, LF, VT, FF, CR, the four
    separators FS, GS, RS, US, NEL and the no-break space. *)
Definition is_space (c : ascii) : bool :=
  let n := nat_of_ascii c in
  (n =? 32)%nat || ((9 <=? n)%nat && (n <=? 13)%nat)
  || ((28 <=? n)%nat && (n <=? 31)%nat)
  || (n =? 133)%nat || (n =? 160)%nat.

(** Line boundaries of [str.splitlines] below 256: LF, VT, FF, CR, FS,
    GS, RS and NEL (CR LF counts as one boundary). *)
Definition is_linebreak (c : ascii) : bool :=
  let n := nat_of_ascii c in
  ((10 <=? n)%nat && (n <=? 13)%nat) || ((28 <=? n)%nat && (n <=? 30)%nat)
  || (n =? 133)%nat.

Fixpoint lstrip (s : string) : string :=
  match s with
  | EmptyString => EmptyString
  | String c s' => if is_space c then lstrip s' else s
  end.

Fixpoint rstrip (s : string) : string :=
  match s with
  | EmptyString => EmptyString
  | String c s' =>
      match rstrip s' with
      | EmptyString => if is_space c then EmptyString else String c EmptyString
      | r => String c r
      end
  end.

(** [s.strip()] *)
Definition strip (s : string) : string := rstrip (lstrip s).

(** [s.split()]: the maximal runs of non-whitespace characters. *)
Fixpoint split (s : string) : list string :=
  match s with
  | EmptyString => []
  | String c s' =>
      if is_space c then split s'
      else
        match s' with
        | EmptyString => [String c EmptyString]
        | String c' _ =>
            if is_space c' then String c EmptyString :: split s'
            else
              match split s' with
              | t :: ts => String c t :: ts
              | [] => [String c EmptyString]
              end
        end
  end.

(** [s.splitlines()] *)
Fixpoint splitlines (s : string) : list string :=
  match s with
  | EmptyString => []
  | String c s' =>
      if is_linebreak c then
        match s' with
        | String c' s'' =>
            if ((nat_of_ascii c =? 13) && (nat_of_ascii c' =? 10))%nat
            then EmptyString :: splitlines s''
            else EmptyString :: splitlines s'
        | EmptyString => [EmptyString]
        end
      else
        match splitlines s' with
        | l :: ls => String c l :: ls
        | [] => [String c EmptyString]
        end
  end.

(** [sub in s] *)
Fixpoint str_in (sub s : string) : bool :=
  if String.prefix sub s then true
  else match s with
       | EmptyString => false
       | String _ s' => str_in sub s'
       end.

(** [s.endswith(suffix)] *)
Fixpoint endswith (s suffix : string) : bool :=
  if String.eqb s suffix then true
  else match s with
       | EmptyString => false
       | String _ s' => endswith s' suffix
       end.

(** [s.split(sep)[0]] for a one-character separator: the text before the
    first occurrence of [sep], or all of [s] when there is none. *)
Fixpoint split_head (sep : ascii) (s : string) : string :=
  match s with
  | EmptyString => EmptyString
  | String c s' =>
      if Ascii.eqb c sep then EmptyString else String c (split_head sep s')
  end.

(** [x in parts] for a list of strings. *)
Definition list_in (x : string) (parts : list string) : bool :=
  existsb (String.eqb x) parts.

(** [parts.index(x)]; only called when [x in parts]. *)
Fixpoint list_index (x : string) (parts : list string) : nat :=
  match parts with
  | [] => 0
  | p :: ps => if String.eqb p x then 0 else S (list_index x ps)
  end.

(** [" ".join(words)] *)
Fixpoint join (words : list string) : string :=
  match words with
  | [] => EmptyString
  | [w] => w
  | w :: ws => w ++ String " " (join ws)
  end.

(** A word: not empty and free of whitespace. *)
Fixpoint no_space (s : string) : bool :=
  match s with
  | EmptyString => true
  | String c s' => negb (is_space c) && no_space s'
  end.

Definition is_word (s : string) : bool :=
  negb (String.eqb s "") && no_space s.

End PyStr.

(* ================================================================== *)
(** * Insertion-ordered dictionaries *)

(** A Python [dict] keeps its keys in insertion order; assigning to an
    existing key keeps the key's position.  The sources use [str] keys and,
    for the solver's cost history, pairs of [str]. *)
Module PyDict.

Class Key (K : Type) : Type := { keqb : K -> K -> bool }.

#[export] Instance Key_string : Key string := { keqb := String.eqb }.

Definition pair_eqb (a b : string * string) : bool :=
  String.eqb (fst a) (fst b) && String.eqb (snd a) (snd b).

#[export] Instance Key_pair : Key (string * string) := { keqb := pair_eqb }.

Definition dict (K V : Type) : Type := list (K * V).

Definition empty {K V : Type} : dict K V := [].

(** [d.get(k)] *)
Fixpoint get {K V : Type} `{Key K} (d : dict K V) (k : K) : option V :=
  match d with
  | [] => None
  | (k', v) :: d' => if keqb k' k then Some v else get d' k
  end.

(** [k in d] *)
Definition mem {K V : Type} `{Key K} (d : dict K V) (k : K) : bool :=
  match get d k with Some _ => true | None => false end.

(** [d[k] = v] *)
Fixpoint set {K V : Type} `{Key K} (d : dict K V) (k : K) (v : V)
  : dict K V :=
  match d with
  | [] => [(k, v)]
  | (k', v') :: d' =>
      if keqb k' k then (k', v) :: d' else (k', v') :: set d' k v
  end.

(** [d.keys()], [d.items()], [not d] *)
Definition keys {K V : Type} (d : dict K V) : list K := map fst d.

Definition items {K V : Type} (d : dict K V) : list (K * V) := d.

Definition is_empty {K V : Type} (d : dict K V) : bool :=
  match d with [] => true | _ => false end.

End PyDict.

(* ================================================================== *)
(** * IPv4 addresses and networks *)

(** The executor's subnet check goes through Python's [ipaddress] module.
    The model covers dotted-quad IPv4 text: four decimal octets of one to
    three digits, none above 255, no leading zero.  Any other text
    (IPv6 included) is no member of an IPv4 network: [ip_address] raises
    [ValueError] or the versions differ, and the check answers [False]
    either way. *)
Module IPv4.

Definition digit_of (c : ascii) : option Z :=
  let n := nat_of_ascii c in
  if ((48 <=? n) && (n <=? 57))%nat then Some (Z.of_nat (n - 48)) else None.

Fixpoint digits (s : string) (acc : Z) : option Z :=
  match s with
  | EmptyString => Some acc
  | String c s' =>
      match digit_of c with
      | Some d => digits s' (10 * acc + d)
      | None => None
      end
  end.

Definition parse_octet (s : string) : option Z :=
  match s with
  | EmptyString => None
  | String c rest =>
      if (3 <? String.length s)%nat then None
      else if Ascii.eqb c "0"%char && negb (String.eqb rest "") then None
      else match digits s 0 with
           | Some n => if (n <=? 255)%Z then Some n else None
           | None => None
           end
  end.

(** [s.split('.')] *)
Fixpoint split_dots (s : string) : list string :=
  match s with
  | EmptyString => [EmptyString]
  | String c s' =>
      if Ascii.eqb c "."%char then EmptyString :: split_dots s'
      else match split_dots s' with
           | t :: ts => String c t :: ts
           | [] => [String c EmptyString]
           end
  end.

(** [ipaddress.ip_address(s)] as a 32-bit integer; [None] stands for
    [ValueError]. *)
Definition ip_address (s : string) : option Z :=
  match map parse_octet (split_dots s) with
  | [Some a; Some b; Some c; Some d] =>
      Some (Z.lor (Z.shiftl a 24)
                  (Z.lor (Z.shiftl b 16) (Z.lor (Z.shiftl c 8) d)))
  | _ => None
  end.

Record ip_network : Type :=
  { network_address : Z; prefixlen : Z }.

(** [ip in network] *)
Definition contains (net : ip_network) (ip : Z) : bool :=
  (Z.shiftr ip (32 - prefixlen net)
   =? Z.shiftr (network_address net) (32 - prefixlen net))%Z.

(** [s.split('/', 1)[1]]-style access: the text after the first [sep]. *)
Fixpoint after (sep : ascii) (s : string) : option string :=
  match s with
  | EmptyString => None
  | String c s' => if Ascii.eqb c sep then Some s' else after sep s'
  end.

Definition parse_prefixlen (s : string) : option Z :=
  match s with
  | EmptyString => None
  | _ => match digits s 0 with
         | Some n => if (n <=? 32)%Z then Some n else None
         | None => None
         end
  end.

(** [ipaddress.ip_network(s)] (strict) for an address followed by an
    optional [/prefixlen] (a bare address is a [/32] network; the netmask
    notation is not covered).  [None] stands for [ValueError], raised among
    others when host bits are set. *)
Definition ip_network_of (s : string) : option ip_network :=
  match ip_address (PyStr.split_head "/" s), after "/" s with
  | Some a, Some p =>
      match parse_prefixlen p with
      | Some n =>
          if (Z.land a (Z.ones (32 - n)) =? 0)%Z
          then Some {| network_address := a; prefixlen := n |}
          else None
      | None => None
      end
  | Some a, None => Some {| network_address := a; prefixlen := 32 |}
  | None, _ => None
  end.

End IPv4.

(* ================================================================== *)
(** * models.py *)

Module Models.

Record Metric : Type :=
  { target_ip : string;
    rtt_ms : option float;
    loss_rate : float }.

Record TelemetryRequest : Type :=
  { agent_id : string;
    timestamp : Z;
    metrics : list Metric }.

Record RouteConfig : Type :=
  { dst_cidr : string;
    next_hop : string;
    reason : string }.

(** Field constraints of [Metric]: [loss_rate] within [0, 1] and, by
    [validate_rtt], no negative [rtt_ms]. *)
Definition valid_Metric (m : Metric) : bool :=
  (0 <=? loss_rate m)%float && (loss_rate m <=? 1)%float
  && match rtt_ms m with
     | Some v => negb (v <? 0)%float
     | None => true
     end.

(** Field constraints of [TelemetryRequest]: [timestamp > 0] and at least
    one metric. *)
Definition valid_TelemetryRequest (t : TelemetryRequest) : bool :=
  (0 <? timestamp t)%Z
  && match metrics t with [] => false | _ => true end.

(** [validate_cidr]: the text contains a slash. *)
Definition valid_RouteConfig (r : RouteConfig) : bool :=
  PyStr.str_in "/" (dst_cidr r).

End Models.

(* ================================================================== *)
(** * The outside world *)

(** Everything the agent does to its environment is an [event]; the
    environment answers each call as a function of the events so far, so it
    may be as stateful as a real kernel or controller.  Computations run in
    a state-and-exception monad over the event history. *)
Module World.
Import Models.

(** [ping3.ping(target, timeout=...)]: the round-trip time in seconds,
    [None] on a timeout, [False] on an error (a host that cannot be
    resolved or reached), or an exception. *)
Inductive ping_outcome : Type :=
| PingReply (rtt_seconds : float)
| PingNone
| PingFalse
| PingRaises.

(** [subprocess.run(command, capture_output=True, text=True, timeout=5)] *)
Inductive proc_outcome : Type :=
| Completed (returncode : Z) (stdout stderr : string)
| TimeoutExpired
| ProcRaises.

(** Body of an HTTP answer as [fetch_routes] looks at it. *)
Inductive http_body : Type :=
| BodyNotJson
| BodyWithoutRoutes
| BodyInvalidRoutes
| BodyRoutes (routes : list RouteConfig).

(** [requests.get] / [requests.post] *)
Inductive http_outcome : Type :=
| Response (status_code : Z) (body : http_body)
| HttpTimeout
| HttpConnectionError
| HttpRequestException
| HttpRaises.

Inductive event : Type :=
| EvPing (target : string)
| EvRun (command : list string)
| EvPost (telemetry : TelemetryRequest)
| EvGet (agent : string)
| EvSleep (seconds : Z).

Record Env : Type :=
  { ping3_ping : list event -> string -> ping_outcome;
    subprocess_run : list event -> list string -> proc_outcome;
    requests_post : list event -> TelemetryRequest -> http_outcome;
    requests_get : list event -> string -> http_outcome;
    now : list event -> Z }.

Inductive exn : Type :=
| RetryExhausted
| AttributeError (name : string)
| KeyError (key : string)
| ValidationError
| ValueError
| IndexError.

Inductive result (A : Type) : Type :=
| Ok (a : A)
| Raise (e : exn).

Arguments Raise {A} e.

(** State-and-exception computations over a store [S]: an exception keeps
    the store as it was when raised, as in Python. *)
Definition M (S A : Type) : Type := S -> result A * S.

Definition ret {S A : Type} (a : A) : M S A := fun s => (Ok a, s).

Definition raise {S A : Type} (e : exn) : M S A := fun s => (Raise e, s).

Definition bind {S A B : Type} (c : M S A) (k : A -> M S B) : M S B :=
  fun s => match c s with
           | (Ok a, s') => k a s'
           | (Raise e, s') => (Raise e, s')
           end.

(** [try: c  except Exception as e: handler(e)] *)
Definition try_except {S A : Type} (c : M S A) (handler : exn -> M S A)
  : M S A :=
  fun s => match c s with
           | (Ok a, s') => (Ok a, s')
           | (Raise e, s') => handler e s'
           end.

(** Computations whose only store is the event history. *)
Definition IO (A : Type) : Type := M (list event) A.

Definition emit (e : event) : IO unit := fun h => (Ok tt, h ++ [e]).

Definition ask {A : Type} (f : list event -> A) : IO A :=
  fun h => (Ok (f h), h).

Definition ping (env : Env) (target : string) : IO ping_outcome :=
  fun h => (Ok (ping3_ping env h target), h ++ [EvPing target]).

Definition run (env : Env) (command : list string) : IO proc_outcome :=
  fun h => (Ok (subprocess_run env h command), h ++ [EvRun command]).

Definition post (env : Env) (t : TelemetryRequest) : IO http_outcome :=
  fun h => (Ok (requests_post env h t), h ++ [EvPost t]).

Definition http_get (env : Env) (agent : string) : IO http_outcome :=
  fun h => (Ok (requests_get env h agent), h ++ [EvGet agent]).

(** The longest delay [time.sleep] takes: its nanoseconds must fit the
    signed 64-bit integer of the C time type. *)
Definition sleep_max : Z := 9223372036.

(** The delays [time.sleep] accepts. *)
Definition sleepable (seconds : Z) : Prop :=
  (0 <= seconds <= sleep_max)%Z.

(** [time.sleep(seconds)] for a whole number of seconds: a negative delay
    raises [ValueError].  (Above [sleep_max] the call raises
    [OverflowError] instead of sleeping; the model does not cover such
    delays.) *)
Definition sleep (seconds : Z) : IO unit :=
  if (seconds <? 0)%Z then raise ValueError else emit (EvSleep seconds).

(** The commands issued so far. *)
Fixpoint commands (h : list event) : list (list string) :=
  match h with
  | [] => []
  | EvRun c :: h' => c :: commands h'
  | _ :: h' => commands h'
  end.

Fixpoint sleeps (h : list event) : list Z :=
  match h with
  | [] => []
  | EvSleep s :: h' => s :: sleeps h'
  | _ :: h' => sleeps h'
  end.

Fixpoint gets (h : list event) : list string :=
  match h with
  | [] => []
  | EvGet a :: h' => a :: gets h'
  | _ :: h' => gets h'
  end.

End World.

Declare Scope monad_scope.
Delimit Scope monad_scope with monad.
Notation "x <- c1 ;; c2" := (World.bind c1 (fun x => c2))
  (at level 61, c1 at next level, right associativity) : monad_scope.
Notation "' pat <- c1 ;; c2" :=
  (World.bind c1 (fun x => match x with pat => c2 end))
  (at level 61, pat pattern, c1 at next level, right associativity)
  : monad_scope.
Notation "c1 ;;; c2" := (World.bind c1 (fun _ => c2))
  (at level 61, right associativity) : monad_scope.

(* ================================================================== *)
(** * agent/prober.py *)

Module Prober.
Import Models World PyDict.
Local Open Scope monad_scope.

Record SlidingWindowBuffer : Type :=
  { maxlen : Z;
    buffer : list float }.

(** The largest capacity a [deque] takes, [sys.maxsize] of a 64-bit
    build. *)
Definition deque_max : Z := 9223372036854775807.

(** [SlidingWindowBuffer(maxlen)]; [None] stands for [ValueError].  (Above
    [deque_max] the [deque] raises [OverflowError]; the model does not
    cover such capacities.) *)
Definition new_buffer (maxlen : Z) : option SlidingWindowBuffer :=
  if (maxlen <=? 0)%Z then None
  else Some {| maxlen := maxlen; buffer := [] |}.

(** [deque(maxlen=n).append(x)]: a full deque drops its leftmost item. *)
Definition append (b : SlidingWindowBuffer) (value : float)
  : SlidingWindowBuffer :=
  {| maxlen := maxlen b;
     buffer := if (Z.of_nat (List.length (buffer b)) =? maxlen b)%Z
               then tl (buffer b) ++ [value]
               else buffer b ++ [value] |}.

(** [sum(xs)], added left to right from [0].  (From Python 3.12 on the
    built-in compensates the rounding errors of the partial sums; the two
    agree whenever the partial sums are exact, as they are for the loss
    indicators and in the scenarios below.) *)
Definition sum (xs : list float) : float :=
  fold_left PrimFloat.add xs 0%float.

(** [float(len(xs))] *)
Definition float_of_len (xs : list float) : float :=
  PrimFloat.of_uint63 (Uint63.of_Z (Z.of_nat (List.length xs))).

Definition get_moving_average (b : SlidingWindowBuffer) : option float :=
  match buffer b with
  | [] => None
  | _ => Some (sum (buffer b) / float_of_len (buffer b))%float
  end.

Record PeerBuffers : Type :=
  { rtt : SlidingWindowBuffer;
    loss : SlidingWindowBuffer }.

Record Prober : Type :=
  { peer_ips : list string;
    interval : Z;
    timeout : float;
    window_size : Z;
    buffers : dict string PeerBuffers }.

(** [Prober(peer_ips, interval, timeout, window_size)]; [None] stands for
    the [ValueError] of a non-positive window. *)
Definition new_prober (peer_ips : list string) (interval : Z)
    (timeout : float) (window_size : Z) : option Prober :=
  match peer_ips, new_buffer window_size with
  | _ :: _, None => None
  | _, fresh =>
      let b := match fresh with
               | Some b => b
               | None => {| maxlen := window_size; buffer := [] |}
               end in
      Some {| peer_ips := peer_ips;
              interval := interval;
              timeout := timeout;
              window_size := window_size;
              buffers := fold_left
                           (fun d ip => set d ip {| rtt := b; loss := b |})
                           peer_ips empty |}
  end.

Record ProbeResult : Type :=
  { target : string;
    result_rtt_ms : option float;
    result_loss : float }.

Definition probe_once (env : Env) (target_ip : string) : IO ProbeResult :=
  r <- ping env target_ip ;;
  match r with
  | PingNone =>
      ret {| target := target_ip; result_rtt_ms := None; result_loss := 1 |}
  | PingReply rtt_seconds =>
      ret {| target := target_ip;
             result_rtt_ms := Some (rtt_seconds * 1000)%float;
             result_loss := 0 |}
  | PingFalse =>
      (* [False is None] does not hold, and [False * 1000] is [0] *)
      ret {| target := target_ip;
             result_rtt_ms := Some 0%float;
             result_loss := 0 |}
  | PingRaises =>
      ret {| target := target_ip; result_rtt_ms := None; result_loss := 1 |}
  end.

(** Computations of the methods that update the prober: the store is the
    prober object, whose buffers are appended to in place, together with
    the event history.  What a method has appended stays in the store when
    it raises. *)
Definition PM (A : Type) : Type := M (Prober * list event) A.

Definition lift {A : Type} (c : IO A) : PM A :=
  fun s => let '(r, h) := c (snd s) in (r, (fst s, h)).

Definition get_prober : PM Prober := fun s => (Ok (fst s), s).

Definition put_buffers (bs : dict string PeerBuffers) : PM unit :=
  fun s => (Ok tt, ({| peer_ips := peer_ips (fst s);
                       interval := interval (fst s);
                       timeout := timeout (fst s);
                       window_size := window_size (fst s);
                       buffers := bs |}, snd s)).

(** The buffer update at the end of the loop body of [probe_all]. *)
Definition record_result (b : PeerBuffers) (result : ProbeResult)
  : PeerBuffers :=
  {| rtt := match result_rtt_ms result with
            | Some v => append (rtt b) v
            | None => rtt b
            end;
     loss := append (loss b) (result_loss result) |}.

(** Body of the loop of [probe_all] for one peer. *)
Definition probe_step (env : Env) (results : list ProbeResult)
    (peer_ip : string) : PM (list ProbeResult) :=
  result <- lift (probe_once env peer_ip) ;;
  self <- get_prober ;;
  match get (buffers self) peer_ip with
  | None => raise (KeyError peer_ip)
  | Some b =>
      put_buffers (set (buffers self) peer_ip (record_result b result)) ;;;
      ret (results ++ [result])
  end.

(** [for x in xs: acc = body(acc, x)] *)
Fixpoint for_each {S A B : Type} (body : B -> A -> M S B) (xs : list A)
    (acc : B) : M S B :=
  match xs with
  | [] => ret acc
  | x :: xs' => acc' <- body acc x ;; for_each body xs' acc'
  end.

Definition probe_all (env : Env) : PM (list ProbeResult) :=
  self <- get_prober ;;
  for_each (probe_step env) (peer_ips self) [].

(** Body of the loop of [get_smoothed_metrics] for one peer. *)
Definition smoothed_step (self : Prober) (metrics : list Metric)
    (peer_ip : string) : IO (list Metric) :=
  match get (buffers self) peer_ip with
  | None => raise (KeyError peer_ip)
  | Some b =>
      let avg_rtt := get_moving_average (rtt b) in
      let avg_loss := match get_moving_average (loss b) with
                      | Some l => l
                      | None => 0%float
                      end in
      let metric := {| target_ip := peer_ip;
                       rtt_ms := avg_rtt;
                       loss_rate := avg_loss |} in
      if valid_Metric metric then ret (metrics ++ [metric])
      else raise ValidationError
  end.

(** [get_smoothed_metrics] reads the prober and updates nothing. *)
Definition get_smoothed_metrics (self : Prober) : IO (list Metric) :=
  for_each (smoothed_step self) (peer_ips self) [].

Definition run_once (env : Env) : PM (list Metric) :=
  probe_all env ;;;
  self <- get_prober ;;
  lift (get_smoothed_metrics self).

End Prober.

(* ================================================================== *)
(** * agent/executor.py *)

Module Executor.
Import Models World PyDict PyStr.
Local Open Scope monad_scope.

Record Executor : Type :=
  { wg_interface : string;
    allowed_subnet : IPv4.ip_network;
    current_routes : dict string string }.

(** [Executor(wg_interface, allowed_subnet)]; [None] stands for the
    [ValueError] of [ipaddress.ip_network]. *)
Definition new_executor (wg_interface allowed_subnet : string)
  : option Executor :=
  match IPv4.ip_network_of allowed_subnet with
  | Some net => Some {| wg_interface := wg_interface;
                        allowed_subnet := net;
                        current_routes := empty |}
  | None => None
  end.

Definition set_current_routes (self : Executor) (routes : dict string string)
  : Executor :=
  {| wg_interface := wg_interface self;
     allowed_subnet := allowed_subnet self;
     current_routes := routes |}.

(** The host-route test of the parsing loop on the destination field:
    the address of a [/32] destination or of one without a prefix, [None]
    for any other prefix (the line is skipped). *)
Definition host_route_ip (dst : string) : option string :=
  if str_in "/" dst
  then if negb (endswith dst "/32") then None
       else Some (split_head "/" dst)
  else Some dst.

(** Body of the parsing loop of [get_current_routes] for one line of the
    listing; every [continue] returns [routes] unchanged. *)
Definition parse_line (self : Executor) (routes : dict string string)
    (line : string) : dict string string :=
  let line := strip line in
  if String.eqb line "" then routes
  else if negb (str_in (wg_interface self) line) then routes
  else
    let parts := split line in
    if (List.length parts <? 3)%nat then routes
    else
      let dst := nth 0 parts "" in
      match host_route_ip dst with
      | None => routes
      | Some dst_ip =>
          if list_in "via" parts then
            let via_index := list_index "via" parts in
            if (via_index + 1 <? List.length parts)%nat
            then set routes dst_ip (nth (via_index + 1) parts "")
            else routes
          else set routes dst_ip "direct"
      end.

Definition get_current_routes (env : Env) (self : Executor)
  : IO (dict string string * Executor) :=
  r <- run env ["ip"; "route"; "show"; "table"; "main"] ;;
  match r with
  | Completed returncode stdout _ =>
      if (returncode =? 0)%Z then
        let routes := fold_left (parse_line self) (splitlines stdout) empty in
        ret (routes, set_current_routes self routes)
      else ret (empty, self)          (* CalledProcessError *)
  | TimeoutExpired => ret (empty, self)
  | ProcRaises => ret (empty, self)
  end.

Definition _is_ip_in_allowed_subnet (self : Executor) (ip_str : string)
  : bool :=
  match IPv4.ip_address ip_str with
  | Some ip => IPv4.contains (allowed_subnet self) ip
  | None => false                     (* ValueError *)
  end.

Definition generate_route_add_command (self : Executor)
    (dst_ip next_hop : string) : option (list string) :=
  if negb (_is_ip_in_allowed_subnet self dst_ip) then None
  else if negb (_is_ip_in_allowed_subnet self next_hop) then None
  else Some ["ip"; "route"; "replace"; (dst_ip ++ "/32")%string;
             "via"; next_hop; "dev"; wg_interface self].

Definition generate_route_del_command (self : Executor) (dst_ip : string)
  : option (list string) :=
  if negb (_is_ip_in_allowed_subnet self dst_ip) then None
  else Some ["ip"; "route"; "del"; (dst_ip ++ "/32")%string;
             "dev"; wg_interface self].

(** Body of the first loop of [calculate_route_diff]: one
    [(dst_ip, next_hop)] item of [desired_routes]. *)
Definition diff_step (current_routes : dict string string)
    (acc : dict string string * dict string string) (item : string * string)
  : dict string string * dict string string :=
  let '(routes_to_add, routes_to_modify) := acc in
  let '(dst_ip, next_hop) := item in
  match get current_routes dst_ip with
  | None => (set routes_to_add dst_ip next_hop, routes_to_modify)
  | Some cur =>
      if negb (String.eqb cur next_hop)
      then (routes_to_add, set routes_to_modify dst_ip next_hop)
      else (routes_to_add, routes_to_modify)
  end.

(** Body of the second loop: one key of [current_routes]. *)
Definition delete_step (desired_routes : dict string string)
    (routes_to_delete : list string) (dst_ip : string) : list string :=
  if negb (mem desired_routes dst_ip)
  then routes_to_delete ++ [dst_ip]
  else routes_to_delete.

Definition calculate_route_diff
    (desired_routes current_routes : dict string string)
  : dict string string * dict string string * list string :=
  let '(routes_to_add, routes_to_modify) :=
    fold_left (diff_step current_routes) (items desired_routes)
              (empty, empty) in
  let routes_to_delete :=
    fold_left (delete_step desired_routes) (keys current_routes) [] in
  (routes_to_add, routes_to_modify, routes_to_delete).

Definition apply_route (env : Env) (self : Executor)
    (dst_ip next_hop : string) : IO bool :=
  if String.eqb next_hop "direct" then
    match generate_route_del_command self dst_ip with
    | None => ret false
    | Some command =>
        r <- run env command ;;       (* no [check=True] here *)
        match r with
        | Completed _ _ _ => ret true
        | TimeoutExpired => ret false
        | ProcRaises => ret false
        end
    end
  else
    match generate_route_add_command self dst_ip next_hop with
    | None => ret false
    | Some command =>
        r <- run env command ;;       (* [check=True] *)
        match r with
        | Completed returncode _ _ => ret (returncode =? 0)%Z
        | TimeoutExpired => ret false
        | ProcRaises => ret false
        end
    end.

(** [for dst_ip, next_hop in items: if not apply_route(...): success = False] *)
Fixpoint apply_each (env : Env) (self : Executor)
    (items : list (string * string)) (success : bool) : IO bool :=
  match items with
  | [] => ret success
  | (dst_ip, next_hop) :: rest =>
      ok <- apply_route env self dst_ip next_hop ;;
      apply_each env self rest (if negb ok then false else success)
  end.

Definition flush_all_routes (env : Env) (self : Executor)
  : IO (bool * Executor) :=
  '(current_routes, self) <- get_current_routes env self ;;
  if is_empty current_routes then ret (true, self)
  else
    success <- apply_each env self
                 (map (fun dst_ip => (dst_ip, "direct")) (keys current_routes))
                 true ;;
    ret (success, self).

(** The statements after the last [return] of [flush_all_routes]
    (executor.py, lines 347-399): a docstring and the body of a route
    synchronisation.  No [def] introduces them, so control never reaches
    them and they bind no attribute of the class; they are recorded here as
    the function they would be if one did. *)
Definition unreachable_sync_body (env : Env) (self : Executor)
    (desired_routes : list RouteConfig) : IO (bool * Executor) :=
  let desired_dict :=
    fold_left (fun d route =>
                 set d (split_head "/" (dst_cidr route)) (next_hop route))
              desired_routes empty in
  '(current_dict, self) <- get_current_routes env self ;;
  let '(to_add, to_modify, to_delete) :=
    calculate_route_diff desired_dict current_dict in
  success <- apply_each env self (items to_add) true ;;
  success <- apply_each env self (items to_modify) success ;;
  success <- apply_each env self
               (map (fun dst_ip => (dst_ip, "direct")) to_delete) success ;;
  ret (success, self).

(** Names bound on an [Executor] instance by [__init__] and in the body of
    [class Executor]. *)
Definition instance_attributes : list string :=
  ["wg_interface"; "allowed_subnet"; "current_routes"].

Definition class_attributes : list string :=
  ["__init__"; "get_current_routes"; "_is_ip_in_allowed_subnet";
   "generate_route_add_command"; "generate_route_del_command";
   "calculate_route_diff"; "apply_route"; "flush_all_routes"].

(** [hasattr(executor, name)] *)
Definition hasattr (name : string) : bool :=
  list_in name (instance_attributes ++ class_attributes).

End Executor.

(* ================================================================== *)
(** * agent/client.py *)

Module Client.
Import Models World.
Local Open Scope monad_scope.

Record ControllerClient : Type :=
  { controller_url : string;
    timeout : Z;
    retry_attempts : Z;
    retry_backoff : list Z }.

(** [s.rstrip('/')] *)
Fixpoint rstrip_slash (s : string) : string :=
  match s with
  | EmptyString => EmptyString
  | String c s' =>
      match rstrip_slash s' with
      | EmptyString =>
          if Ascii.eqb c "/"%char then EmptyString else String c EmptyString
      | r => String c r
      end
  end.

(** [ControllerClient(controller_url, timeout, retry_attempts,
    retry_backoff)]: an absent or empty backoff list becomes [[1, 2, 4]]. *)
Definition new_client (controller_url : string) (timeout retry_attempts : Z)
    (retry_backoff : option (list Z)) : ControllerClient :=
  {| controller_url := rstrip_slash controller_url;
     timeout := timeout;
     retry_attempts := retry_attempts;
     retry_backoff := match retry_backoff with
                      | Some (d :: ds) => d :: ds
                      | _ => [1; 2; 4]%Z
                      end |}.

(** [range(n)] *)
Definition range (n : Z) : list Z := map Z.of_nat (seq 0 (Z.to_nat n)).

(** The loop of [_retry_with_backoff] over the remaining attempt numbers.
    An [operation] answers [None] for Python's [None]; an exception it
    raises is caught by the loop and counts as a failed attempt too. *)
Fixpoint retry_attempts_loop {A : Type} (self : ControllerClient)
    (operation : IO (option A)) (attempts : list Z) : IO A :=
  match attempts with
  | [] => raise RetryExhausted
  | attempt :: rest =>
      outcome <- try_except operation (fun _ => ret None) ;;
      match outcome with
      | Some result => ret result
      | None =>
          (if (attempt <? retry_attempts self - 1)%Z
           then
             (* an empty list is indexed at -1: [IndexError] *)
             match nth_error (retry_backoff self)
                     (Z.to_nat (Z.min attempt
                                  (Z.of_nat (List.length (retry_backoff self))
                                   - 1))) with
             | Some delay => sleep delay
             | None => raise IndexError
             end
           else ret tt) ;;;
          retry_attempts_loop self operation rest
      end
  end.

Definition _retry_with_backoff {A : Type} (self : ControllerClient)
    (operation : IO (option A)) : IO A :=
  retry_attempts_loop self operation (range (retry_attempts self)).

Definition send_telemetry (env : Env) (self : ControllerClient)
    (telemetry : TelemetryRequest) : IO bool :=
  r <- post env telemetry ;;
  match r with
  | Response status_code _ => ret (status_code =? 200)%Z
  | HttpTimeout => ret false
  | HttpConnectionError => ret false
  | HttpRequestException => ret false
  | HttpRaises => ret false
  end.

Definition fetch_routes (env : Env) (self : ControllerClient)
    (agent_id : string) : IO (option (list RouteConfig)) :=
  r <- http_get env agent_id ;;
  match r with
  | Response status_code body =>
      if (status_code =? 200)%Z then
        match body with
        | BodyNotJson => ret None          (* [response.json()] raises *)
        | BodyWithoutRoutes => ret None
        | BodyInvalidRoutes => ret None    (* the [RouteResponse] validation raises *)
        | BodyRoutes routes => ret (Some routes)
        end
      else if (status_code =? 404)%Z then ret None
      else ret None
  | HttpTimeout => ret None
  | HttpConnectionError => ret None
  | HttpRequestException => ret None
  | HttpRaises => ret None
  end.

Definition send_telemetry_with_retry (env : Env) (self : ControllerClient)
    (telemetry : TelemetryRequest) : IO bool :=
  let operation :=
    success <- send_telemetry env self telemetry ;;
    ret (if success then Some true else None) in
  try_except (_retry_with_backoff self operation)
             (fun e => match e with
                       | RetryExhausted => ret false
                       | _ => raise e
                       end).

Definition fetch_routes_with_retry (env : Env) (self : ControllerClient)
    (agent_id : string) : IO (option (list RouteConfig)) :=
  let operation := fetch_routes env self agent_id in
  try_except (result <- _retry_with_backoff self operation ;; ret (Some result))
             (fun e => match e with
                       | RetryExhausted => ret None
                       | _ => raise e
                       end).

End Client.

(* ================================================================== *)
(** * agent/main.py *)

Module Agent.
Import Models World.
Local Open Scope monad_scope.

(** The options of [AgentConfig] the two loops read. *)
Record AgentConfig : Type :=
  { agent_id : string;
    probe_interval : Z;
    sync_interval : Z }.

Record AgentState : Type :=
  { latest_metrics : option (list Metric);
    in_fallback_mode : bool }.

Record Agent : Type :=
  { config : AgentConfig;
    state : AgentState;
    prober : Prober.Prober;
    executor : Executor.Executor;
    client : Client.ControllerClient }.

(** Computations of the coordinator: the store is the agent object together
    with the event history. *)
Definition AM (A : Type) : Type := M (Agent * list event) A.

Definition io {A : Type} (c : IO A) : AM A :=
  fun s => let '(r, h) := c (snd s) in (r, (fst s, h)).

Definition get_self : AM Agent := fun s => (Ok (fst s), s).

Definition put_state (st : AgentState) : AM unit :=
  fun s => (Ok tt, ({| config := config (fst s);
                       state := st;
                       prober := prober (fst s);
                       executor := executor (fst s);
                       client := client (fst s) |}, snd s)).

Definition put_executor (e : Executor.Executor) : AM unit :=
  fun s => (Ok tt, ({| config := config (fst s);
                       state := state (fst s);
                       prober := prober (fst s);
                       executor := e;
                       client := client (fst s) |}, snd s)).

(** A method of [self.prober] called by the coordinator: it runs on the
    prober object of the agent, and whatever it has done to that object
    stays, whether it returns or raises. *)
Definition with_prober {A : Type} (c : Prober.PM A) : AM A :=
  fun s => let '(r, (p, h)) := c (prober (fst s), snd s) in
           (r, ({| config := config (fst s);
                   state := state (fst s);
                   prober := p;
                   executor := executor (fst s);
                   client := client (fst s) |}, h)).

(** [AgentState.set_metrics], [get_metrics], [set_fallback_mode],
    [is_in_fallback_mode] *)
Definition set_metrics (metrics : list Metric) : AM unit :=
  self <- get_self ;;
  put_state {| latest_metrics := Some metrics;
               in_fallback_mode := in_fallback_mode (state self) |}.

Definition get_metrics : AM (option (list Metric)) :=
  self <- get_self ;; ret (latest_metrics (state self)).

Definition set_fallback_mode (enabled : bool) : AM unit :=
  self <- get_self ;;
  if negb (Bool.eqb (in_fallback_mode (state self)) enabled)
  then put_state {| latest_metrics := latest_metrics (state self);
                    in_fallback_mode := enabled |}
  else ret tt.

Definition is_in_fallback_mode : AM bool :=
  self <- get_self ;; ret (in_fallback_mode (state self)).

Definition _enter_fallback_mode (env : Env) : AM unit :=
  fallback <- is_in_fallback_mode ;;
  if negb fallback then
    set_fallback_mode true ;;;
    self <- get_self ;;
    '(_, e) <- io (Executor.flush_all_routes env (executor self)) ;;
    put_executor e
  else ret tt.

Definition _exit_fallback_mode : AM unit :=
  fallback <- is_in_fallback_mode ;;
  if fallback then set_fallback_mode false else ret tt.

(** [self.executor.sync_routes(routes)] (main.py, line 206): the attribute
    is looked up on the instance and on its class before anything is
    called. *)
Definition call_sync_routes (env : Env) (routes : list RouteConfig)
  : AM unit :=
  if Executor.hasattr "sync_routes" then
    self <- get_self ;;
    '(_, e) <- io (Executor.unreachable_sync_body env (executor self) routes) ;;
    put_executor e
  else raise (AttributeError "sync_routes").

(** How an inner [try] block of the loop body ends: with [continue], or by
    falling through to the statements after it. *)
Inductive flow : Type := Continue | FallThrough.

(** The handler [except RetryExhausted:] of the two inner [try] blocks. *)
Definition on_retry_exhausted (env : Env) (e : exn) : AM flow :=
  match e with
  | RetryExhausted =>
      _enter_fallback_mode env ;;;
      self <- get_self ;;
      io (sleep (sync_interval (config self))) ;;;
      ret Continue
  | _ => raise e
  end.

(** One iteration of [while self.running:] in [_executor_loop]. *)
Definition executor_loop_body (env : Env) : AM unit :=
  try_except
    (metrics <- get_metrics ;;
     self <- get_self ;;
     match metrics with
     | None => io (sleep (sync_interval (config self)))
     | Some metrics =>
         ts <- io (ask (now env)) ;;
         let telemetry := {| Models.agent_id := agent_id (config self);
                             timestamp := ts;
                             Models.metrics := metrics |} in
         if negb (valid_TelemetryRequest telemetry) then raise ValidationError
         else
           sent <- try_except
                     (success <- io (Client.send_telemetry_with_retry
                                       env (client self) telemetry) ;;
                      if negb success then
                        _enter_fallback_mode env ;;;
                        io (sleep (sync_interval (config self))) ;;;
                        ret Continue
                      else
                        fallback <- is_in_fallback_mode ;;
                        (if fallback then _exit_fallback_mode else ret tt) ;;;
                        ret FallThrough)
                     (on_retry_exhausted env) ;;
           match sent with
           | Continue => ret tt
           | FallThrough =>
               fetched <- try_except
                            (routes <- io (Client.fetch_routes_with_retry
                                             env (client self)
                                             (agent_id (config self))) ;;
                             match routes with
                             | None =>
                                 _enter_fallback_mode env ;;;
                                 io (sleep (sync_interval (config self))) ;;;
                                 ret Continue
                             | Some routes =>
                                 call_sync_routes env routes ;;;
                                 ret FallThrough
                             end)
                            (on_retry_exhausted env) ;;
               match fetched with
               | Continue => ret tt
               | FallThrough => io (sleep (sync_interval (config self)))
               end
           end
     end)
    (fun _ =>
       self <- get_self ;;
       io (sleep (sync_interval (config self)))).

(** One iteration of [while self.running:] in [_prober_loop]. *)
Definition prober_loop_body (env : Env) : AM unit :=
  try_except
    (self <- get_self ;;
     metrics <- with_prober (Prober.run_once env) ;;
     set_metrics metrics ;;;
     io (sleep (probe_interval (config self))))
    (fun _ =>
       self <- get_self ;;
       io (sleep (probe_interval (config self)))).

End Agent.

(* ================================================================== *)
(** * controller/solver.py *)

Module Solver.
Import Models PyDict.

(** One entry [{"rtt": ..., "loss": ...}] of an agent's metrics, read with
    [.get("rtt")] and [.get("loss", 0.0)]: [None] is an absent key (for
    ["rtt"], also a stored [None]). *)
Record MetricData : Type :=
  { rtt : option float;
    loss : option float }.

(** One entry [{"timestamp": ..., "metrics": {...}}] of the topology, read
    with [.get("metrics", {})]. *)
Record AgentData : Type :=
  { timestamp : Z;
    metrics : option (dict string MetricData) }.

Definition calculate_cost (latency_ms loss_rate penalty_factor : float)
  : float :=
  (latency_ms + loss_rate * penalty_factor)%float.

(** [networkx.DiGraph]: the nodes in insertion order and the ["weight"]
    attribute of every edge. *)
Record DiGraph : Type :=
  { nodes : list string;
    edges : dict (string * string) float }.

Definition empty_graph : DiGraph := {| nodes := []; edges := empty |}.

Definition add_node (G : DiGraph) (n : string) : DiGraph :=
  if PyStr.list_in n (nodes G) then G
  else {| nodes := nodes G ++ [n]; edges := edges G |}.

Definition add_edge (G : DiGraph) (u v : string) (weight : float) : DiGraph :=
  let G := add_node (add_node G u) v in
  {| nodes := nodes G; edges := set (edges G) (u, v) weight |}.

Record RouteSolver : Type :=
  { penalty_factor : float;
    hysteresis : float;
    previous_costs : dict (string * string) float }.

(** [RouteSolver(penalty_factor, hysteresis)] *)
Definition new_solver (penalty_factor hysteresis : float) : RouteSolver :=
  {| penalty_factor := penalty_factor;
     hysteresis := hysteresis;
     previous_costs := empty |}.

(** Body of the inner loop of [build_graph]: one [(target, metric_data)]
    item of the metrics of [source]. *)
Definition add_link (self : RouteSolver) (source : string) (G : DiGraph)
    (item : string * MetricData) : DiGraph :=
  let '(target, metric_data) := item in
  let loss := match loss metric_data with
              | Some l => l
              | None => 0%float
              end in
  let cost := match rtt metric_data with
              | None => infinity
              | Some rtt => calculate_cost rtt loss (penalty_factor self)
              end in
  add_edge G source target cost.

(** Body of the outer loop: one [(source, data)] item of the topology. *)
Definition add_links (self : RouteSolver) (G : DiGraph)
    (item : string * AgentData) : DiGraph :=
  let '(source, data) := item in
  let metrics := match metrics data with
                 | Some m => m
                 | None => empty
                 end in
  fold_left (add_link self source) (items metrics) G.

Definition build_graph (self : RouteSolver)
    (topology_data : dict string AgentData) : DiGraph :=
  let G := fold_left add_node (keys topology_data) empty_graph in
  fold_left (add_links self) (items topology_data) G.

(** A path as [networkx] returns it: a list of nodes that is never empty,
    the source first. *)
Record Path : Type :=
  { first : string;
    rest : list string }.

Definition path_len (p : Path) : nat := S (List.length (rest p)).

(** [path[1]], for a path of two nodes or more. *)
Definition second (p : Path) : string := nth 0 (rest p) "".

(** What a [networkx] query answers: a value, or one of the two exceptions
    [compute_routes_for] handles. *)
Inductive nx_outcome (A : Type) : Type :=
| Found (a : A)
| NetworkXNoPath
| NodeNotFound.

Arguments NetworkXNoPath {A}.
Arguments NodeNotFound {A}.

(** The two [networkx] functions the solver calls with [weight='weight']. *)
Record Networkx : Type :=
  { shortest_path : DiGraph -> string -> string -> nx_outcome Path;
    shortest_path_length : DiGraph -> string -> string -> nx_outcome float }.

Definition set_previous_costs (self : RouteSolver)
    (costs : dict (string * string) float) : RouteSolver :=
  {| penalty_factor := penalty_factor self;
     hysteresis := hysteresis self;
     previous_costs := costs |}.

(** [self.previous_costs.get(cost_key, float('inf'))] *)
Definition previous_cost (self : RouteSolver) (cost_key : string * string)
  : float :=
  match get (previous_costs self) cost_key with
  | Some c => c
  | None => infinity
  end.

(** The hysteresis test of [compute_routes_for]. *)
Definition significantly_better (self : RouteSolver) (new_cost old_cost : float)
  : bool :=
  (new_cost <? old_cost * (1 - hysteresis self))%float.

(** Body of the loop of [compute_routes_for] for one [target]; every
    [continue] returns the accumulator as it stands. *)
Definition visit_target (nx : Networkx) (G : DiGraph) (source_agent : string)
    (acc : list RouteConfig * RouteSolver) (target : string)
  : list RouteConfig * RouteSolver :=
  let '(routes, self) := acc in
  if String.eqb target source_agent then acc
  else
    match shortest_path nx G source_agent target with
    | NetworkXNoPath => acc
    | NodeNotFound => acc
    | Found path =>
        match shortest_path_length nx G source_agent target with
        | NetworkXNoPath => acc
        | NodeNotFound => acc
        | Found new_cost =>
            if (new_cost =? infinity)%float then acc
            else
              let cost_key := (source_agent, target) in
              let old_cost := previous_cost self cost_key in
              if significantly_better self new_cost old_cost then
                let self :=
                  set_previous_costs self
                    (set (previous_costs self) cost_key new_cost) in
                if (path_len path =? 1)%nat then (routes, self)
                else if (path_len path =? 2)%nat then
                  (routes ++ [{| dst_cidr := (target ++ "/32")%string;
                                 next_hop := "direct";
                                 reason := "default" |}], self)
                else
                  (routes ++ [{| dst_cidr := (target ++ "/32")%string;
                                 next_hop := second path;
                                 reason := "optimized_path" |}], self)
              else acc
        end
    end.

Definition compute_routes_for (nx : Networkx) (self : RouteSolver)
    (source_agent : string) (topology_data : dict string AgentData)
  : list RouteConfig * RouteSolver :=
  let G := build_graph self topology_data in
  if negb (PyStr.list_in source_agent (nodes G)) then ([], self)
  else fold_left (visit_target nx G source_agent) (nodes G) ([], self).

Definition reset_history (self : RouteSolver) : RouteSolver :=
  set_previous_costs self empty.

End Solver.

(* ================================================================== *)
(** * A reference shortest-path search *)

(** [networkx] is an interface of the solver ([Solver.Networkx]).  The
    worked examples instantiate it with this label-correcting search: every
    round relaxes every edge, and as many rounds run as the graph has
    nodes. *)
Module NxReference.
Import PyDict Solver.

Definition extend (p : Path) (v : string) : Path :=
  {| first := first p; rest := rest p ++ [v] |}.

Definition relax (labels : dict string (float * Path))
    (edge : (string * string) * float) : dict string (float * Path) :=
  let '((u, v), w) := edge in
  match get labels u with
  | None => labels
  | Some (du, pu) =>
      let d := (du + w)%float in
      match get labels v with
      | None => set labels v (d, extend pu v)
      | Some (dv, _) =>
          if (d <? dv)%float then set labels v (d, extend pu v) else labels
      end
  end.

Fixpoint rounds (n : nat) (G : DiGraph) (labels : dict string (float * Path))
  : dict string (float * Path) :=
  match n with
  | O => labels
  | S n' => rounds n' G (fold_left relax (items (edges G)) labels)
  end.

Definition search (G : DiGraph) (source : string)
  : dict string (float * Path) :=
  rounds (List.length (nodes G)) G
         [(source, (0%float, {| first := source; rest := [] |}))].

Definition lookup {A : Type} (pick : float * Path -> A) (G : DiGraph)
    (source target : string) : nx_outcome A :=
  if negb (PyStr.list_in source (nodes G)) then NodeNotFound
  else if negb (PyStr.list_in target (nodes G)) then NodeNotFound
  else match get (search G source) target with
       | Some l => Found (pick l)
       | None => NetworkXNoPath
       end.

Definition nx : Networkx :=
  {| shortest_path := lookup snd;
     shortest_path_length := lookup fst |}.

End NxReference.

(* ================================================================== *)
(** * Concrete agents and environments *)

(** The configurations and environments the worked examples run in. *)
Module Scenarios.
Import Models World.

Definition LF : string := String (ascii_of_nat 10) EmptyString.

(** [Executor("wg0", "10.254.0.0/24")], the defaults of the agent. *)
Definition wg0_executor : Executor.Executor :=
  {| Executor.wg_interface := "wg0";
     Executor.allowed_subnet :=
       {| IPv4.network_address := 184418304; IPv4.prefixlen := 24 |};
     Executor.current_routes := PyDict.empty |}.

(** A controller that accepts every report and has no route to offer, a
    kernel whose table is empty and whose commands succeed, silent peers. *)
Definition quiet_env : Env :=
  {| ping3_ping := fun _ _ => PingNone;
     subprocess_run := fun _ _ => Completed 0 "" "";
     requests_post := fun _ _ => Response 200 BodyWithoutRoutes;
     requests_get := fun _ _ => Response 200 (BodyRoutes []);
     now := fun _ => 1703830000%Z |}.

Definition with_subprocess (env : Env)
    (f : list event -> list string -> proc_outcome) : Env :=
  {| ping3_ping := ping3_ping env;
     subprocess_run := f;
     requests_post := requests_post env;
     requests_get := requests_get env;
     now := now env |}.

Definition with_get (env : Env) (f : list event -> string -> http_outcome)
  : Env :=
  {| ping3_ping := ping3_ping env;
     subprocess_run := subprocess_run env;
     requests_post := requests_post env;
     requests_get := f;
     now := now env |}.

Definition with_ping (env : Env) (f : list event -> string -> ping_outcome)
  : Env :=
  {| ping3_ping := f;
     subprocess_run := subprocess_run env;
     requests_post := requests_post env;
     requests_get := requests_get env;
     now := now env |}.

(** A kernel that refuses every route command for lack of privilege. *)
Definition denied_env : Env :=
  with_subprocess quiet_env
    (fun _ _ => Completed 2 "" "RTNETLINK answers: Operation not permitted").

(** A kernel whose table holds one host route, on the interface [wg01]. *)
Definition wg01_env : Env :=
  with_subprocess quiet_env
    (fun _ command =>
       match command with
       | [_; _; "show"; _; _] =>
           Completed 0 ("10.254.0.9 dev wg01 scope link" ++ LF) ""
       | _ => Completed 0 "" ""
       end).

(** A controller that does not know the agent: every fetch is answered
    404 (with a JSON body that has no ["routes"]). *)
Definition unknown_agent_env : Env :=
  with_get quiet_env (fun _ _ => Response 404 BodyWithoutRoutes).

(** A controller that answers the fetch with one relay route. *)
Definition relay_route : RouteConfig :=
  {| dst_cidr := "10.254.0.3/32";
     next_hop := "10.254.0.2";
     reason := "optimized_path" |}.

Definition one_route_env : Env :=
  with_get quiet_env (fun _ _ => Response 200 (BodyRoutes [relay_route])).

(** [Prober([peer], 5, 2.0, window_size)] for a positive window. *)
Definition single_peer_prober (peer : string) (window_size : Z)
  : Prober.Prober :=
  let fresh := {| Prober.maxlen := window_size; Prober.buffer := [] |} in
  {| Prober.peer_ips := [peer];
     Prober.interval := 5;
     Prober.timeout := 2;
     Prober.window_size := window_size;
     Prober.buffers := [(peer, {| Prober.rtt := fresh;
                                  Prober.loss := fresh |})] |}.

(** The agent [10.254.0.1] with the default settings, one probe cycle
    behind it, not in fallback. *)
Definition default_client : Client.ControllerClient :=
  Client.new_client "http://10.254.0.1:8000" 5 3 None.

Definition one_metric : Metric :=
  {| target_ip := "10.254.0.2"; rtt_ms := Some 35.5%float; loss_rate := 0 |}.

Definition agent0 : Agent.Agent :=
  {| Agent.config := {| Agent.agent_id := "10.254.0.1";
                        Agent.probe_interval := 5;
                        Agent.sync_interval := 10 |};
     Agent.state := {| Agent.latest_metrics := Some [one_metric];
                       Agent.in_fallback_mode := false |};
     Agent.prober := single_peer_prober "10.254.0.2" 10;
     Agent.executor := wg0_executor;
     Agent.client := default_client |}.


(** The solver of the controller: penalty factor 100, hysteresis 0.15. *)
Definition default_solver : Solver.RouteSolver :=
  Solver.new_solver 100 0.15.

(** The same solver after it last emitted a route from A to B at cost
    100. *)
Definition solver_after_100 : Solver.RouteSolver :=
  Solver.set_previous_costs default_solver [(("A", "B"), 100%float)].

(** A topology of one report: A reaches B with the given round-trip time
    and no loss, so the only path from A to B costs [rtt]. *)
Definition one_link (rtt : float) : PyDict.dict string Solver.AgentData :=
  [("A", {| Solver.timestamp := 1703830000;
            Solver.metrics :=
              Some [("B", {| Solver.rtt := Some rtt;
                             Solver.loss := Some 0%float |})] |})].

(** A reaches B slowly and with loss, and C quickly; C reaches B quickly. *)
Definition relay_topology : PyDict.dict string Solver.AgentData :=
  [("A", {| Solver.timestamp := 1703830000;
            Solver.metrics :=
              Some [("B", {| Solver.rtt := Some 200%float;
                             Solver.loss := Some 0.1%float |});
                    ("C", {| Solver.rtt := Some 30%float;
                             Solver.loss := Some 0%float |})] |});
   ("C", {| Solver.timestamp := 1703830000;
            Solver.metrics :=
              Some [("B", {| Solver.rtt := Some 30%float;
                             Solver.loss := Some 0%float |})] |})].


(** Peers that answer according to a script: the [n]-th echo request gets
    the [n]-th outcome, and silence once the script is over. *)
Fixpoint count_pings (h : list event) : nat :=
  match h with
  | [] => 0
  | EvPing _ :: h' => S (count_pings h')
  | _ :: h' => count_pings h'
  end.

Definition scripted_env (script : list ping_outcome) : Env :=
  with_ping quiet_env (fun h _ => nth (count_pings h) script PingNone).

(** [n] probe cycles in a row, as [_prober_loop] runs them; the answer is
    the metric list of the last cycle. *)
Fixpoint run_cycles (env : Env) (n : nat) (latest : list Metric)
  : Prober.PM (list Metric) :=
  match n with
  | O => ret latest
  | S n' =>
      World.bind (Prober.run_once env)
        (fun metrics => run_cycles env n' metrics)
  end.

(** A reply after 50 ms: [ping3] reports seconds. *)
Definition reply_50ms : ping_outcome := PingReply 0.05.

Definition is_reply (o : ping_outcome) : bool :=
  match o with PingReply _ => true | _ => false end.

(** Every script of [n] outcomes, each a reply after 50 ms, a timeout or
    an exception. *)
Fixpoint all_scripts (n : nat) : list (list ping_outcome) :=
  match n with
  | O => [[]]
  | S n' =>
      flat_map (fun s => [reply_50ms :: s; PingNone :: s; PingRaises :: s])
               (all_scripts n')
  end.

Definition option_float_eqb (a b : option float) : bool :=
  match a, b with
  | Some x, Some y => PrimFloat.Leibniz.eqb x y
  | None, None => true
  | _, _ => false
  end.

Definition Metric_eqb (a b : Metric) : bool :=
  String.eqb (target_ip a) (target_ip b)
  && option_float_eqb (rtt_ms a) (rtt_ms b)
  && PrimFloat.Leibniz.eqb (loss_rate a) (loss_rate b).

(** The metric list the prober of ["10.254.0.2"], window 10, reports after
    the ten outcomes of [script] is the single metric [expected]. *)
Definition reports (script : list ping_outcome) (expected : Metric) : bool :=
  match fst (run_cycles (scripted_env script) 10 []
               (single_peer_prober "10.254.0.2" 10, [])) with
  | Ok [m] => Metric_eqb m expected
  | _ => false
  end.

(** What scenario S4 expects of a script, by its number of replies. *)
Definition scenario_S4 (script : list ping_outcome) : bool :=
  let replies := List.length (filter is_reply script) in
  if (replies =? 7)%nat then
    reports script {| target_ip := "10.254.0.2";
                      rtt_ms := Some 50%float;
                      loss_rate := 0.3 |}
  else if (replies =? 0)%nat then
    reports script {| target_ip := "10.254.0.2";
                      rtt_ms := None;
                      loss_rate := 1 |}
  else true.

End Scenarios.

(* ================================================================== *)
(** * controller/topology_db.py *)

(** The database is the dictionary [self._data]; the lock that guards it
    serialises the calls and has no part in what each call computes. *)
Module TopologyDB.
Import PyDict Solver.

(** An entry [{"timestamp": ..., "metrics": ...}] as [store_telemetry]
    writes it: both keys are always there. *)
Record Entry : Type :=
  { entry_timestamp : Z;
    entry_metrics : dict string MetricData }.

Definition TopologyDatabase : Type := dict string Entry.

(** [TopologyDatabase()] *)
Definition new_db : TopologyDatabase := empty.

(** [del d[k]] *)
Fixpoint delete {V : Type} (d : dict string V) (k : string) : dict string V :=
  match d with
  | [] => []
  | (k', v) :: d' => if String.eqb k' k then d' else (k', v) :: delete d' k
  end.

Definition store_telemetry (self : TopologyDatabase) (agent_id : string)
    (timestamp : Z) (metrics : dict string MetricData) : TopologyDatabase :=
  set self agent_id {| entry_timestamp := timestamp;
                       entry_metrics := metrics |}.

Definition get_agent_data (self : TopologyDatabase) (agent_id : string)
  : option Entry :=
  get self agent_id.

Definition get_all_agents (self : TopologyDatabase) : list string :=
  keys self.

(** The copy [get_all_data] hands to the solver, entry by entry. *)
Definition get_all_data (self : TopologyDatabase) : dict string AgentData :=
  map (fun item : string * Entry =>
         (fst item,
          {| timestamp := entry_timestamp (snd item);
             metrics := Some (map (fun m : string * MetricData =>
                                     (fst m, {| rtt := rtt (snd m);
                                                loss := loss (snd m) |}))
                                  (items (entry_metrics (snd item)))) |}))
      (items self).

Definition agent_exists (self : TopologyDatabase) (agent_id : string) : bool :=
  mem self agent_id.

Definition clear (self : TopologyDatabase) : TopologyDatabase := empty.

Definition get_agent_count (self : TopologyDatabase) : nat :=
  List.length self.

(** Body of the loop of [remove_stale_agents] over a snapshot of the
    items. *)
Definition remove_if_stale (current_time max_age_seconds : Z)
    (acc : list string * TopologyDatabase) (item : string * Entry)
  : list string * TopologyDatabase :=
  let '(removed, data) := acc in
  if (current_time - entry_timestamp (snd item) >? max_age_seconds)%Z
  then (removed ++ [fst item], delete data (fst item))
  else (removed, data).

(** [remove_stale_agents(max_age_seconds)], with [current_time] the value
    of [int(time.time())]. *)
Definition remove_stale_agents (current_time : Z) (self : TopologyDatabase)
    (max_age_seconds : Z) : list string * TopologyDatabase :=
  fold_left (remove_if_stale current_time max_age_seconds) (items self)
            ([], self).

End TopologyDB.

(* ================================================================== *)
(** * controller/api.py *)

(** The two endpoints, as functions of the request and of the module's two
    global components. *)
Module Api.
Import Models PyDict Solver.

Record Controller : Type :=
  { topology_db : TopologyDB.TopologyDatabase;
    route_solver : RouteSolver }.

(** [topology_db = TopologyDatabase()],
    [route_solver = RouteSolver(penalty_factor=100, hysteresis=0.15)] *)
Definition startup : Controller :=
  {| topology_db := TopologyDB.new_db;
     route_solver := new_solver 100 0.15 |}.

Inductive response (A : Type) : Type :=
| Status200 (body : A)
| Status404
| Status422.

Arguments Status404 {A}.
Arguments Status422 {A}.

(** The request model of the telemetry endpoint: the framework validates
    the body against [TelemetryRequest] before the handler runs. *)
Definition valid_body (data : TelemetryRequest) : bool :=
  valid_TelemetryRequest data && forallb valid_Metric (Models.metrics data).

(** The dictionary comprehension of [receive_telemetry]. *)
Definition metrics_dict (data : TelemetryRequest) : dict string MetricData :=
  fold_left (fun d metric =>
               set d (target_ip metric)
                   {| rtt := rtt_ms metric;
                      loss := Some (loss_rate metric) |})
            (Models.metrics data) empty.

(** [POST /api/v1/telemetry] *)
Definition receive_telemetry (data : TelemetryRequest) (ctl : Controller)
  : response unit * Controller :=
  if negb (valid_body data) then (Status422, ctl)
  else
    (Status200 tt,
     {| topology_db :=
          TopologyDB.store_telemetry (topology_db ctl) (Models.agent_id data)
                                     (Models.timestamp data)
                                     (metrics_dict data);
        route_solver := route_solver ctl |}).

(** [GET /api/v1/routes?agent_id=...] *)
Definition get_routes (nx : Networkx) (agent_id : string) (ctl : Controller)
  : response (list RouteConfig) * Controller :=
  if negb (TopologyDB.agent_exists (topology_db ctl) agent_id)
  then (Status404, ctl)
  else
    let topology_data := TopologyDB.get_all_data (topology_db ctl) in
    let '(routes, solver) :=
      compute_routes_for nx (route_solver ctl) agent_id topology_data in
    (Status200 routes,
     {| topology_db := topology_db ctl; route_solver := solver |}).

(** [GET /health]: the agent count. *)
Definition health_check (ctl : Controller) : nat :=
  TopologyDB.get_agent_count (topology_db ctl).

End Api.

(* ================================================================== *)
(** * Vocabulary of the statements *)

(** The predicates and abbreviations the facts of the second half are
    stated with, grouped by the source module they speak about. *)
Module ExecutorSpec.
Import Models World PyDict Executor Scenarios.

(** The command [get_current_routes] runs. *)
Definition listing_command : list string :=
  ["ip"; "route"; "show"; "table"; "main"].

(** The command [apply_route("10.254.0.3", "direct")] runs on [wg0]. *)
Definition delete_command : list string :=
  ["ip"; "route"; "del"; "10.254.0.3/32"; "dev"; "wg0"].

End ExecutorSpec.

Module AgentSpec.
Import Models World Executor Client Agent Scenarios.

(** The telemetry report the cycle of [agent0] posts. *)
Definition report0 : TelemetryRequest :=
  {| Models.agent_id := "10.254.0.1";
     timestamp := 1703830000;
     metrics := [one_metric] |}.

(** The agent once the report went through: out of fallback. *)
Definition recovered (a : Agent) : Agent :=
  {| config := config a;
     state := {| latest_metrics := latest_metrics (state a);
                 in_fallback_mode := false |};
     prober := prober a;
     executor := executor a;
     client := client a |}.

End AgentSpec.

Module SolverSpec.
Import Models PyDict Solver.

(** The route [r] was emitted for [source_agent] in [G]: it leads to a
    node [T] other than the source, along the path [networkx] answered,
    whose cost is not infinite; the next hop follows the path's length:
    "direct" for a path of two nodes, and for a longer path the node that
    comes right after the source. *)
Definition emitted_for (nx : Networkx) (G : DiGraph) (source_agent : string)
    (r : RouteConfig) : Prop :=
  exists (T : string) (path : Path) (c : float),
    In T (nodes G)
    /\ T <> source_agent
    /\ dst_cidr r = (T ++ "/32")%string
    /\ shortest_path nx G source_agent T = Found path
    /\ shortest_path_length nx G source_agent T = Found c
    /\ (c =? infinity)%float = false
    /\ (path_len path = 2 -> next_hop r = "direct" /\ reason r = "default")
    /\ (3 <= path_len path ->
        (exists hop more, rest path = hop :: more /\ next_hop r = hop)
        /\ reason r = "optimized_path").

(** The route list holds a route whose destination is [T]. *)
Definition has_route_for (routes : list RouteConfig) (T : string) : Prop :=
  exists r, In r routes /\ dst_cidr r = (T ++ "/32")%string.

(** What the loop knows about one destination [T]: whether a route for it
    was emitted, the cost remembered for it, and the threshold. *)
Definition same_view (source_agent T : string)
    (acc acc' : list RouteConfig * RouteSolver) : Prop :=
  (has_route_for (fst acc') T <-> has_route_for (fst acc) T)
  /\ get (previous_costs (snd acc')) (source_agent, T)
     = get (previous_costs (snd acc)) (source_agent, T)
  /\ hysteresis (snd acc') = hysteresis (snd acc).

End SolverSpec.

Module ProberSpec.
Import Models World PyDict Prober Scenarios.

(** What [probe_once] makes of an outcome. *)
Definition result_of (target_ip : string) (outcome : ping_outcome)
  : ProbeResult :=
  match outcome with
  | PingReply rtt_seconds =>
      {| target := target_ip;
         result_rtt_ms := Some (rtt_seconds * 1000)%float;
         result_loss := 0 |}
  | PingNone =>
      {| target := target_ip; result_rtt_ms := None; result_loss := 1 |}
  | PingFalse =>
      {| target := target_ip; result_rtt_ms := Some 0%float;
         result_loss := 0 |}
  | PingRaises =>
      {| target := target_ip; result_rtt_ms := None; result_loss := 1 |}
  end.

(** The probes of one [probe_all] in order, each with the outcome the
    environment gives it at that point of the history. *)
Fixpoint probes (env : Env) (h : list event) (peers : list string)
  : list (string * ping_outcome) :=
  match peers with
  | [] => []
  | p :: ps => (p, ping3_ping env h p) :: probes env (h ++ [EvPing p]) ps
  end.

(** The outcomes among them that concern the peer [p]. *)
Definition outcomes_of (p : string) (l : list (string * ping_outcome))
  : list ping_outcome :=
  map snd (filter (fun x => String.eqb (fst x) p) l).

(** What one outcome does to the two buffers of the probed peer: the loss
    buffer always takes a sample, 1.0 for a timeout or an exception and
    0.0 for a reply; the RTT buffer takes one for a reply only.  The
    answer [False] of a probe that failed is taken for a reply after 0
    seconds. *)
Definition record_outcome (b : PeerBuffers) (outcome : ping_outcome)
  : PeerBuffers :=
  {| rtt := match outcome with
            | PingReply rtt_seconds =>
                append (rtt b) (rtt_seconds * 1000)%float
            | PingFalse => append (rtt b) 0%float
            | PingNone | PingRaises => rtt b
            end;
     loss := append (loss b) match outcome with
                             | PingReply _ | PingFalse => 0%float
                             | PingNone | PingRaises => 1%float
                             end |}.

(** An outcome of scenario S4: a reply after 50 ms, a timeout or an
    exception. *)
Definition plain (o : ping_outcome) : Prop :=
  o = reply_50ms \/ o = PingNone \/ o = PingRaises.

(** Ten probes that [ping3] could not send, each answered [False]. *)
Definition ten_errors : list ping_outcome := repeat PingFalse 10.

(** A prober whose second peer has no buffers. *)
Definition lopsided_prober : Prober :=
  {| peer_ips := ["10.254.0.2"; "10.254.0.3"];
     interval := 5;
     timeout := 2;
     window_size := 10;
     buffers := buffers (single_peer_prober "10.254.0.2" 10) |}.

End ProberSpec.

Module ExtraSpec.
Import Models World PyDict.

(** The last [n] items of a list. *)
Definition lastn {A : Type} (n : nat) (l : list A) : list A :=
  skipn (List.length l - n) l.

(** Loss samples: 1.0 for a failed probe, 0.0 for an answered one. *)
Definition loss_sample (failed : bool) : float :=
  if failed then 1%float else 0%float.

(** Every list of [n] booleans. *)
Fixpoint all_bools (n : nat) : list (list bool) :=
  match n with
  | O => [[]]
  | S n' => flat_map (fun l => [true :: l; false :: l]) (all_bools n')
  end.

(** [float(n)] for a small natural number. *)
Definition float_of_nat (n : nat) : float :=
  PrimFloat.of_uint63 (Uint63.of_Z (Z.of_nat n)).

(** The mean of a window of loss samples is the number of failures over
    the number of samples, and lies between 0 and 1. *)
Definition loss_mean_ok (capacity : Z) (failed : list bool) : bool :=
  match failed with
  | [] => true
  | _ =>
      match Prober.get_moving_average
              {| Prober.maxlen := capacity;
                 Prober.buffer := map loss_sample failed |} with
      | Some m =>
          PrimFloat.Leibniz.eqb m
            (float_of_nat (List.length (filter (fun b => b) failed))
             / float_of_nat (List.length failed))
          && (0 <=? m)%float && (m <=? 1)%float
      | None => false
      end
  end.

End ExtraSpec.

Module ExecutorExtraSpec.
Import Models World PyDict Executor.

(** The delete and replace commands on the interface of [self]. *)
Definition del_command (self : Executor) (dst_ip : string) : list string :=
  ["ip"; "route"; "del"; (dst_ip ++ "/32")%string; "dev"; wg_interface self].

Definition replace_command (self : Executor) (dst_ip next_hop : string)
  : list string :=
  ["ip"; "route"; "replace"; (dst_ip ++ "/32")%string;
   "via"; next_hop; "dev"; wg_interface self].

(** The table that results from [current] when the additions and the
    modifications are written and the deletions removed, looked up at
    [k]. *)
Definition patched (to_add to_modify : dict string string)
    (to_delete : list string) (current : dict string string) (k : string)
  : option string :=
  if PyStr.list_in k to_delete then None
  else match get to_add k with
       | Some v => Some v
       | None => match get to_modify k with
                 | Some v => Some v
                 | None => get current k
                 end
       end.

End ExecutorExtraSpec.

Module ClientExtraSpec.
Import Models World Client Scenarios.

(** [self.retry_backoff[min(attempt, len(self.retry_backoff) - 1)]] *)
Definition backoff_delay (self : ControllerClient) (attempt : Z) : Z :=
  nth (Z.to_nat (Z.min attempt (Z.of_nat (List.length (retry_backoff self)) - 1)))
      (retry_backoff self) 0%Z.

(** The backoff lists the loop can use: indexing an empty list raises
    [IndexError], and [time.sleep] refuses a negative delay. *)
Definition usable_backoff (self : ControllerClient) : Prop :=
  retry_backoff self <> []
  /\ Forall (fun d => (0 <= d)%Z) (retry_backoff self).

(** A fetch that [fetch_routes] turns into [None]: anything but a 200 with
    a valid route list. *)
Definition failed_fetch (o : http_outcome) : bool :=
  match o with
  | Response 200 (BodyRoutes _) => false
  | _ => true
  end.

(** A report that [send_telemetry] turns into [False]: anything but a
    200. *)
Definition failed_post (o : http_outcome) : bool :=
  match o with
  | Response 200 _ => false
  | _ => true
  end.

Fixpoint count_posts (h : list event) : nat :=
  match h with
  | [] => 0
  | EvPost _ :: h' => S (count_posts h')
  | _ :: h' => count_posts h'
  end.

(** A controller that answers the reports according to a script: the
    [n]-th POST gets the [n]-th outcome, and a refused connection once the
    script is over. *)
Definition scripted_post_env (script : list http_outcome) : Env :=
  {| ping3_ping := ping3_ping quiet_env;
     subprocess_run := subprocess_run quiet_env;
     requests_post := fun h _ => nth (count_posts h) script HttpConnectionError;
     requests_get := requests_get quiet_env;
     now := now quiet_env |}.

(** A controller no request reaches. *)
Definition down_env : Env :=
  with_get (scripted_post_env []) (fun _ _ => HttpConnectionError).

(** A report of the agent 10.254.0.1. *)
Definition a_report : TelemetryRequest :=
  {| agent_id := "10.254.0.1";
     timestamp := 1703830000;
     metrics := [one_metric] |}.

End ClientExtraSpec.

Module AgentExtraSpec.
Import Models World Executor Client Agent ExecutorSpec ExecutorExtraSpec.

(** The agent once fallback is entered: the flag set, and the executor as
    the flush left it. *)
Definition fallen_back (a : Agent) (e : Executor.Executor) : Agent :=
  {| config := config a;
     state := {| latest_metrics := latest_metrics (state a);
                 in_fallback_mode := true |};
     prober := prober a;
     executor := e;
     client := client a |}.

(** The commands that read the table or remove a host route from it. *)
Definition removal_only (self : Executor.Executor) (c : list string) : Prop :=
  c = listing_command \/ exists d, c = del_command self d.

(** The agent after its prober has probed. *)
Definition probed (a : Agent) (p : Prober.Prober) : Agent :=
  {| config := config a;
     state := state a;
     prober := p;
     executor := executor a;
     client := client a |}.

(** The agent with fresh measurements published. *)
Definition published (a : Agent) (p : Prober.Prober) (metrics : list Metric)
  : Agent :=
  {| config := config a;
     state := {| latest_metrics := Some metrics;
                 in_fallback_mode := in_fallback_mode (state a) |};
     prober := p;
     executor := executor a;
     client := client a |}.

(** A computation that only adds events of the kind [P] to the history. *)
Definition extends (P : event -> Prop) {A : Type} (c : IO A) : Prop :=
  forall h, exists added, snd (c h) = h ++ added /\ Forall P added.

(** The events of a report with retries, and of a fetch with retries. *)
Definition report_or_sleep (t : TelemetryRequest) (e : event) : Prop :=
  match e with
  | EvPost t' => t' = t
  | EvSleep _ => True
  | _ => False
  end.

Definition fetch_or_sleep (agent_id : string) (e : event) : Prop :=
  match e with
  | EvGet agent_id' => agent_id' = agent_id
  | EvSleep _ => True
  | _ => False
  end.

(** The events of a flush. *)
Definition removal_event (self : Executor.Executor) (e : event) : Prop :=
  match e with
  | EvRun c => removal_only self c
  | _ => False
  end.

(** The report a sync cycle builds from the published [metrics]. *)
Definition cycle_report (env : Env) (a : Agent) (h : list event)
    (metrics : list Metric) : TelemetryRequest :=
  {| Models.agent_id := agent_id (config a);
     timestamp := World.now env h;
     Models.metrics := metrics |}.

(** The report of the cycle that starts in [(a, h)], when the model
    [TelemetryRequest] accepts it. *)
Definition sent_report (env : Env) (a : Agent) (h : list event)
    (t : TelemetryRequest) : Prop :=
  exists metrics,
    latest_metrics (state a) = Some metrics
    /\ t = cycle_report env a h metrics
    /\ valid_TelemetryRequest t = true.

(** The events of a sync cycle: no probe; no command but the listing and
    the deletions on the interface of [self]; no report but the one of the
    cycle; no fetch but for the agent itself. *)
Definition cycle_event (self : Executor.Executor)
    (report : TelemetryRequest -> Prop) (agent_id : string) (e : event)
  : Prop :=
  match e with
  | EvPing _ => False
  | EvRun c => removal_only self c
  | EvPost t => report t
  | EvGet agent_id' => agent_id' = agent_id
  | EvSleep _ => True
  end.

(** What a sync cycle leaves alone in the agent. *)
Definition same_setup (a a' : Agent) : Prop :=
  config a' = config a
  /\ client a' = client a
  /\ prober a' = prober a
  /\ latest_metrics (state a') = latest_metrics (state a)
  /\ wg_interface (executor a') = wg_interface (executor a)
  /\ allowed_subnet (executor a') = allowed_subnet (executor a).

Fixpoint pings (h : list event) : list string :=
  match h with
  | [] => []
  | EvPing p :: h' => p :: pings h'
  | _ :: h' => pings h'
  end.

Fixpoint posts (h : list event) : list TelemetryRequest :=
  match h with
  | [] => []
  | EvPost t :: h' => t :: posts h'
  | _ :: h' => posts h'
  end.

End AgentExtraSpec.

Module ControllerSpec.
Import Models PyDict Solver.

(** An entry older than [max_age_seconds] at [current_time]. *)
Definition stale (current_time max_age_seconds : Z)
    (item : string * TopologyDB.Entry) : bool :=
  (max_age_seconds <? current_time - TopologyDB.entry_timestamp (snd item))%Z.

(** A database with the reports of A, at time 100, and of B, at time
    140. *)
Definition two_reports : TopologyDB.TopologyDatabase :=
  TopologyDB.store_telemetry
    (TopologyDB.store_telemetry TopologyDB.new_db "A" 100 empty)
    "B" 140 empty.

(** What the telemetry endpoint stores for one metric. *)
Definition stored_metric (m : Metric) : MetricData :=
  {| rtt := rtt_ms m; loss := Some (loss_rate m) |}.

(** The last metric of a report for the target [t]. *)
Definition last_metric (ms : list Metric) (t : string) : option Metric :=
  find (fun m => String.eqb (target_ip m) t) (rev ms).

(** The cost of a link as measured: the round-trip time plus the weighted
    loss, or infinity for a link without a round-trip time. *)
Definition link_cost (self : RouteSolver) (md : MetricData) : float :=
  match rtt md with
  | None => infinity
  | Some r => (r + match loss md with Some l => l | None => 0 end
                   * penalty_factor self)%float
  end.

(** The measurement of [t] by [s] in a topology. *)
Definition link (topology_data : dict string AgentData) (s t : string)
  : option MetricData :=
  match get topology_data s with
  | Some data => match metrics data with
                 | Some m => get m t
                 | None => None
                 end
  | None => None
  end.

(** A topology in which no agent and, within a report, no target occurs
    twice. *)
Definition proper (topology_data : dict string AgentData) : Prop :=
  NoDup (keys topology_data)
  /\ forall s data m, In (s, data) topology_data ->
                      metrics data = Some m -> NoDup (keys m).

(** The cost the controller gives to a reported metric: the solver of the
    API has penalty factor 100. *)
Definition measured_cost (m : Metric) : float :=
  match rtt_ms m with
  | None => infinity
  | Some r => (r + loss_rate m * 100)%float
  end.

(** The requests of the two endpoints. *)
Inductive request : Type :=
| PostTelemetry (data : TelemetryRequest)
| GetRoutes (agent_id : string).

(** The controller after a request. *)
Definition serve (nx : Networkx) (ctl : Api.Controller) (req : request)
  : Api.Controller :=
  match req with
  | PostTelemetry data => snd (Api.receive_telemetry data ctl)
  | GetRoutes agent_id => snd (Api.get_routes nx agent_id ctl)
  end.

Definition serve_all (nx : Networkx) (reqs : list request)
    (ctl : Api.Controller) : Api.Controller :=
  fold_left (serve nx) reqs ctl.

(** The controller after a request for routes it answers with 404 and a
    first report. *)
Definition after_first_report : Api.Controller :=
  serve_all NxReference.nx
            ([GetRoutes "10.254.0.1"] ++ [PostTelemetry AgentSpec.report0])
            Api.startup.

(** A valid report of the agent [agent_id]. *)
Definition report_of (agent_id : string) (req : request) : bool :=
  match req with
  | PostTelemetry data =>
      Api.valid_body data && String.eqb (Models.agent_id data) agent_id
  | GetRoutes _ => false
  end.

End ControllerSpec.

Module ListingSpec.
Import PyStr PyDict Executor.

(** The line [ip route show] prints for a host route of the interface: a
    relay route as "D via H dev IFACE", a direct one as
    "D dev IFACE scope link". *)
Definition route_line (self : Executor) (route : string * string) : string :=
  if String.eqb (snd route) "direct"
  then join [fst route; "dev"; wg_interface self; "scope"; "link"]
  else join [fst route; "via"; snd route; "dev"; wg_interface self].

(** The listing of a table, one line per route, each ended by a line
    feed. *)
Fixpoint listing (self : Executor) (routes : dict string string) : string :=
  match routes with
  | [] => EmptyString
  | route :: routes' =>
      (route_line self route ++ String "010"%char (listing self routes'))%string
  end.

(** Destinations and next hops as the listing prints them: words, the
    destination without a prefix and other than the keyword. *)
Definition printable (route : string * string) : bool :=
  is_word (fst route) && negb (str_in "/" (fst route))
  && negb (String.eqb (fst route) "via") && is_word (snd route).

(** A table of two routes, and a kernel that lists it. *)
Definition two_routes : dict string string :=
  [("10.254.0.3", "10.254.0.2"); ("10.254.0.4", "direct")].

Definition two_routes_env : World.Env :=
  Scenarios.with_subprocess Scenarios.quiet_env
    (fun _ _ => World.Completed 0 (listing Scenarios.wg0_executor two_routes) "").

Fixpoint no_linebreak (s : string) : bool :=
  match s with
  | EmptyString => true
  | String c s' => negb (is_linebreak c) && no_linebreak s'
  end.

End ListingSpec.

(* ================================================================== *)
(** * Part II: facts *)

(** From here on every argument of a lemma is explicit. *)
Unset Implicit Arguments.

(* ================================================================== *)
(** * Facts about dictionaries *)

Module PyDictFacts.
Import PyDict.

Class KeyLaws (K : Type) `{Key K} : Prop :=
  keqb_eq : forall a b : K, keqb a b = true <-> a = b.

Arguments KeyLaws K {_}.

#[export] Instance KeyLaws_string : KeyLaws string.
Proof. exact String.eqb_eq. Qed.

#[export] Instance KeyLaws_pair : KeyLaws (string * string).
Proof.
  intros [a1 a2] [b1 b2]. cbn. unfold pair_eqb. simpl.
  rewrite andb_true_iff, !String.eqb_eq. split.
  - intros [-> ->]. reflexivity.
  - intros [= -> ->]. auto.
Qed.

Section Laws.
Context {K V : Type} `{KeyLaws K}.

Lemma keqb_spec (a b : K) : reflect (a = b) (keqb a b).
Proof. apply iff_reflect. symmetry. apply keqb_eq. Qed.

Lemma get_In (d : dict K V) k v : get d k = Some v -> In (k, v) d.
Proof.
  induction d as [|[k' v'] d IH]; simpl; [discriminate|].
  destruct (keqb_spec k' k) as [->|Hne].
  - intros [= ->]. now left.
  - intros E. right. auto.
Qed.

Lemma get_None (d : dict K V) k : get d k = None <-> ~ In k (keys d).
Proof.
  induction d as [|[k' v'] d IH]; simpl.
  - tauto.
  - destruct (keqb_spec k' k) as [->|Hne].
    + split; [discriminate | intros N; exfalso; apply N; now left].
    + rewrite IH. split; [intros N [E|I]; congruence | tauto].
Qed.

Lemma mem_keys (d : dict K V) k : mem d k = true <-> In k (keys d).
Proof.
  unfold mem. destruct (get d k) eqn:E.
  - split; [intros _|reflexivity].
    apply get_In in E. apply (in_map fst) in E. exact E.
  - apply get_None in E. split; [discriminate | tauto].
Qed.

Lemma mem_false (d : dict K V) k : mem d k = false <-> ~ In k (keys d).
Proof.
  rewrite <- mem_keys. destruct (mem d k); split; congruence.
Qed.

(** On a dictionary proper (no key twice) [get] finds every item. *)
Lemma In_get (d : dict K V) k v :
  NoDup (keys d) -> In (k, v) d -> get d k = Some v.
Proof.
  induction d as [|[k' v'] d IH]; simpl; [tauto|].
  intros N [E|I].
  - injection E as -> ->. now destruct (keqb_spec k k).
  - inversion N as [|? ? Hn Hd]; subst.
    destruct (keqb_spec k' k) as [->|Hne]; [|auto].
    exfalso. apply Hn. apply (in_map fst) in I. exact I.
Qed.

Lemma get_set (d : dict K V) k v k' :
  get (set d k v) k' = if keqb k k' then Some v else get d k'.
Proof.
  induction d as [|[k0 v0] d IH]; simpl.
  - reflexivity.
  - destruct (keqb_spec k0 k) as [->|Hne]; simpl.
    + destruct (keqb k k'); reflexivity.
    + rewrite IH. destruct (keqb_spec k0 k') as [->|Hne'].
      * destruct (keqb_spec k k'); [congruence | reflexivity].
      * reflexivity.
Qed.

Lemma get_set_same (d : dict K V) k v : get (set d k v) k = Some v.
Proof. rewrite get_set. now destruct (keqb_spec k k). Qed.

Lemma keys_set (d : dict K V) k v k' :
  In k' (keys (set d k v)) <-> k' = k \/ In k' (keys d).
Proof.
  rewrite <- !mem_keys. unfold mem. rewrite get_set.
  destruct (keqb_spec k k') as [->|Hne].
  - split; auto.
  - destruct (get d k'); split; auto.
    intros [E|E]; [congruence | discriminate].
Qed.

(** Assignment never duplicates a key. *)
Lemma set_NoDup (d : dict K V) k v :
  NoDup (keys d) -> NoDup (keys (set d k v)).
Proof.
  induction d as [|[k0 v0] d IH]; simpl; intros N.
  - constructor; [tauto | constructor].
  - destruct (keqb_spec k0 k) as [->|Hne]; simpl; [exact N|].
    inversion N as [|? ? Hn Hd]; subst. constructor; auto.
    change (~ In k0 (keys (set d k v))). rewrite keys_set.
    intros [E|I]; [congruence | tauto].
Qed.

End Laws.
End PyDictFacts.

(* ================================================================== *)
(** * Facts about agent/executor.py: the diff *)

Module DiffFacts.
Import PyDict PyDictFacts Executor.

(** What the first loop of [calculate_route_diff] has collected after the
    items [l], started from [(a, m)]. *)
Lemma diff_fold_keys (current : dict string string) (l : list (string * string)) :
  forall a m k,
    let r := fold_left (diff_step current) l (a, m) in
    (In k (keys (fst r)) <->
       In k (keys a) \/ (In k (map fst l) /\ ~ In k (keys current)))
    /\ (In k (keys (snd r)) <->
       In k (keys m) \/
       exists v w, In (k, v) l /\ get current k = Some w /\ w <> v).
Proof.
  induction l as [|[d n] l IH]; intros a m k; simpl.
  - split; [tauto|]. split; [tauto|]. intros [I|(v & w & [] & _)]. exact I.
  - assert (X : forall v, (d, n) = (k, v) \/ In (k, v) l <->
                         (d = k /\ n = v) \/ In (k, v) l).
    { intros v. split; (intros [E|I]; [left|now right]).
      - now injection E. - destruct E; congruence. }
    destruct (get current d) as [cur|] eqn:E.
    + destruct (String.eqb_spec cur n) as [->|Hne]; simpl.
      * destruct (IH a m k) as [IHa IHm]. rewrite IHa, IHm. clear IHa IHm IH.
        split.
        -- rewrite <- (get_None current k).
           split; [tauto|]. intros [I|[[Ed|I] N]]; auto. congruence.
        -- split; (intros [I|(v & w & I & G & D)]; [now left|]).
           ++ right. exists v, w. tauto.
           ++ apply X in I. destruct I as [[-> ->]|I]; [congruence|].
              right. exists v, w. tauto.
      * destruct (IH a (set m d n) k) as [IHa IHm].
        rewrite IHa, IHm, keys_set. clear IHa IHm IH. split.
        -- rewrite <- (get_None current k).
           split; [tauto|]. intros [I|[[Ed|I] N]]; auto. congruence.
        -- split.
           ++ intros [[->|I]|(v & w & I & G & D)].
              ** right. exists n, cur. auto.
              ** now left.
              ** right. exists v, w. tauto.
           ++ intros [I|(v & w & I & G & D)]; [left; now right|].
              apply X in I. destruct I as [[-> ->]|I]; [left; now left|].
              right. exists v, w. tauto.
    + destruct (IH (set a d n) m k) as [IHa IHm].
      rewrite IHa, IHm, keys_set. clear IHa IHm IH.
      apply get_None in E. split.
      * split.
        -- intros [[->|I]|[I N]]; auto.
        -- intros [I|[[Ed|I] N]]; subst; auto.
      * split; (intros [I|(v & w & I & G & D)]; [now left|]).
        -- right. exists v, w. tauto.
        -- apply X in I. destruct I as [[-> ->]|I].
           ++ apply get_None in E. congruence.
           ++ right. exists v, w. tauto.
Qed.

(** Every collected entry carries the next hop of an item of [l]. *)
Lemma diff_fold_values (current : dict string string) (l : list (string * string)) :
  forall a m k v,
    let r := fold_left (diff_step current) l (a, m) in
    (get (fst r) k = Some v -> get a k = Some v \/ In (k, v) l)
    /\ (get (snd r) k = Some v -> get m k = Some v \/ In (k, v) l).
Proof.
  induction l as [|[d n] l IH]; intros a m k v; simpl; [tauto|].
  assert (S : forall t : dict string string,
             get (set t d n) k = Some v ->
             get t k = Some v \/ (d, n) = (k, v)).
  { intros t G. rewrite get_set in G. cbn in G.
    destruct (String.eqb_spec d k) as [->|Hne]; [|now left].
    right. congruence. }
  destruct (get current d) as [cur|] eqn:E.
  - destruct (negb (String.eqb cur n)).
    + destruct (IH a (set m d n) k v) as [IHa IHm]. split.
      * intros G. destruct (IHa G); auto.
      * intros G. destruct (IHm G) as [G'|I]; auto.
        destruct (S _ G'); auto.
    + destruct (IH a m k v) as [IHa IHm]. split.
      * intros G. destruct (IHa G); auto.
      * intros G. destruct (IHm G); auto.
  - destruct (IH (set a d n) m k v) as [IHa IHm]. split.
    + intros G. destruct (IHa G) as [G'|I]; auto.
      destruct (S _ G'); auto.
    + intros G. destruct (IHm G); auto.
Qed.

Lemma delete_fold (desired : dict string string) (l : list string) :
  forall acc k,
    In k (fold_left (delete_step desired) l acc) <->
    In k acc \/ (In k l /\ ~ In k (keys desired)).
Proof.
  induction l as [|d l IH]; intros acc k; simpl; [tauto|].
  rewrite IH. unfold delete_step.
  destruct (mem desired d) eqn:E; simpl.
  - apply mem_keys in E. split; [tauto|].
    intros [I|[[->|I] N]]; tauto.
  - apply mem_false in E. rewrite in_app_iff. simpl. split.
    + intros [[I|[->|[]]]|[I N]]; auto.
    + intros [I|[[->|I] N]]; auto.
Qed.

(** C7.  For every pair of route tables, [calculate_route_diff] returns in
    ADD exactly the destinations of [desired] that [current] lacks, in
    MODIFY exactly the destinations present in both whose next hops differ,
    and in DELETE exactly the destinations of [current] that [desired]
    lacks; each ADD and MODIFY entry carries the desired next hop, and no
    destination is in two of the three collections. *)
Theorem calculate_route_diff_exact (desired current : dict string string) :
  let to_add := fst (fst (calculate_route_diff desired current)) in
  let to_modify := snd (fst (calculate_route_diff desired current)) in
  let to_delete := snd (calculate_route_diff desired current) in
  (forall k, In k (keys to_add) <->
             In k (keys desired) /\ ~ In k (keys current))
  /\ (forall k, In k (keys to_modify) <->
                exists v w, In (k, v) desired /\ get current k = Some w
                            /\ w <> v)
  /\ (forall k, In k to_delete <->
                In k (keys current) /\ ~ In k (keys desired))
  /\ (forall k v, get to_add k = Some v -> In (k, v) desired)
  /\ (forall k v, get to_modify k = Some v -> In (k, v) desired)
  /\ (forall k, ~ (In k (keys to_add) /\ In k (keys to_modify)))
  /\ (forall k, ~ (In k (keys to_add) /\ In k to_delete))
  /\ (forall k, ~ (In k (keys to_modify) /\ In k to_delete)).
Proof.
  unfold calculate_route_diff, items.
  destruct (fold_left (diff_step current) desired (empty, empty))
    as [a m] eqn:F. simpl.
  assert (KA : forall k, In k (keys a) <->
                         In k (keys desired) /\ ~ In k (keys current)).
  { intros k. pose proof (diff_fold_keys current desired empty empty k) as P.
    simpl in P. rewrite F in P. destruct P as [P _]. simpl in P.
    rewrite P. unfold keys. tauto. }
  assert (KM : forall k, In k (keys m) <->
                         exists v w, In (k, v) desired
                                     /\ get current k = Some w /\ w <> v).
  { intros k. pose proof (diff_fold_keys current desired empty empty k) as P.
    simpl in P. rewrite F in P. destruct P as [_ P]. simpl in P.
    rewrite P. tauto. }
  assert (KD : forall k, In k (fold_left (delete_step desired) (keys current) [])
                         <-> In k (keys current) /\ ~ In k (keys desired)).
  { intros k. rewrite delete_fold. simpl. tauto. }
  split; [exact KA|]. split; [exact KM|]. split; [exact KD|].
  split; [|split; [|split; [|split]]].
  - intros k v G.
    pose proof (diff_fold_values current desired empty empty k v) as P.
    simpl in P. rewrite F in P. destruct P as [P _].
    destruct (P G) as [A|A]; [discriminate | exact A].
  - intros k v G.
    pose proof (diff_fold_values current desired empty empty k v) as P.
    simpl in P. rewrite F in P. destruct P as [_ P].
    destruct (P G) as [A|A]; [discriminate | exact A].
  - intros k [A B]. apply KA in A. apply KM in B.
    destruct B as (v & w & _ & G & _). destruct A as [_ N].
    apply get_None in N. congruence.
  - intros k [A B]. apply KA in A. apply KD in B. tauto.
  - intros k [A B]. apply KM in A. apply KD in B.
    destruct A as (v & w & I & _). destruct B as [_ N].
    apply N. apply (in_map fst) in I. exact I.
Qed.

End DiffFacts.

(* ================================================================== *)
(** * Facts about agent/executor.py: applying routes *)

Module ExecutorFacts.
Import Models World PyDict Executor Scenarios ExecutorSpec.

(** A computation that only consults the executor and answers at once. *)
Lemma bind_run {A : Type} (env : Env) (command : list string)
    (k : proc_outcome -> IO A) (h : list event) :
  bind (run env command) k h
  = k (subprocess_run env h command) (h ++ [EvRun command]).
Proof. reflexivity. Qed.

Lemma generate_route_del_command_outside (self : Executor) (dst_ip : string) :
  _is_ip_in_allowed_subnet self dst_ip = false ->
  generate_route_del_command self dst_ip = None.
Proof. unfold generate_route_del_command. now intros ->. Qed.

Lemma generate_route_add_command_outside (self : Executor)
    (dst_ip next_hop : string) :
  _is_ip_in_allowed_subnet self dst_ip = false
  \/ _is_ip_in_allowed_subnet self next_hop = false ->
  generate_route_add_command self dst_ip next_hop = None.
Proof.
  unfold generate_route_add_command. intros [-> | ->]; [reflexivity|].
  now destruct (_is_ip_in_allowed_subnet self dst_ip).
Qed.

(** C6.  For every destination outside the allowed subnet, and for every
    next hop other than "direct" outside the allowed subnet, no route
    command is generated, [apply_route] answers [False], and the event
    history is left as it was: no forwarding-table command is issued. *)
Theorem apply_route_subnet_violation (env : Env) (self : Executor)
    (dst_ip next_hop : string) (h : list event) :
  _is_ip_in_allowed_subnet self dst_ip = false
  \/ (next_hop <> "direct"
      /\ _is_ip_in_allowed_subnet self next_hop = false) ->
  (next_hop = "direct" -> generate_route_del_command self dst_ip = None)
  /\ (next_hop <> "direct" ->
      generate_route_add_command self dst_ip next_hop = None)
  /\ apply_route env self dst_ip next_hop h = (Ok false, h).
Proof.
  intros V. unfold apply_route.
  destruct (String.eqb_spec next_hop "direct") as [->|Hne].
  - destruct V as [V|[N _]]; [|congruence].
    rewrite (generate_route_del_command_outside _ _ V).
    split; [reflexivity|]. split; [congruence | reflexivity].
  - assert (G : generate_route_add_command self dst_ip next_hop = None).
    { apply generate_route_add_command_outside. tauto. }
    rewrite G. split; [congruence|]. split; [reflexivity | reflexivity].
Qed.

Lemma apply_route_subnet_violation_witness :
  apply_route quiet_env wg0_executor "192.168.1.7" "direct" [] = (Ok false, [])
  /\ apply_route quiet_env wg0_executor "10.254.0.3" "8.8.8.8" []
     = (Ok false, []).
Proof.
  split.
  - apply (apply_route_subnet_violation quiet_env wg0_executor
             "192.168.1.7" "direct" []).
    left. reflexivity.
  - apply (apply_route_subnet_violation quiet_env wg0_executor
             "10.254.0.3" "8.8.8.8" []).
    right. split; [discriminate | reflexivity].
Defined.

(** Whatever [flush_all_routes] and [apply_route] run is a command one of
    the two generators produced, so it names only addresses inside the
    allowed subnet. *)
Lemma apply_route_commands (env : Env) (self : Executor)
    (dst_ip next_hop : string) (h : list event) :
  let h' := snd (apply_route env self dst_ip next_hop h) in
  h' = h
  \/ (h' = h ++ [EvRun ["ip"; "route"; "del"; (dst_ip ++ "/32")%string;
                        "dev"; wg_interface self]]
      /\ next_hop = "direct"
      /\ _is_ip_in_allowed_subnet self dst_ip = true)
  \/ (h' = h ++ [EvRun ["ip"; "route"; "replace"; (dst_ip ++ "/32")%string;
                        "via"; next_hop; "dev"; wg_interface self]]
      /\ _is_ip_in_allowed_subnet self dst_ip = true
      /\ _is_ip_in_allowed_subnet self next_hop = true).
Proof.
  unfold apply_route.
  destruct (String.eqb_spec next_hop "direct") as [->|Hne].
  - unfold generate_route_del_command.
    destruct (_is_ip_in_allowed_subnet self dst_ip) eqn:D; simpl;
      [|now left].
    rewrite bind_run. right. left.
    destruct (subprocess_run env h _); simpl; auto.
  - unfold generate_route_add_command.
    destruct (_is_ip_in_allowed_subnet self dst_ip) eqn:D; simpl;
      [|now left].
    destruct (_is_ip_in_allowed_subnet self next_hop) eqn:N; simpl;
      [|now left].
    rewrite bind_run. right. right.
    destruct (subprocess_run env h _); simpl; auto.
Qed.

(** C5, counterexample.  The kernel refuses the delete with exit status 2
    and "Operation not permitted"; [apply_route] still answers [True], so
    the destination is not marked failed. *)
Lemma apply_route_direct_ignores_exit_status :
  subprocess_run denied_env [] delete_command
  = Completed 2 "" "RTNETLINK answers: Operation not permitted"
  /\ apply_route denied_env wg0_executor "10.254.0.3" "direct" []
     = (Ok true, [EvRun delete_command]).
Proof. split; reflexivity. Qed.

(** C5, as the code has it.  For a destination inside the allowed subnet,
    [apply_route(dst, "direct")] issues exactly the delete of the host
    route; it answers [True] whenever the command ran to completion,
    whatever its exit status, and [False] when the command timed out or
    could not be run. *)
Theorem apply_route_direct (env : Env) (self : Executor) (dst_ip : string)
    (h : list event) :
  _is_ip_in_allowed_subnet self dst_ip = true ->
  let command := ["ip"; "route"; "del"; (dst_ip ++ "/32")%string;
                  "dev"; wg_interface self] in
  apply_route env self dst_ip "direct" h
  = (Ok match subprocess_run env h command with
        | Completed _ _ _ => true
        | TimeoutExpired => false
        | ProcRaises => false
        end,
     h ++ [EvRun command]).
Proof.
  intros D. unfold apply_route, generate_route_del_command. simpl.
  rewrite D. simpl. rewrite bind_run.
  destruct (subprocess_run env h _); reflexivity.
Qed.

Lemma apply_route_direct_witness :
  apply_route denied_env wg0_executor "10.254.0.3" "direct" []
  = (Ok true, [EvRun delete_command]).
Proof.
  apply (apply_route_direct denied_env wg0_executor "10.254.0.3" []).
  reflexivity.
Defined.

End ExecutorFacts.

(* ================================================================== *)
(** * Facts about agent/executor.py: the shapes of a listing line *)

Module ParseFacts.
Import PyDict PyStr Executor.

Lemma append_assoc (a b c : string) :
  ((a ++ b) ++ c = a ++ (b ++ c))%string.
Proof. induction a as [|x a IH]; simpl; [reflexivity | now rewrite IH]. Qed.

Lemma append_nil_r (a : string) : (a ++ "")%string = a.
Proof. induction a as [|x a IH]; simpl; [reflexivity | now rewrite IH]. Qed.

Lemma is_word_inv (w : string) :
  is_word w = true ->
  exists c w', w = String c w' /\ is_space c = false /\ no_space w' = true.
Proof.
  unfold is_word. destruct w as [|c w']; simpl; [discriminate|].
  rewrite andb_true_iff, negb_true_iff. intros [E N]. eauto.
Qed.

Lemma no_space_word (c : ascii) (w : string) :
  is_space c = false -> no_space w = true -> is_word (String c w) = true.
Proof. intros C N. unfold is_word. simpl. now rewrite C, N. Qed.

(** ** [split] *)

Lemma split_cons (c : ascii) (s' : string) :
  split (String c s')
  = if is_space c then split s'
    else match s' with
         | EmptyString => [String c EmptyString]
         | String c' _ =>
             if is_space c' then String c EmptyString :: split s'
             else match split s' with
                  | t :: ts => String c t :: ts
                  | [] => [String c EmptyString]
                  end
         end.
Proof. reflexivity. Qed.

Lemma split_word (w : string) : is_word w = true -> split w = [w].
Proof.
  intros W. destruct (is_word_inv w W) as (c & w' & -> & C & N). clear W.
  revert c C. induction w' as [|c' w' IH]; intros c C;
    rewrite split_cons, C.
  - reflexivity.
  - simpl in N. apply andb_true_iff in N. destruct N as [C' N].
    apply negb_true_iff in C'. rewrite C'.
    now rewrite (IH N c' C').
Qed.

Lemma split_word_space (w rest : string) :
  is_word w = true ->
  split (w ++ String " " rest) = w :: split rest.
Proof.
  intros W. destruct (is_word_inv w W) as (c & w' & -> & C & N). clear W.
  revert c C. induction w' as [|c' w' IH]; intros c C.
  - change (String c EmptyString ++ String " " rest)%string
      with (String c (String " " rest)).
    rewrite split_cons, C. reflexivity.
  - simpl in N. apply andb_true_iff in N. destruct N as [C' N].
    apply negb_true_iff in C'.
    change (String c (String c' w') ++ String " " rest)%string
      with (String c (String c' w' ++ String " " rest)%string).
    rewrite split_cons, C.
    change (String c' w' ++ String " " rest)%string
      with (String c' (w' ++ String " " rest)%string) at 1.
    cbv iota. rewrite C'.
    change (String c' (w' ++ String " " rest)%string)
      with (String c' w' ++ String " " rest)%string.
    now rewrite (IH N c' C').
Qed.

(** Whitespace splitting undoes joining words with single spaces. *)
Lemma split_join (words : list string) :
  Forall (fun w => is_word w = true) words -> split (join words) = words.
Proof.
  induction 1 as [|w words W F IH]; [reflexivity|].
  destruct words as [|w2 words].
  - simpl. now apply split_word.
  - change (join (w :: w2 :: words))
      with (w ++ String " " (join (w2 :: words)))%string.
    now rewrite (split_word_space _ _ W), IH.
Qed.

(** ** [strip] *)

Lemma rstrip_word (w : string) : is_word w = true -> rstrip w = w.
Proof.
  intros W. destruct (is_word_inv w W) as (c & w' & -> & C & N). clear W.
  revert c C. induction w' as [|c' w' IH]; intros c C.
  - simpl. now rewrite C.
  - simpl in N. apply andb_true_iff in N. destruct N as [C' N].
    apply negb_true_iff in C'.
    change (rstrip (String c (String c' w')))
      with (match rstrip (String c' w') with
            | EmptyString =>
                if is_space c then EmptyString else String c EmptyString
            | r => String c r
            end).
    now rewrite (IH N c' C').
Qed.

Lemma rstrip_app_word (a w : string) :
  is_word w = true -> rstrip (a ++ w) = (a ++ w)%string.
Proof.
  intros W. induction a as [|c a IH]; simpl.
  - now apply rstrip_word.
  - rewrite IH. destruct (a ++ w)%string eqn:E; [|reflexivity].
    exfalso. destruct (is_word_inv w W) as (c0 & w' & -> & _).
    destruct a; discriminate.
Qed.

(** A joined line ends with its last word. *)
Lemma join_last (words : list string) :
  forall w,
    Forall (fun w => is_word w = true) (w :: words) ->
    exists a last, join (w :: words) = (a ++ last)%string
                   /\ is_word last = true.
Proof.
  induction words as [|w2 words IH]; intros w F.
  - exists EmptyString, w. split; [reflexivity|]. now inversion F.
  - inversion F as [|? ? _ F2]; subst.
    destruct (IH w2 F2) as (a & last & E & WL).
    exists (w ++ String " " a)%string, last. split; [|exact WL].
    change (join (w :: w2 :: words))
      with (w ++ String " " (join (w2 :: words)))%string.
    rewrite E.
    change (String " " (a ++ last)) with (String " " a ++ last)%string.
    now rewrite append_assoc.
Qed.

Lemma rstrip_join (words : list string) :
  Forall (fun w => is_word w = true) words -> rstrip (join words) = join words.
Proof.
  intros F. destruct words as [|w words]; [reflexivity|].
  destruct (join_last words w F) as (a & last & -> & WL).
  now apply rstrip_app_word.
Qed.

Lemma lstrip_join (words : list string) :
  Forall (fun w => is_word w = true) words -> lstrip (join words) = join words.
Proof.
  intros F. destruct F as [|w words W F]; [reflexivity|].
  destruct (is_word_inv w W) as (c & w' & -> & C & _).
  destruct words; simpl; now rewrite C.
Qed.

Lemma strip_join (words : list string) :
  Forall (fun w => is_word w = true) words -> strip (join words) = join words.
Proof.
  intros F. unfold strip. now rewrite (lstrip_join _ F), (rstrip_join _ F).
Qed.

Lemma join_not_empty (w : string) (words : list string) :
  is_word w = true -> (join (w :: words) =? "")%string = false.
Proof.
  intros W. destruct (is_word_inv w W) as (c & w' & -> & _).
  destruct words; reflexivity.
Qed.

(** ** [in] on strings *)

Lemma prefix_app (x b : string) : String.prefix x (x ++ b) = true.
Proof.
  induction x as [|c x IH]; simpl; [now destruct b|].
  destruct (ascii_dec c c); [exact IH | congruence].
Qed.

Lemma str_in_eq (sub s : string) :
  str_in sub s
  = if String.prefix sub s then true
    else match s with
         | EmptyString => false
         | String _ s' => str_in sub s'
         end.
Proof. destruct s; reflexivity. Qed.

Lemma str_in_app (a x b : string) : str_in x (a ++ x ++ b) = true.
Proof.
  induction a as [|c a IH].
  - simpl. now rewrite str_in_eq, prefix_app.
  - rewrite str_in_eq.
    destruct (String.prefix x (String c a ++ x ++ b)); [reflexivity|].
    exact IH.
Qed.

(** A line mentions each of its words. *)
Lemma str_in_join (x : string) (words : list string) :
  In x words -> str_in x (join words) = true.
Proof.
  induction words as [|w words IH]; intros I; [destruct I|].
  destruct words as [|w2 words].
  - destruct I as [->|[]]. simpl.
    rewrite <- (append_nil_r x) at 2.
    apply (str_in_app EmptyString x EmptyString).
  - change (join (w :: w2 :: words))
      with (w ++ String " " (join (w2 :: words)))%string.
    destruct I as [->|I].
    + apply (str_in_app EmptyString x).
    + specialize (IH I).
      generalize dependent (join (w2 :: words)). intros j IH.
      clear I. induction w as [|c w IHw]; rewrite str_in_eq.
      * destruct (String.prefix x _); [reflexivity | exact IH].
      * destruct (String.prefix x _); [reflexivity | exact IHw].
Qed.

(** ** The destination field *)

Lemma host_route_ip_plain (dst : string) :
  str_in "/" dst = false -> host_route_ip dst = Some dst.
Proof. unfold host_route_ip. now intros ->. Qed.

Lemma endswith_eq (s suffix : string) :
  endswith s suffix
  = if String.eqb s suffix then true
    else match s with
         | EmptyString => false
         | String _ s' => endswith s' suffix
         end.
Proof. destruct s; reflexivity. Qed.

Lemma endswith_app (a suffix : string) : endswith (a ++ suffix) suffix = true.
Proof.
  induction a as [|c a IH]; rewrite endswith_eq.
  - simpl. now rewrite String.eqb_refl.
  - destruct (String.eqb (String c a ++ suffix) suffix);
      [reflexivity | exact IH].
Qed.

Lemma split_head_app (a rest : string) :
  str_in "/" a = false -> split_head "/" (a ++ String "/" rest) = a.
Proof.
  induction a as [|c a IH]; intros N; simpl; [reflexivity|].
  rewrite str_in_eq in N.
  destruct (Ascii.eqb_spec c "/") as [->|NE].
  - exfalso. simpl in N. destruct a; discriminate.
  - destruct (String.prefix "/" (String c a)); [discriminate|].
    now rewrite (IH N).
Qed.

(** A destination written with the suffix [/32] stands for its address. *)
Lemma host_route_ip_32 (ip : string) :
  str_in "/" ip = false -> host_route_ip (ip ++ "/32") = Some ip.
Proof.
  intros N. unfold host_route_ip.
  change (ip ++ "/32")%string with (ip ++ "/" ++ "32")%string at 1.
  rewrite (str_in_app ip "/" "32"), endswith_app.
  change (negb true) with false. cbv iota.
  change (ip ++ "/32")%string with (ip ++ String "/" "32")%string.
  now rewrite (split_head_app ip "32" N).
Qed.

(** A destination with any other prefix is no host route. *)
Lemma host_route_ip_other (dst : string) :
  str_in "/" dst = true -> endswith dst "/32" = false ->
  host_route_ip dst = None.
Proof. unfold host_route_ip. now intros -> ->. Qed.

(** ** The shapes of a line *)

(** A line of three words or more that mentions the interface is parsed
    from its words. *)
Lemma parse_line_words (self : Executor) (routes : dict string string)
    (dst w2 w3 : string) (more : list string) :
  let words := dst :: w2 :: w3 :: more in
  Forall (fun w => is_word w = true) words ->
  str_in (wg_interface self) (join words) = true ->
  parse_line self routes (join words)
  = match host_route_ip dst with
    | None => routes
    | Some dst_ip =>
        if list_in "via" words then
          if (list_index "via" words + 1 <? List.length words)%nat
          then set routes dst_ip (nth (list_index "via" words + 1) words "")
          else routes
        else set routes dst_ip "direct"
    end.
Proof.
  intros words F I. subst words. unfold parse_line.
  rewrite (strip_join _ F).
  assert (W : is_word dst = true) by now inversion F.
  rewrite (join_not_empty dst _ W), I, (split_join _ F).
  reflexivity.
Qed.

(** Shape (i): "D via H dev IFACE ..." maps the address of D to H. *)
Lemma parse_line_relay (self : Executor) (routes : dict string string)
    (dst next_hop dst_ip : string) (more : list string) :
  let words := dst :: "via" :: next_hop :: "dev" :: wg_interface self :: more in
  Forall (fun w => is_word w = true) words ->
  dst <> "via" ->
  host_route_ip dst = Some dst_ip ->
  parse_line self routes (join words) = set routes dst_ip next_hop.
Proof.
  intros words F NV H. subst words.
  rewrite (parse_line_words self routes dst "via" next_hop _ F).
  - rewrite H. unfold list_in. simpl.
    apply String.eqb_neq in NV. rewrite NV. simpl.
    rewrite ?orb_true_r. reflexivity.
  - apply str_in_join. simpl. auto 6.
Qed.

(** Shape (ii): "D dev IFACE ..." without "via" maps the address of D to
    "direct". *)
Lemma parse_line_direct (self : Executor) (routes : dict string string)
    (dst dst_ip : string) (more : list string) :
  let words := dst :: "dev" :: wg_interface self :: more in
  Forall (fun w => is_word w = true) words ->
  list_in "via" words = false ->
  host_route_ip dst = Some dst_ip ->
  parse_line self routes (join words) = set routes dst_ip "direct".
Proof.
  intros words F NV H. subst words.
  rewrite (parse_line_words self routes dst "dev" (wg_interface self) _ F).
  - now rewrite H, NV.
  - apply str_in_join. simpl. auto.
Qed.

(** A line whose destination has a prefix other than [/32] is skipped. *)
Lemma parse_line_not_host (self : Executor) (routes : dict string string)
    (dst w2 w3 : string) (more : list string) :
  Forall (fun w => is_word w = true) (dst :: w2 :: w3 :: more) ->
  str_in "/" dst = true -> endswith dst "/32" = false ->
  parse_line self routes (join (dst :: w2 :: w3 :: more)) = routes.
Proof.
  intros F S E. unfold parse_line.
  rewrite (strip_join _ F).
  assert (W : is_word dst = true) by now inversion F.
  rewrite (join_not_empty dst _ W), (split_join _ F).
  destruct (str_in (wg_interface self) _); [|reflexivity]. simpl.
  now rewrite (host_route_ip_other dst S E).
Qed.

(** A line that does not contain the interface name is skipped.  (The
    converse fails: the test looks for the name anywhere in the line.) *)
Lemma parse_line_without_interface (self : Executor)
    (routes : dict string string) (line : string) :
  str_in (wg_interface self) (strip line) = false ->
  parse_line self routes line = routes.
Proof.
  intros N. unfold parse_line. rewrite N.
  now destruct (String.eqb (strip line) "").
Qed.

End ParseFacts.

(* ================================================================== *)
(** * Facts about agent/executor.py: reading the routing table *)

Module ReadFacts.
Import Models World PyDict PyStr Executor Scenarios ExecutorSpec.

(** A failed listing (non-zero exit, timeout, any other exception) yields
    the empty map; the call returns normally and leaves the cached table
    alone. *)
Lemma get_current_routes_failure (env : Env) (self : Executor)
    (h : list event) :
  match subprocess_run env h listing_command with
  | Completed 0 _ _ => True
  | _ => get_current_routes env self h
         = (Ok (empty, self), h ++ [EvRun listing_command])
  end.
Proof.
  unfold get_current_routes. rewrite ExecutorFacts.bind_run.
  fold listing_command.
  destruct (subprocess_run env h listing_command) as [rc out err| |];
    try reflexivity.
  destruct rc; try exact I; reflexivity.
Qed.

(** A successful listing is parsed line by line. *)
Lemma get_current_routes_success (env : Env) (self : Executor)
    (h : list event) (out err : string) :
  subprocess_run env h listing_command = Completed 0 out err ->
  get_current_routes env self h
  = (Ok (fold_left (parse_line self) (splitlines out) empty,
         set_current_routes self
           (fold_left (parse_line self) (splitlines out) empty)),
     h ++ [EvRun listing_command]).
Proof.
  intros E. unfold get_current_routes. rewrite ExecutorFacts.bind_run.
  fold listing_command. rewrite E. reflexivity.
Qed.

Example parse_relay_line :
  parse_line wg0_executor empty "10.254.0.3 via 10.254.0.2 dev wg0"
  = [("10.254.0.3", "10.254.0.2")].
Proof. reflexivity. Qed.

Example parse_direct_line :
  parse_line wg0_executor empty "10.254.0.4 dev wg0 scope link"
  = [("10.254.0.4", "direct")].
Proof. reflexivity. Qed.

Example parse_suffixed_line :
  parse_line wg0_executor empty "10.254.0.5/32 via 10.254.0.2 dev wg0"
  = [("10.254.0.5", "10.254.0.2")].
Proof. reflexivity. Qed.

Example parse_subnet_line :
  parse_line wg0_executor empty
    "10.254.0.0/24 dev wg0 proto kernel scope link src 10.254.0.1"
  = [].
Proof. reflexivity. Qed.

Example parse_other_interface_line :
  parse_line wg0_executor empty "192.168.1.0/24 dev eth0 scope link" = [].
Proof. reflexivity. Qed.

(** The interface test of [parse_line] is [wg_interface in line], a test
    on substrings. *)
Example interface_test_is_substring :
  str_in "wg0" "10.254.0.9 dev wg01 scope link" = true.
Proof. reflexivity. Qed.

(** C9, failing input.  The overlay interface is [wg0]; the table holds a
    single host route, bound to another interface, [wg01].  The route is
    not ignored: it is read as a direct route of the overlay. *)
Theorem get_current_routes_keeps_other_interface :
  subprocess_run wg01_env [] listing_command
  = Completed 0 ("10.254.0.9 dev wg01 scope link" ++ LF) ""
  /\ fst (get_current_routes wg01_env wg0_executor [])
     = Ok ([("10.254.0.9", "direct")],
           set_current_routes wg0_executor [("10.254.0.9", "direct")]).
Proof. split; reflexivity. Qed.

End ReadFacts.

(* ================================================================== *)
(** * Facts about agent/client.py *)

Module ClientFacts.
Import Models World Client Scenarios ClientExtraSpec.

Lemma range_pos (n : Z) :
  (0 < n)%Z -> exists rest, range n = 0%Z :: rest.
Proof.
  intros P. unfold range.
  destruct (Z.to_nat n) as [|m] eqn:E; [lia|].
  simpl. eauto.
Qed.

(** [fetch_routes] makes one request and maps the answer to a value. *)
Lemma fetch_routes_run (env : Env) (self : ControllerClient)
    (agent_id : string) (h : list event) :
  fetch_routes env self agent_id h
  = (Ok match requests_get env h agent_id with
        | Response 200 (BodyRoutes routes) => Some routes
        | _ => None
        end,
     h ++ [EvGet agent_id]).
Proof.
  unfold fetch_routes, bind, http_get.
  destruct (requests_get env h agent_id) as [st body| | | |]; try reflexivity.
  destruct (st =? 200)%Z eqn:E.
  - apply Z.eqb_eq in E. subst st. destruct body; reflexivity.
  - destruct (st =? 404)%Z;
      (destruct st as [|p|p]; try reflexivity;
       do 8 (destruct p as [p|p|]; try reflexivity); discriminate).
Qed.

(** An attempt that answers a value ends the retry loop on the spot. *)
Lemma retry_attempts_loop_hit {A : Type} (self : ControllerClient)
    (operation : IO (option A)) (attempt : Z) (rest : list Z)
    (h h' : list event) (a : A) :
  operation h = (Ok (Some a), h') ->
  retry_attempts_loop self operation (attempt :: rest) h = (Ok a, h').
Proof.
  intros E. simpl. unfold bind, try_except. rewrite E. reflexivity.
Qed.

(** C10.  When a fetch attempt is answered 200 with an empty route list,
    the retry loop returns that list from the same attempt, whichever
    attempt it is: the only event added is the request itself (no backoff
    sleep, no further request) and nothing is raised; so
    [fetch_routes_with_retry] answers the empty list, not [None]. *)
Theorem fetch_routes_empty_list_is_success (env : Env)
    (self : ControllerClient) (agent_id : string) (h : list event) :
  requests_get env h agent_id = Response 200 (BodyRoutes []) ->
  (forall attempt rest,
      retry_attempts_loop self (fetch_routes env self agent_id)
                          (attempt :: rest) h
      = (Ok [], h ++ [EvGet agent_id]))
  /\ ((0 < retry_attempts self)%Z ->
      fetch_routes_with_retry env self agent_id h
      = (Ok (Some []), h ++ [EvGet agent_id])).
Proof.
  intros E.
  assert (F : fetch_routes env self agent_id h
              = (Ok (Some []), h ++ [EvGet agent_id])).
  { rewrite fetch_routes_run, E. reflexivity. }
  split.
  - intros attempt rest. now apply retry_attempts_loop_hit.
  - intros P. destruct (range_pos _ P) as [rest R].
    unfold fetch_routes_with_retry, _retry_with_backoff, try_except, bind.
    rewrite R, (retry_attempts_loop_hit self _ 0%Z rest h _ [] F).
    reflexivity.
Qed.

Lemma fetch_routes_empty_list_is_success_witness :
  fetch_routes_with_retry quiet_env default_client "10.254.0.1" []
  = (Ok (Some []), [EvGet "10.254.0.1"]).
Proof.
  apply (fetch_routes_empty_list_is_success quiet_env default_client
           "10.254.0.1" []); [reflexivity | reflexivity].
Defined.

(** With a backoff list that is not empty and holds no negative delay,
    the backoff before the next attempt is a sleep and nothing else. *)
Lemma backoff_delay_In (self : ControllerClient) (attempt : Z) :
  retry_backoff self <> [] ->
  nth_error (retry_backoff self)
            (Z.to_nat (Z.min attempt
                         (Z.of_nat (List.length (retry_backoff self)) - 1)))
  = Some (backoff_delay self attempt)
  /\ In (backoff_delay self attempt) (retry_backoff self).
Proof.
  intros NE. unfold backoff_delay.
  assert (L : (Z.to_nat (Z.min attempt
                           (Z.of_nat (List.length (retry_backoff self)) - 1))
               < List.length (retry_backoff self))%nat).
  { destruct (retry_backoff self) as [|d ds]; [congruence|].
    cbn [List.length]. lia. }
  split; [now apply nth_error_nth'|now apply nth_In].
Qed.

Lemma backoff_run (self : ControllerClient) (attempt : Z) (h : list event) :
  usable_backoff self ->
  match nth_error (retry_backoff self)
          (Z.to_nat (Z.min attempt
                       (Z.of_nat (List.length (retry_backoff self)) - 1))) with
  | Some delay => sleep delay
  | None => raise IndexError
  end h
  = (Ok tt, h ++ [EvSleep (backoff_delay self attempt)]).
Proof.
  intros [NE NN]. destruct (backoff_delay_In self attempt NE) as [E I].
  rewrite E. unfold sleep.
  rewrite Forall_forall in NN. specialize (NN _ I).
  destruct (Z.ltb_spec (backoff_delay self attempt) 0); [lia | reflexivity].
Qed.

(** One failed attempt of the loop: the backoff, then the next attempt. *)
Lemma retry_attempts_loop_miss {A : Type} (self : ControllerClient)
    (operation : IO (option A)) (attempt : Z) (rest : list Z)
    (h h' : list event) :
  usable_backoff self ->
  operation h = (Ok None, h') \/ (exists e, operation h = (Raise e, h')) ->
  retry_attempts_loop self operation (attempt :: rest) h
  = retry_attempts_loop self operation rest
      (h' ++ if (attempt <? retry_attempts self - 1)%Z
             then [EvSleep (backoff_delay self attempt)] else []).
Proof.
  intros U F. cbn [retry_attempts_loop].
  assert (T : try_except operation (fun _ => ret None) h = (Ok None, h')).
  { unfold try_except. destruct F as [->|[e ->]]; reflexivity. }
  unfold bind at 1. rewrite T.
  destruct (attempt <? retry_attempts self - 1)%Z.
  - unfold bind. destruct U as [NE NN].
    destruct (backoff_delay_In self attempt NE) as [E I]. rewrite E.
    unfold sleep. rewrite Forall_forall in NN. specialize (NN _ I).
    destruct (Z.ltb_spec (backoff_delay self attempt) 0); [lia | reflexivity].
  - unfold bind. simpl. now rewrite app_nil_r.
Qed.

(** An operation that answers [None] or raises, whatever the history,
    exhausts the retries. *)
Lemma retry_attempts_loop_exhausted {A : Type} (self : ControllerClient)
    (operation : IO (option A)) :
  usable_backoff self ->
  (forall h, fst (operation h) = Ok None
             \/ exists e, fst (operation h) = Raise e) ->
  forall attempts h,
    fst (retry_attempts_loop self operation attempts h) = Raise RetryExhausted.
Proof.
  intros U F attempts. induction attempts as [|attempt rest IH]; intros h.
  - reflexivity.
  - destruct (operation h) as [r h1] eqn:E.
    assert (N : operation h = (Ok None, h1)
                \/ exists e, operation h = (Raise e, h1)).
    { specialize (F h). rewrite E in F. simpl in F.
      destruct F as [->|[e ->]]; eauto. }
    rewrite (retry_attempts_loop_miss self operation attempt rest h h1 U N).
    apply IH.
Qed.

Lemma gets_app (h1 h2 : list event) : gets (h1 ++ h2) = gets h1 ++ gets h2.
Proof.
  induction h1 as [|e h1 IH]; simpl; [reflexivity|].
  destruct e; simpl; now rewrite IH.
Qed.

Lemma sleeps_app (h1 h2 : list event) :
  sleeps (h1 ++ h2) = sleeps h1 ++ sleeps h2.
Proof.
  induction h1 as [|e h1 IH]; simpl; [reflexivity|].
  destruct e; simpl; now rewrite IH.
Qed.

(** The events of a loop none of whose attempts succeeds. *)
Lemma fetch_loop_exhausted (env : Env) (self : ControllerClient)
    (agent_id : string) :
  usable_backoff self ->
  (forall h, failed_fetch (requests_get env h agent_id) = true) ->
  forall (attempts : list Z) (h : list event),
    retry_attempts_loop self (fetch_routes env self agent_id) attempts h
    = (Raise RetryExhausted,
       h ++ flat_map (fun a => EvGet agent_id
                               :: if (a <? retry_attempts self - 1)%Z
                                  then [EvSleep (backoff_delay self a)]
                                  else [])
                     attempts).
Proof.
  intros U F. induction attempts as [|a attempts IH]; intros h.
  - simpl. now rewrite app_nil_r.
  - rewrite (retry_attempts_loop_miss self _ a attempts h
               (h ++ [EvGet agent_id]) U).
    + rewrite IH. cbn [flat_map]. f_equal.
      rewrite <- !app_assoc. reflexivity.
    + left. rewrite fetch_routes_run. f_equal.
      specialize (F h). unfold failed_fetch in F.
      destruct (requests_get env h agent_id) as [st body| | | |];
        try reflexivity.
      destruct st as [|p|p]; try reflexivity.
      do 8 (destruct p as [p|p|]; try reflexivity).
      destruct body; try reflexivity; discriminate.
Qed.

Lemma range_succ (n : nat) :
  range (Z.of_nat (S n)) = range (Z.of_nat n) ++ [Z.of_nat n].
Proof.
  unfold range. rewrite !Nat2Z.id, seq_S, map_app. reflexivity.
Qed.

Lemma range_bound (n : Z) (a : Z) : In a (range n) -> (0 <= a < n)%Z.
Proof.
  unfold range. rewrite in_map_iff. intros (k & <- & I).
  apply in_seq in I. lia.
Qed.

Lemma range_length (n : Z) : List.length (range n) = Z.to_nat n.
Proof. unfold range. now rewrite length_map, length_seq. Qed.

Lemma filter_all {A : Type} (f : A -> bool) (l : list A) :
  (forall a, In a l -> f a = true) -> filter f l = l.
Proof.
  induction l as [|a l IH]; intros F; simpl; [reflexivity|].
  rewrite (F a (or_introl eq_refl)), IH; [reflexivity|].
  intros b I. apply F. now right.
Qed.

(** The attempts of [range(n)] followed by a backoff: all but the last. *)
Lemma range_but_last (n : Z) :
  filter (fun a => (a <? n - 1)%Z) (range n) = range (n - 1).
Proof.
  destruct (Z_le_gt_dec n 0) as [L|G].
  - unfold range. replace (Z.to_nat n) with 0 by lia.
    replace (Z.to_nat (n - 1)) with 0 by lia. reflexivity.
  - remember (Z.to_nat (n - 1)) as m eqn:Em.
    assert (E : n = Z.of_nat (S m)) by lia. clear Em G. subst n.
    replace (Z.of_nat (S m) - 1)%Z with (Z.of_nat m) by lia.
    rewrite range_succ, filter_app. cbn [filter].
    rewrite Z.ltb_irrefl, app_nil_r.
    apply filter_all. intros a I. apply range_bound in I.
    apply Z.ltb_lt. lia.
Qed.

Lemma exhausted_gets (self : ControllerClient) (agent_id : string)
    (attempts : list Z) :
  gets (flat_map (fun a => EvGet agent_id
                           :: if (a <? retry_attempts self - 1)%Z
                              then [EvSleep (backoff_delay self a)]
                              else [])
                 attempts)
  = repeat agent_id (List.length attempts).
Proof.
  induction attempts as [|a attempts IH]; [reflexivity|].
  cbn [flat_map List.length repeat app gets]. rewrite gets_app, IH.
  destruct (a <? retry_attempts self - 1)%Z; reflexivity.
Qed.

Lemma exhausted_sleeps (self : ControllerClient) (agent_id : string)
    (attempts : list Z) :
  sleeps (flat_map (fun a => EvGet agent_id
                             :: if (a <? retry_attempts self - 1)%Z
                                then [EvSleep (backoff_delay self a)]
                                else [])
                   attempts)
  = map (backoff_delay self)
        (filter (fun a => (a <? retry_attempts self - 1)%Z) attempts).
Proof.
  induction attempts as [|a attempts IH]; [reflexivity|].
  cbn [flat_map filter app sleeps]. rewrite sleeps_app, IH.
  destruct (a <? retry_attempts self - 1)%Z; reflexivity.
Qed.

(** Whatever the operation does, the loop ends with a result or with
    [RetryExhausted]. *)
Lemma retry_attempts_loop_outcome {A : Type} (self : ControllerClient)
    (operation : IO (option A)) (attempts : list Z) (h : list event) :
  usable_backoff self ->
  match fst (retry_attempts_loop self operation attempts h) with
  | Ok _ => True
  | Raise e => e = RetryExhausted
  end.
Proof.
  intros U. revert h. induction attempts as [|attempt rest IH]; intros h.
  - reflexivity.
  - destruct (operation h) as [[[a|]|e] h1] eqn:E.
    + rewrite (retry_attempts_loop_hit self operation attempt rest h h1 a E).
      exact I.
    + rewrite (retry_attempts_loop_miss self operation attempt rest h h1 U);
        [apply IH | now left].
    + rewrite (retry_attempts_loop_miss self operation attempt rest h h1 U);
        [apply IH | right; now exists e].
Qed.

(** When no fetch is answered by a 200 with a valid route list, the
    wrapper answers [None] after the attempts and their backoffs. *)
Lemma fetch_routes_with_retry_trace (env : Env) (self : ControllerClient)
    (agent_id : string) (h : list event) :
  usable_backoff self ->
  (forall h', failed_fetch (requests_get env h' agent_id) = true) ->
  fetch_routes_with_retry env self agent_id h
  = (Ok None,
     h ++ flat_map (fun a => EvGet agent_id
                             :: if (a <? retry_attempts self - 1)%Z
                                then [EvSleep (backoff_delay self a)]
                                else [])
                   (range (retry_attempts self))).
Proof.
  intros U F.
  unfold fetch_routes_with_retry, _retry_with_backoff, try_except.
  unfold bind at 1. rewrite (fetch_loop_exhausted env self agent_id U F).
  reflexivity.
Qed.

(** A fetch answered 404 yields [None] after the one request. *)
Lemma fetch_routes_404 (env : Env) (self : ControllerClient)
    (agent_id : string) (h : list event) (body : http_body) :
  requests_get env h agent_id = Response 404 body ->
  fetch_routes env self agent_id h = (Ok None, h ++ [EvGet agent_id]).
Proof. intros E. rewrite fetch_routes_run, E. reflexivity. Qed.

(** When every fetch is answered 404 the retries are exhausted and
    [fetch_routes_with_retry] yields [None]. *)
Lemma fetch_routes_with_retry_404 (env : Env) (self : ControllerClient)
    (agent_id : string) :
  usable_backoff self ->
  (forall h, exists body, requests_get env h agent_id = Response 404 body) ->
  forall h, fst (fetch_routes_with_retry env self agent_id h) = Ok None.
Proof.
  intros U F h.
  rewrite (fetch_routes_with_retry_trace env self agent_id h U);
    [reflexivity|].
  intros h'. destruct (F h') as [body E]. now rewrite E.
Qed.

(** With the default three attempts and backoff [1, 2, 4]: three requests,
    two sleeps, [None]. *)
Example fetch_routes_with_retry_unknown_agent :
  fetch_routes_with_retry unknown_agent_env default_client "10.254.0.1" []
  = (Ok None,
     [EvGet "10.254.0.1"; EvSleep 1; EvGet "10.254.0.1"; EvSleep 2;
      EvGet "10.254.0.1"]).
Proof. reflexivity. Qed.

(** A report accepted with 200 at the first attempt is a success. *)
Lemma send_telemetry_with_retry_ok (env : Env) (self : ControllerClient)
    (telemetry : TelemetryRequest) (h : list event) (body : http_body) :
  (0 < retry_attempts self)%Z ->
  requests_post env h telemetry = Response 200 body ->
  send_telemetry_with_retry env self telemetry h
  = (Ok true, h ++ [EvPost telemetry]).
Proof.
  intros P E. destruct (range_pos _ P) as [rest R].
  unfold send_telemetry_with_retry, _retry_with_backoff, try_except.
  rewrite R.
  assert (O : (bind (send_telemetry env self telemetry)
                    (fun success => ret (if success then Some true else None)))
              h = (Ok (Some true), h ++ [EvPost telemetry])).
  { cbv beta delta [bind send_telemetry post]. rewrite E. reflexivity. }
  rewrite (retry_attempts_loop_hit self _ 0%Z rest h _ true O).
  reflexivity.
Qed.

End ClientFacts.

(* ================================================================== *)
(** * Facts about agent/main.py *)

Module AgentFacts.
Import Models World Executor Client Agent Scenarios ExecutorSpec AgentSpec.

(** Route commands never raise: each of the executor's operations returns
    normally. *)
Lemma apply_route_returns (env : Env) (self : Executor.Executor)
    (dst_ip next_hop : string) (h : list event) :
  exists b, fst (apply_route env self dst_ip next_hop h) = Ok b.
Proof.
  unfold apply_route.
  destruct (String.eqb next_hop "direct").
  - destruct (generate_route_del_command self dst_ip); [|now exists false].
    rewrite ExecutorFacts.bind_run.
    destruct (subprocess_run env h l); simpl; eauto.
  - destruct (generate_route_add_command self dst_ip next_hop);
      [|now exists false].
    rewrite ExecutorFacts.bind_run.
    destruct (subprocess_run env h l); simpl; eauto.
Qed.

Lemma apply_each_returns (env : Env) (self : Executor.Executor)
    (items : list (string * string)) :
  forall success h,
    exists b, fst (apply_each env self items success h) = Ok b.
Proof.
  induction items as [|[d n] items IH]; intros success h; simpl.
  - now exists success.
  - unfold bind.
    destruct (apply_route_returns env self d n h) as [b B].
    destruct (apply_route env self d n h) as [r h1]. simpl in B. subst r.
    apply IH.
Qed.

Lemma get_current_routes_returns (env : Env) (self : Executor.Executor)
    (h : list event) :
  exists routes, get_current_routes env self h
                 = (Ok routes, h ++ [EvRun listing_command]).
Proof.
  unfold get_current_routes. rewrite ExecutorFacts.bind_run.
  fold listing_command.
  destruct (subprocess_run env h listing_command) as [rc ? ?| |];
    try (eexists; reflexivity).
  destruct (rc =? 0)%Z; eexists; reflexivity.
Qed.

Lemma flush_all_routes_returns (env : Env) (self : Executor.Executor)
    (h : list event) :
  exists r, fst (flush_all_routes env self h) = Ok r.
Proof.
  unfold flush_all_routes. unfold bind at 1.
  destruct (get_current_routes_returns env self h) as [[routes e] G].
  rewrite G.
  destruct (PyDict.is_empty routes); [simpl; eauto|].
  unfold bind.
  destruct (apply_each_returns env e
              (map (fun dst_ip => (dst_ip, "direct")) (PyDict.keys routes))
              true (h ++ [EvRun listing_command])) as [b B].
  destruct (apply_each env e _ true _) as [r h1]. simpl in B. subst r.
  simpl. eauto.
Qed.

(** Entering fallback always returns, with the flag set. *)
Lemma enter_fallback_sets_flag (env : Env) (s : Agent * list event) :
  exists s', _enter_fallback_mode env s = (Ok tt, s')
             /\ in_fallback_mode (state (fst s')) = true
             /\ config (fst s') = config (fst s).
Proof.
  destruct s as [a h].
  unfold _enter_fallback_mode, is_in_fallback_mode, get_self.
  cbv beta delta [bind]. simpl.
  destruct (in_fallback_mode (state a)) eqn:F; simpl.
  - exists (a, h). auto.
  - unfold set_fallback_mode, get_self, put_state, io.
    cbv beta delta [bind]. simpl. rewrite F. simpl.
    destruct (flush_all_routes_returns env (executor a) h) as [[b e] R].
    destruct (flush_all_routes env (executor a) h) as [r h1].
    simpl in R. subst r. simpl.
    eexists. split; [reflexivity|]. simpl. auto.
Qed.

(** The method the sync cycle calls does not exist. *)
Lemma sync_routes_not_defined : hasattr "sync_routes" = false.
Proof. reflexivity. Qed.

(** C1, failing input.  For every route list handed to it, the call
    [self.executor.sync_routes(routes)] raises [AttributeError] and leaves
    the store as it was.  In a cycle of [agent0] whose report is accepted
    and whose fetch returns one relay route, the loop's handler swallows
    the exception: the history holds the report, the fetch and the sleep,
    and no forwarding-table command, neither a listing nor a replace. *)
Theorem sync_cycle_applies_nothing :
  (forall env routes s,
      call_sync_routes env routes s = (Raise (AttributeError "sync_routes"), s))
  /\ executor_loop_body one_route_env (agent0, [])
     = (Ok tt, (agent0, [EvPost report0; EvGet "10.254.0.1"; EvSleep 10]))
  /\ commands [EvPost report0; EvGet "10.254.0.1"; EvSleep 10] = [].
Proof.
  split; [|split]; reflexivity.
Qed.

(** What the unreachable statements would do on the same input, were they
    a method: list the table, then install the relay route. *)
Example unreachable_sync_body_relay :
  snd (unreachable_sync_body quiet_env wg0_executor [relay_route] [])
  = [EvRun ["ip"; "route"; "show"; "table"; "main"];
     EvRun ["ip"; "route"; "replace"; "10.254.0.3/32"; "via"; "10.254.0.2";
            "dev"; "wg0"]].
Proof. reflexivity. Qed.

(** C2, counterexample.  The report of [agent0] is accepted; the
    controller answers every fetch with 404 and nothing else goes wrong.
    After the three attempts the agent is in fallback mode and has listed
    the routing table to flush it. *)
Lemma fallback_entered_on_404 :
  executor_loop_body unknown_agent_env (agent0, [])
  = (Ok tt,
     ({| config := config agent0;
         state := {| latest_metrics := Some [one_metric];
                     in_fallback_mode := true |};
         prober := prober agent0;
         executor := executor agent0;
         client := client agent0 |},
      [EvPost report0;
       EvGet "10.254.0.1"; EvSleep 1; EvGet "10.254.0.1"; EvSleep 2;
       EvGet "10.254.0.1";
       EvRun ["ip"; "route"; "show"; "table"; "main"];
       EvSleep 10])).
Proof. reflexivity. Qed.

End AgentFacts.

(* ================================================================== *)
(** * Facts about agent/main.py: a fetch answered 404 *)

Module FallbackFacts.
Import Models World Executor Client Agent Scenarios AgentSpec AgentFacts
       ClientExtraSpec.

Lemma io_run {A : Type} (c : IO A) (a : Agent) (h : list event) :
  io c (a, h) = (fst (c h), (a, snd (c h))).
Proof. unfold io. simpl. now destruct (c h). Qed.

(** A sleep of a delay that is not negative. *)
Lemma sleep_run (seconds : Z) (h : list event) :
  (0 <= seconds)%Z -> sleep seconds h = (Ok tt, h ++ [EvSleep seconds]).
Proof.
  intros P. unfold sleep.
  destruct (Z.ltb_spec seconds 0); [lia | reflexivity].
Qed.

Lemma io_sleep (seconds : Z) (a : Agent) (h : list event) :
  (0 <= seconds)%Z ->
  io (sleep seconds) (a, h) = (Ok tt, (a, h ++ [EvSleep seconds])).
Proof. intros P. rewrite io_run, (sleep_run seconds h P). reflexivity. Qed.

Lemma bind_ok {S A B : Type} (c : M S A) (k : A -> M S B) (s s' : S) (x : A) :
  c s = (Ok x, s') -> bind c k s = k x s'.
Proof. intros E. unfold bind. now rewrite E. Qed.

Lemma try_except_ok {S A : Type} (c : M S A) (handler : exn -> M S A)
    (s s' : S) (x : A) :
  c s = (Ok x, s') -> try_except c handler s = (Ok x, s').
Proof. intros E. unfold try_except. now rewrite E. Qed.

(** After a successful report the flag is cleared if it was set. *)
Lemma leave_fallback (a : Agent) (h : list event) :
  exists a1,
    bind is_in_fallback_mode
         (fun fallback =>
            bind (if fallback then _exit_fallback_mode else ret tt)
                 (fun _ => ret FallThrough)) (a, h)
    = (Ok FallThrough, (a1, h))
    /\ config a1 = config a.
Proof.
  exists (if in_fallback_mode (state a) then recovered a else a).
  destruct a as [cfg [lm fb] pr ex cl]. destruct fb; split; reflexivity.
Qed.

(** C2, as the code has it.  When the controller answers a fetch with 404,
    [fetch_routes] answers [None] after that one request.  The retry
    wrapper counts the [None] as a failed attempt and retries with
    backoff: when every attempt is answered 404, it has sent
    [retry_attempts] requests, has slept
    [retry_backoff[min(attempt, len - 1)]] after each of them but the
    last, and answers [None] as well; and a sync cycle whose report was
    accepted ends with the agent in fallback mode.  The backoff list is
    not empty, and its delays and the sync interval are delays
    [time.sleep] accepts. *)
Theorem fetch_404_enters_fallback (env : Env) (a : Agent) (h : list event)
    (metrics : list Metric) :
  latest_metrics (state a) = Some metrics ->
  metrics <> [] ->
  (0 < now env h)%Z ->
  (0 < retry_attempts (client a))%Z ->
  retry_backoff (client a) <> [] ->
  Forall sleepable (retry_backoff (client a)) ->
  sleepable (sync_interval (config a)) ->
  (exists body,
      requests_post env h {| Models.agent_id := agent_id (config a);
                             timestamp := now env h;
                             Models.metrics := metrics |}
      = Response 200 body) ->
  (forall h', exists body,
        requests_get env h' (agent_id (config a)) = Response 404 body) ->
  (forall h', fetch_routes env (client a) (agent_id (config a)) h'
              = (Ok None, h' ++ [EvGet (agent_id (config a))]))
  /\ (forall h', exists added,
        fetch_routes_with_retry env (client a) (agent_id (config a)) h'
        = (Ok None, h' ++ added)
        /\ added
           = flat_map (fun attempt =>
                         EvGet (agent_id (config a))
                         :: if (attempt <? retry_attempts (client a) - 1)%Z
                            then [EvSleep (backoff_delay (client a) attempt)]
                            else [])
                      (range (retry_attempts (client a)))
        /\ gets added = repeat (agent_id (config a))
                               (Z.to_nat (retry_attempts (client a)))
        /\ sleeps added
           = map (backoff_delay (client a))
                 (range (retry_attempts (client a) - 1)))
  /\ exists a' h',
      executor_loop_body env (a, h) = (Ok tt, (a', h'))
      /\ in_fallback_mode (state a') = true.
Proof.
  intros LM NE TS RA BNE BS [SI _] [body P] G.
  assert (U : usable_backoff (client a)).
  { split; [exact BNE|]. revert BS. apply Forall_impl.
    unfold sleepable. intros d D. lia. }
  assert (FF : forall h', failed_fetch
                            (requests_get env h' (agent_id (config a)))
                          = true).
  { intros h'. destruct (G h') as [b E]. now rewrite E. }
  assert (F404 : forall h', fst (fetch_routes_with_retry env (client a)
                                   (agent_id (config a)) h') = Ok None).
  { apply ClientFacts.fetch_routes_with_retry_404; [exact U | exact G]. }
  split.
  { intros h'. destruct (G h') as [b E].
    exact (ClientFacts.fetch_routes_404 env (client a) _ h' b E). }
  split.
  { intros h'. eexists. split; [|split; [reflexivity|]].
    - apply (ClientFacts.fetch_routes_with_retry_trace env (client a) _ h'
               U FF).
    - rewrite ClientFacts.exhausted_gets, ClientFacts.exhausted_sleeps,
        ClientFacts.range_length, ClientFacts.range_but_last.
      split; reflexivity. }
  set (telemetry := {| Models.agent_id := agent_id (config a);
                       timestamp := now env h;
                       Models.metrics := metrics |}) in *.
  (* the report is sent and accepted *)
  destruct (leave_fallback a (h ++ [EvPost telemetry])) as (a1 & L & C1).
  (* the fetch is exhausted *)
  set (h1 := h ++ [EvPost telemetry]) in *.
  destruct (fetch_routes_with_retry env (client a) (agent_id (config a)) h1)
    as [r h2] eqn:FR.
  assert (R : r = Ok None) by (specialize (F404 h1); now rewrite FR in F404).
  subst r.
  (* fallback is entered *)
  destruct (enter_fallback_sets_flag env (a1, h2)) as ([a2 h3] & E & Fl & C2).
  simpl in Fl, C2.
  exists a2, (h3 ++ [EvSleep (sync_interval (config a))]).
  split; [|exact Fl].
  unfold executor_loop_body.
  apply try_except_ok.
  rewrite (bind_ok _ _ (a, h) (a, h) (Some metrics));
    [|unfold get_metrics, get_self, bind, ret; simpl; now rewrite LM].
  rewrite (bind_ok _ _ (a, h) (a, h) a); [|reflexivity].
  cbv beta iota.
  rewrite (bind_ok _ _ (a, h) (a, h) (World.now env h)); [|reflexivity].
  fold telemetry.
  assert (V : valid_TelemetryRequest telemetry = true).
  { unfold valid_TelemetryRequest, telemetry. simpl.
    apply Z.ltb_lt in TS. rewrite TS.
    destruct metrics; [congruence | reflexivity]. }
  rewrite V. change (negb true) with false. cbv iota.
  rewrite (bind_ok _ _ (a, h) (a1, h1) FallThrough).
  2:{ apply try_except_ok.
      rewrite (bind_ok _ _ (a, h) (a, h1) true).
      - exact L.
      - rewrite io_run.
        now rewrite (ClientFacts.send_telemetry_with_retry_ok
                       env (client a) telemetry h body RA P). }
  rewrite (bind_ok _ _ (a1, h1) (a2, h3 ++ [EvSleep (sync_interval (config a))])
             Continue); [reflexivity|].
  apply try_except_ok.
  rewrite (bind_ok _ _ (a1, h1) (a1, h2) None);
    [|now rewrite io_run, FR].
  rewrite (bind_ok _ _ (a1, h2) (a2, h3) tt); [|exact E].
  rewrite (bind_ok _ _ (a2, h3) (a2, h3 ++ [EvSleep (sync_interval (config a))])
             tt); [reflexivity | now apply io_sleep].
Qed.

Lemma fetch_404_enters_fallback_witness :
  exists a' h',
    executor_loop_body unknown_agent_env (agent0, []) = (Ok tt, (a', h'))
    /\ in_fallback_mode (state a') = true.
Proof.
  apply (fetch_404_enters_fallback unknown_agent_env agent0 [] [one_metric]).
  - reflexivity.
  - discriminate.
  - reflexivity.
  - reflexivity.
  - discriminate.
  - repeat constructor; discriminate.
  - split; discriminate.
  - exists BodyWithoutRoutes. reflexivity.
  - intros h'. exists BodyWithoutRoutes. reflexivity.
Defined.

End FallbackFacts.

(* ================================================================== *)
(** * Facts about floats *)

Module FloatFacts.

Lemma Prim2SF_infinity : Prim2SF infinity = S754_infinity false.
Proof. reflexivity. Qed.

Lemma Prim2SF_zero : Prim2SF 0 = S754_zero false.
Proof. reflexivity. Qed.

(** A finite value is not the positive infinity. *)
Lemma finite_not_infinity (c : float) :
  is_finite c = true -> (c =? infinity)%float = false.
Proof.
  unfold is_finite, is_nan, is_infinity.
  rewrite !FloatAxioms.eqb_spec, FloatAxioms.abs_spec, Prim2SF_infinity.
  destruct (Prim2SF c) as [[]|[]| |[] m e]; simpl; intros E;
    try reflexivity; discriminate.
Qed.

(** A finite value is below the positive infinity. *)
Lemma finite_lt_infinity (c : float) :
  is_finite c = true -> (c <? infinity)%float = true.
Proof.
  unfold is_finite, is_nan, is_infinity.
  rewrite FloatAxioms.ltb_spec, !FloatAxioms.eqb_spec, FloatAxioms.abs_spec, Prim2SF_infinity.
  destruct (Prim2SF c) as [[]|[]| |[] m e]; simpl; intros E;
    try reflexivity; discriminate.
Qed.

(** The positive infinity times a positive factor is the positive
    infinity. *)
Lemma infinity_mul_pos (x : float) :
  (0 <? x)%float = true -> (infinity * x)%float = infinity.
Proof.
  intros P. apply Prim2SF_inj.
  rewrite FloatAxioms.mul_spec, Prim2SF_infinity.
  rewrite FloatAxioms.ltb_spec, Prim2SF_zero in P.
  destruct (Prim2SF x) as [[]|[]| |[] m e]; simpl in P;
    try discriminate; reflexivity.
Qed.

End FloatFacts.

(* ================================================================== *)
(** * Facts about controller/solver.py: the emitted routes *)

Module SolverFacts.
Import Models PyDict PyDictFacts Solver SolverSpec.

Lemma list_in_In (x : string) (l : list string) :
  PyStr.list_in x l = true <-> In x l.
Proof.
  unfold PyStr.list_in. rewrite existsb_exists. split.
  - intros (y & I & E). apply String.eqb_eq in E. now subst.
  - intros I. exists x. split; [exact I | apply String.eqb_refl].
Qed.

Lemma list_in_false (x : string) (l : list string) :
  PyStr.list_in x l = false <-> ~ In x l.
Proof.
  rewrite <- list_in_In. destruct (PyStr.list_in x l); split; congruence.
Qed.

Lemma length_append (a b : string) :
  String.length (a ++ b) = String.length a + String.length b.
Proof. induction a as [|c a IH]; simpl; [reflexivity | now rewrite IH]. Qed.

(** [f"{t}/32"] determines [t]. *)
Lemma append_inv_tail (a b suffix : string) :
  (a ++ suffix = b ++ suffix)%string -> a = b.
Proof.
  revert b. induction a as [|c a IH]; intros [|d b] E; simpl in E.
  - reflexivity.
  - apply (f_equal String.length) in E. simpl in E.
    rewrite length_append in E. lia.
  - apply (f_equal String.length) in E. simpl in E.
    rewrite length_append in E. lia.
  - injection E as -> E. f_equal. now apply IH.
Qed.

(** ** The graph *)

Lemma add_node_nodes (G : DiGraph) (n x : string) :
  In x (nodes (add_node G n)) <-> x = n \/ In x (nodes G).
Proof.
  unfold add_node. destruct (PyStr.list_in n (nodes G)) eqn:E; simpl.
  - apply list_in_In in E. split; [tauto|]. intros [->|I]; auto.
  - rewrite in_app_iff. simpl. split; [intros [I|[->|[]]]; auto | ].
    intros [->|I]; auto.
Qed.

Lemma add_node_NoDup (G : DiGraph) (n : string) :
  NoDup (nodes G) -> NoDup (nodes (add_node G n)).
Proof.
  intros N. unfold add_node.
  destruct (PyStr.list_in n (nodes G)) eqn:E; simpl; [exact N|].
  apply list_in_false in E.
  apply NoDup_rev in N. rewrite <- (rev_involutive (nodes G ++ [n])).
  apply NoDup_rev. rewrite rev_app_distr. simpl.
  constructor; [|exact N]. now rewrite <- in_rev.
Qed.

Lemma add_edge_NoDup (G : DiGraph) (u v : string) (w : float) :
  NoDup (nodes G) -> NoDup (nodes (add_edge G u v w)).
Proof.
  intros N. unfold add_edge. simpl. now apply add_node_NoDup, add_node_NoDup.
Qed.

Lemma fold_NoDup {A : Type} (f : DiGraph -> A -> DiGraph) (l : list A) :
  (forall G x, NoDup (nodes G) -> NoDup (nodes (f G x))) ->
  forall G, NoDup (nodes G) -> NoDup (nodes (fold_left f l G)).
Proof.
  intros F. induction l as [|x l IH]; intros G N; simpl; auto.
Qed.

(** The nodes of the graph are pairwise distinct, as the keys of the
    [networkx] node dictionary are. *)
Lemma build_graph_NoDup (self : RouteSolver)
    (topology_data : dict string AgentData) :
  NoDup (nodes (build_graph self topology_data)).
Proof.
  unfold build_graph. apply fold_NoDup.
  - intros G [source data] N. unfold add_links.
    apply fold_NoDup; [|exact N].
    intros G' [target md] N'. unfold add_link. now apply add_edge_NoDup.
  - apply fold_NoDup; [|constructor].
    intros G x N. now apply add_node_NoDup.
Qed.

(** ** What an emitted route looks like *)

Lemma visit_target_emitted (nx : Networkx) (G : DiGraph)
    (source_agent : string) (acc : list RouteConfig * RouteSolver)
    (target : string) :
  In target (nodes G) ->
  Forall (emitted_for nx G source_agent) (fst acc) ->
  Forall (emitted_for nx G source_agent)
         (fst (visit_target nx G source_agent acc target)).
Proof.
  intros I F. destruct acc as [routes self]. unfold visit_target.
  destruct (String.eqb_spec target source_agent) as [E|NE]; [exact F|].
  destruct (shortest_path nx G source_agent target) as [path| |] eqn:SP;
    try exact F.
  destruct (shortest_path_length nx G source_agent target) as [c| |] eqn:SL;
    try exact F.
  destruct (c =? infinity)%float eqn:INF; [exact F|].
  destruct (significantly_better self c _); [|exact F].
  destruct (path_len path =? 1)%nat eqn:L1; [exact F|].
  apply Nat.eqb_neq in L1.
  destruct (path_len path =? 2)%nat eqn:L2; simpl in *.
  - apply Nat.eqb_eq in L2. apply Forall_app. split; [exact F|].
    constructor; [|constructor].
    exists target, path, c. simpl.
    repeat (split; [first [assumption | reflexivity]|]).
    split; [intros _; split; reflexivity | unfold path_len in *; intros; lia].
  - apply Nat.eqb_neq in L2. apply Forall_app. split; [exact F|].
    constructor; [|constructor].
    exists target, path, c. simpl.
    repeat (split; [first [assumption | reflexivity]|]).
    split; [unfold path_len in *; intros; lia|].
    intros _. split; [|reflexivity].
    unfold second. destruct (rest path) as [|hop more] eqn:R.
    + unfold path_len in L1. rewrite R in L1. simpl in L1. lia.
    + exists hop, more. split; reflexivity.
Qed.

Lemma fold_visit_emitted (nx : Networkx) (G : DiGraph)
    (source_agent : string) (targets : list string) :
  (forall t, In t targets -> In t (nodes G)) ->
  forall acc,
    Forall (emitted_for nx G source_agent) (fst acc) ->
    Forall (emitted_for nx G source_agent)
           (fst (fold_left (visit_target nx G source_agent) targets acc)).
Proof.
  induction targets as [|t targets IH]; intros S acc F; simpl; [exact F|].
  apply IH.
  - intros t' I. apply S. now right.
  - apply visit_target_emitted; [apply S; now left | exact F].
Qed.

(** C8.  For every source agent and topology snapshot: if the source is
    not a node of the graph the route list is empty; no emitted route has
    the source as destination; and every emitted route leads to a node
    whose shortest-path cost is not infinite, with next hop "direct" and
    reason "default" when the path has exactly two nodes, and the second
    node of the path with reason "optimized_path" when it has three or
    more.  On the relay topology (A reaches B at cost 210 and C at cost
    30, C reaches B at cost 30) the routes of A are: C direct, and B by
    way of C, the second node of the path A, C, B. *)
Theorem compute_routes_for_emitted (nx : Networkx) (self : RouteSolver)
    (source_agent : string) (topology_data : dict string AgentData) :
  let G := build_graph self topology_data in
  let routes := fst (compute_routes_for nx self source_agent topology_data) in
  (~ In source_agent (nodes G) -> routes = [])
  /\ (forall r, In r routes ->
                dst_cidr r <> (source_agent ++ "/32")%string)
  /\ (forall r, In r routes -> emitted_for nx G source_agent r)
  /\ fst (compute_routes_for NxReference.nx Scenarios.default_solver "A"
                             Scenarios.relay_topology)
     = [{| dst_cidr := "C/32"; next_hop := "direct"; reason := "default" |};
        {| dst_cidr := "B/32"; next_hop := "C";
           reason := "optimized_path" |}].
Proof.
  intros G routes.
  assert (F : Forall (emitted_for nx G source_agent) routes).
  { unfold routes, compute_routes_for. fold G.
    destruct (PyStr.list_in source_agent (nodes G)); simpl; [|constructor].
    apply fold_visit_emitted; [auto | constructor]. }
  rewrite Forall_forall in F.
  split; [|split].
  - intros N. apply list_in_false in N.
    unfold routes, compute_routes_for. fold G. now rewrite N.
  - intros r I E. destruct (F r I) as (T & path & c & _ & NE & D & _).
    apply NE. apply (append_inv_tail T source_agent "/32"). congruence.
  - split; [exact F|]. vm_compute. reflexivity.
Qed.

End SolverFacts.

(* ================================================================== *)
(** * Facts about controller/solver.py: hysteresis *)

Module HysteresisFacts.
Import Models PyDict PyDictFacts Solver SolverSpec SolverFacts Scenarios.

Lemma has_route_for_app (routes : list RouteConfig) (r : RouteConfig)
    (T : string) :
  has_route_for (routes ++ [r]) T <->
  has_route_for routes T \/ dst_cidr r = (T ++ "/32")%string.
Proof.
  unfold has_route_for. split.
  - intros (x & I & D). apply in_app_iff in I. destruct I as [I|[<-|[]]].
    + left. eauto.
    + now right.
  - intros [(x & I & D)|D].
    + exists x. split; [apply in_app_iff; now left | exact D].
    + exists r. split; [apply in_app_iff; right; now left | exact D].
Qed.

Lemma same_view_refl (source_agent T : string)
    (acc : list RouteConfig * RouteSolver) :
  same_view source_agent T acc acc.
Proof. unfold same_view. tauto. Qed.

Lemma same_view_trans (source_agent T : string)
    (a b c : list RouteConfig * RouteSolver) :
  same_view source_agent T a b -> same_view source_agent T b c ->
  same_view source_agent T a c.
Proof.
  unfold same_view. intros (R1 & G1 & H1) (R2 & G2 & H2).
  split; [tauto|]. split; congruence.
Qed.

Lemma get_other_key (costs : dict (string * string) float)
    (source_agent T T' : string) (c : float) :
  T' <> T ->
  get (set costs (source_agent, T') c) (source_agent, T)
  = get costs (source_agent, T).
Proof.
  intros NE. rewrite get_set.
  destruct (keqb_spec (source_agent, T') (source_agent, T)) as [E|_];
    [congruence | reflexivity].
Qed.

(** Visiting another target leaves the view of [T] alone. *)
Lemma visit_other (nx : Networkx) (G : DiGraph) (source_agent T T' : string)
    (acc : list RouteConfig * RouteSolver) :
  T' <> T ->
  same_view source_agent T acc (visit_target nx G source_agent acc T').
Proof.
  intros NE. destruct acc as [routes self]. unfold visit_target.
  destruct (String.eqb T' source_agent); [apply same_view_refl|].
  destruct (shortest_path nx G source_agent T') as [path| |];
    try apply same_view_refl.
  destruct (shortest_path_length nx G source_agent T') as [c| |];
    try apply same_view_refl.
  destruct (c =? infinity)%float; [apply same_view_refl|].
  destruct (significantly_better self c _); [|apply same_view_refl].
  assert (D : forall r, dst_cidr r = (T' ++ "/32")%string ->
                        dst_cidr r <> (T ++ "/32")%string).
  { intros r E1 E2. apply NE. apply (append_inv_tail T' T "/32"). congruence. }
  destruct (path_len path =? 1)%nat; [|destruct (path_len path =? 2)%nat];
    unfold same_view; simpl; rewrite ?has_route_for_app;
    (split; [|split; [now apply get_other_key | reflexivity]]).
  - tauto.
  - split; [|tauto]. intros [I|E]; [exact I|]. now apply D in E.
  - split; [|tauto]. intros [I|E]; [exact I|]. now apply D in E.
Qed.

Lemma fold_visit_other (nx : Networkx) (G : DiGraph) (source_agent T : string)
    (targets : list string) :
  ~ In T targets ->
  forall acc,
    same_view source_agent T acc
              (fold_left (visit_target nx G source_agent) targets acc).
Proof.
  induction targets as [|t targets IH]; intros N acc; simpl.
  - apply same_view_refl.
  - apply (same_view_trans _ _ _ (visit_target nx G source_agent acc t)).
    + apply visit_other. intros E. apply N. now left.
    + apply IH. intros I. apply N. now right.
Qed.

(** Visiting [T] itself: the route is emitted exactly when the new cost
    passes the hysteresis test against the remembered cost. *)
Lemma visit_self (nx : Networkx) (G : DiGraph) (source_agent T : string)
    (acc : list RouteConfig * RouteSolver) (path : Path) (c : float) :
  T <> source_agent ->
  shortest_path nx G source_agent T = Found path ->
  path_len path <> 1 ->
  shortest_path_length nx G source_agent T = Found c ->
  (c =? infinity)%float = false ->
  ~ has_route_for (fst acc) T ->
  let acc' := visit_target nx G source_agent acc T in
  let better := significantly_better (snd acc) c
                  (previous_cost (snd acc) (source_agent, T)) in
  (has_route_for (fst acc') T <-> better = true)
  /\ (better = true ->
      get (previous_costs (snd acc')) (source_agent, T) = Some c)
  /\ (better = false -> acc' = acc)
  /\ hysteresis (snd acc') = hysteresis (snd acc).
Proof.
  intros NE SP L1 SL INF NR. destruct acc as [routes self].
  cbn [fst snd] in *. unfold visit_target.
  destruct (String.eqb_spec T source_agent) as [E|_]; [congruence|].
  rewrite SP, SL, INF.
  destruct (significantly_better self c _) eqn:B.
  - apply Nat.eqb_neq in L1. rewrite L1.
    destruct (path_len path =? 2)%nat; cbn [fst snd previous_costs
      set_previous_costs hysteresis]; rewrite has_route_for_app;
      (split; [split; [reflexivity | intros _; now right]|]);
      (split; [intros _; apply get_set_same|]);
      (split; [discriminate | reflexivity]).
  - cbn [fst snd]. split; [split; [tauto | discriminate]|].
    split; [discriminate|]. split; reflexivity.
Qed.

(** The hysteresis test reads the solver through the remembered cost and
    the threshold only. *)
Lemma significantly_better_view (self self' : RouteSolver)
    (key : string * string) (c : float) :
  get (previous_costs self') key = get (previous_costs self) key ->
  hysteresis self' = hysteresis self ->
  significantly_better self' c (previous_cost self' key)
  = significantly_better self c (previous_cost self key).
Proof.
  unfold significantly_better, previous_cost. now intros -> ->.
Qed.

(** The first finite cost of a pair always passes the test, for a
    threshold below one. *)
Lemma first_result_passes (self : RouteSolver) (key : string * string)
    (c : float) :
  get (previous_costs self) key = None ->
  (0 <? 1 - hysteresis self)%float = true ->
  is_finite c = true ->
  significantly_better self c (previous_cost self key) = true.
Proof.
  intros N H F. unfold significantly_better, previous_cost. rewrite N.
  rewrite (FloatFacts.infinity_mul_pos _ H).
  now apply FloatFacts.finite_lt_infinity.
Qed.

(** One pass of [compute_routes_for], seen from a destination [T] other
    than the source for which [networkx] answers a path and a finite cost
    [c]. *)
Lemma compute_routes_for_hysteresis (nx : Networkx) (self : RouteSolver)
    (source_agent T : string) (topology_data : dict string AgentData)
    (path : Path) (c : float) :
  let G := build_graph self topology_data in
  In source_agent (nodes G) ->
  In T (nodes G) ->
  T <> source_agent ->
  shortest_path nx G source_agent T = Found path ->
  path_len path <> 1 ->
  shortest_path_length nx G source_agent T = Found c ->
  is_finite c = true ->
  let routes := fst (compute_routes_for nx self source_agent topology_data) in
  let self' := snd (compute_routes_for nx self source_agent topology_data) in
  let history := previous_cost self (source_agent, T) in
  (has_route_for routes T <->
   (c <? history * (1 - hysteresis self))%float = true)
  /\ ((c <? history * (1 - hysteresis self))%float = true ->
      get (previous_costs self') (source_agent, T) = Some c)
  /\ ((c <? history * (1 - hysteresis self))%float = false ->
      get (previous_costs self') (source_agent, T)
      = get (previous_costs self) (source_agent, T))
  /\ (get (previous_costs self) (source_agent, T) = None ->
      (0 <? 1 - hysteresis self)%float = true ->
      has_route_for routes T
      /\ get (previous_costs self') (source_agent, T) = Some c).
Proof.
  intros G IS IT NE SP L1 SL FIN routes self' history.
  change ((c <? history * (1 - hysteresis self))%float)
    with (significantly_better self c (previous_cost self (source_agent, T))).
  set (better := significantly_better self c
                   (previous_cost self (source_agent, T))).
  (* the loop visits T once *)
  destruct (in_split T (nodes G) IT) as (before & after & EQ).
  pose proof (build_graph_NoDup self topology_data) as ND. fold G in ND.
  rewrite EQ in ND. apply NoDup_remove_2 in ND.
  assert (NB : ~ In T before) by (intros I; apply ND, in_app_iff; now left).
  assert (NA : ~ In T after) by (intros I; apply ND, in_app_iff; now right).
  set (visit := visit_target nx G source_agent).
  set (acc1 := fold_left visit before ([], self)).
  set (acc2 := visit acc1 T).
  assert (R : compute_routes_for nx self source_agent topology_data
              = fold_left visit after acc2).
  { unfold compute_routes_for. fold G.
    apply list_in_In in IS. rewrite IS. simpl.
    rewrite EQ, fold_left_app. reflexivity. }
  destruct (fold_visit_other nx G source_agent T before NB ([], self))
    as (V1r & V1g & V1h).
  fold visit in V1r, V1g, V1h. fold acc1 in V1r, V1g, V1h. simpl in V1g, V1h.
  assert (NR : ~ has_route_for (fst acc1) T).
  { rewrite V1r. intros (r & [] & _). }
  destruct (visit_self nx G source_agent T acc1 path c NE SP L1 SL
              (FloatFacts.finite_not_infinity c FIN) NR)
    as (S1 & S2 & S3 & S4).
  fold visit in S1, S2, S3, S4. fold acc2 in S1, S2, S3, S4.
  rewrite (significantly_better_view self (snd acc1) _ c V1g V1h)
    in S1, S2, S3.
  fold better in S1, S2, S3.
  destruct (fold_visit_other nx G source_agent T after NA acc2)
    as (V2r & V2g & V2h).
  fold visit in V2r, V2g, V2h.
  unfold routes, self'. rewrite R.
  assert (A : has_route_for (fst (fold_left visit after acc2)) T
              <-> better = true) by (rewrite V2r; exact S1).
  assert (B : better = true ->
              get (previous_costs (snd (fold_left visit after acc2)))
                  (source_agent, T) = Some c).
  { intros Bt. rewrite V2g. now apply S2. }
  split; [exact A|]. split; [exact B|]. split.
  - intros Bf. rewrite V2g, (S3 Bf). exact V1g.
  - intros N H.
    assert (Bt : better = true)
      by (apply first_result_passes; assumption).
    split; [now apply A | now apply B].
Qed.

(** C3.  Take a destination [T] other than the source for which
    [networkx] answers a path and a finite cost [c].  One pass of
    [compute_routes_for] emits a route for [T] exactly when
    [c < CostHistory[(S,T)] * (1 - hysteresis)], the history of a pair
    never emitted being the positive infinity.  When the route is emitted
    the history of the pair becomes [c]; when it is not, the history of
    the pair is left as it was; with a hysteresis fraction below one the
    first finite cost of a pair is always emitted.  In particular, with
    fraction 0.15: a first pass at cost 100 emits and records 100; after
    it a pass at cost 90 emits nothing and keeps 100, and a pass at cost
    80 emits the route and records 80. *)
Theorem hysteresis_exact :
  (forall (nx : Networkx) (self : RouteSolver) (source_agent T : string)
          (topology_data : dict string AgentData) (path : Path) (c : float),
      let G := build_graph self topology_data in
      In source_agent (nodes G) ->
      In T (nodes G) ->
      T <> source_agent ->
      shortest_path nx G source_agent T = Found path ->
      path_len path <> 1 ->
      shortest_path_length nx G source_agent T = Found c ->
      is_finite c = true ->
      let routes :=
        fst (compute_routes_for nx self source_agent topology_data) in
      let self' :=
        snd (compute_routes_for nx self source_agent topology_data) in
      let history := previous_cost self (source_agent, T) in
      (has_route_for routes T <->
       (c <? history * (1 - hysteresis self))%float = true)
      /\ ((c <? history * (1 - hysteresis self))%float = true ->
          get (previous_costs self') (source_agent, T) = Some c)
      /\ ((c <? history * (1 - hysteresis self))%float = false ->
          get (previous_costs self') (source_agent, T)
          = get (previous_costs self) (source_agent, T))
      /\ (get (previous_costs self) (source_agent, T) = None ->
          (0 <? 1 - hysteresis self)%float = true ->
          has_route_for routes T
          /\ get (previous_costs self') (source_agent, T) = Some c))
  /\ compute_routes_for NxReference.nx default_solver "A" (one_link 100)
     = ([{| dst_cidr := "B/32"; next_hop := "direct"; reason := "default" |}],
        solver_after_100)
  /\ compute_routes_for NxReference.nx solver_after_100 "A" (one_link 90)
     = ([], solver_after_100)
  /\ compute_routes_for NxReference.nx solver_after_100 "A" (one_link 80)
     = ([{| dst_cidr := "B/32"; next_hop := "direct"; reason := "default" |}],
        set_previous_costs default_solver [(("A", "B"), 80%float)]).
Proof.
  split; [exact compute_routes_for_hysteresis|].
  split; [|split]; vm_compute; reflexivity.
Qed.

(** The general statement applied to the pass at cost 90 and to the pass at
    cost 80. *)
Lemma hysteresis_exact_witness :
  ~ has_route_for
      (fst (compute_routes_for NxReference.nx solver_after_100 "A"
              (one_link 90))) "B"
  /\ has_route_for
       (fst (compute_routes_for NxReference.nx solver_after_100 "A"
               (one_link 80))) "B".
Proof.
  pose (AB := {| first := "A"; rest := ["B"] |}).
  split.
  - pose proof (proj1 hysteresis_exact NxReference.nx solver_after_100
                  "A" "B" (one_link 90) AB 90%float) as E.
    cbv zeta in E.
    specialize (E ltac:(simpl; tauto) ltac:(simpl; tauto) ltac:(discriminate)
                  eq_refl ltac:(discriminate) eq_refl eq_refl).
    destruct E as (E & _). intros R. apply E in R. vm_compute in R.
    discriminate.
  - pose proof (proj1 hysteresis_exact NxReference.nx solver_after_100
                  "A" "B" (one_link 80) AB 80%float) as E.
    cbv zeta in E.
    specialize (E ltac:(simpl; tauto) ltac:(simpl; tauto) ltac:(discriminate)
                  eq_refl ltac:(discriminate) eq_refl eq_refl).
    destruct E as (E & _). apply E. vm_compute. reflexivity.
Defined.

End HysteresisFacts.


(* ================================================================== *)
(** * Facts about agent/prober.py *)

Module ProberFacts.
Import Models World PyDict PyDictFacts Prober Scenarios ProberSpec.

Lemma probe_once_run (env : Env) (target_ip : string) (h : list event) :
  probe_once env target_ip h
  = (Ok (result_of target_ip (ping3_ping env h target_ip)),
     h ++ [EvPing target_ip]).
Proof.
  unfold probe_once, bind, ping.
  destruct (ping3_ping env h target_ip); reflexivity.
Qed.

(** The update of [probe_all] in terms of the outcome of the probe. *)
Lemma record_result_of (b : PeerBuffers) (target_ip : string)
    (outcome : ping_outcome) :
  record_result b (result_of target_ip outcome) = record_outcome b outcome.
Proof. destruct outcome; reflexivity. Qed.

Lemma lift_run {A : Type} (c : IO A) (self : Prober) (h : list event) :
  lift c (self, h) = (fst (c h), (self, snd (c h))).
Proof. unfold lift. simpl. now destruct (c h). Qed.

(** [append] puts the value last, after the former contents or, when the
    window is full, after all of them but the oldest. *)
Lemma append_buffer (b : SlidingWindowBuffer) (value : float) :
  maxlen (append b value) = maxlen b
  /\ buffer (append b value)
     = (if (Z.of_nat (List.length (buffer b)) =? maxlen b)%Z
        then tl (buffer b) else buffer b) ++ [value].
Proof.
  unfold append. simpl.
  destruct (Z.of_nat (List.length (buffer b)) =? maxlen b)%Z; auto.
Qed.

(** One step of [probe_all]: the peer is probed once and its two buffers
    take the result; the buffers of the other peers are left alone. *)
Lemma probe_step_records (env : Env) (self : Prober)
    (results : list ProbeResult) (peer_ip : string) (b : PeerBuffers)
    (h : list event) :
  get (buffers self) peer_ip = Some b ->
  exists self',
    probe_step env results peer_ip (self, h)
    = (Ok (results ++ [result_of peer_ip (ping3_ping env h peer_ip)]),
       (self', h ++ [EvPing peer_ip]))
    /\ get (buffers self') peer_ip
       = Some (record_outcome b (ping3_ping env h peer_ip))
    /\ (forall other, other <> peer_ip ->
                      get (buffers self') other = get (buffers self) other)
    /\ peer_ips self' = peer_ips self.
Proof.
  intros G. unfold probe_step.
  rewrite (FallbackFacts.bind_ok _ _ (self, h) (self, h ++ [EvPing peer_ip])
             (result_of peer_ip (ping3_ping env h peer_ip)));
    [|now rewrite lift_run, probe_once_run].
  rewrite (FallbackFacts.bind_ok _ _ _ (self, h ++ [EvPing peer_ip]) self);
    [|reflexivity].
  rewrite G, record_result_of.
  eexists. split; [reflexivity|]. cbn [buffers peer_ips fst].
  split; [apply get_set_same|]. split; [|reflexivity].
  intros other NE. rewrite get_set.
  destruct (keqb_spec peer_ip other) as [E|_]; [congruence | reflexivity].
Qed.

(** The loop of [probe_all] over peers that all have buffers (the same
    peer may be listed more than once): every listed peer is probed in
    order, and the buffers of a peer take the outcomes of its own probes,
    one after the other. *)
Lemma probe_loop_records (env : Env) (peers : list string) :
  forall (self : Prober) (results : list ProbeResult) (h : list event),
    (forall p, In p peers -> get (buffers self) p <> None) ->
    exists self',
      for_each (probe_step env) peers results (self, h)
      = (Ok (results ++ map (fun x => result_of (fst x) (snd x))
                            (probes env h peers)),
         (self', h ++ map EvPing peers))
      /\ (forall p b,
             get (buffers self) p = Some b ->
             get (buffers self') p
             = Some (fold_left record_outcome
                               (outcomes_of p (probes env h peers)) b))
      /\ peer_ips self' = peer_ips self.
Proof.
  induction peers as [|x peers IH]; intros self results h B.
  - exists self. simpl. rewrite !app_nil_r. auto.
  - destruct (get (buffers self) x) as [bx|] eqn:G;
      [|exfalso; apply (B x); [now left | exact G]].
    destruct (probe_step_records env self results x bx h G)
      as (self1 & S1 & G1 & O1 & P1).
    destruct (IH self1 (results ++ [result_of x (ping3_ping env h x)])
                 (h ++ [EvPing x])) as (self' & R & Each & P').
    { intros p I. destruct (String.eqb_spec p x) as [->|NE].
      - rewrite G1. discriminate.
      - rewrite (O1 p NE). apply B. now right. }
    exists self'. cbn [for_each map probes fst snd].
    rewrite (FallbackFacts.bind_ok _ _ _ _ _ S1), R, <- !app_assoc.
    split; [reflexivity|]. split; [|congruence].
    intros p b Gp. unfold outcomes_of. cbn [filter fst].
    destruct (String.eqb_spec x p) as [->|NE].
    + rewrite G in Gp. injection Gp as <-. cbn [map snd fold_left].
      now apply Each.
    + apply Each. rewrite O1; [exact Gp | congruence].
Qed.

Lemma probe_all_records (env : Env) (self : Prober) (h : list event) :
  (forall p, In p (peer_ips self) -> get (buffers self) p <> None) ->
  exists self',
    probe_all env (self, h)
    = (Ok (map (fun x => result_of (fst x) (snd x))
               (probes env h (peer_ips self))),
       (self', h ++ map EvPing (peer_ips self)))
    /\ (forall p b,
           get (buffers self) p = Some b ->
           get (buffers self') p
           = Some (fold_left record_outcome
                             (outcomes_of p (probes env h (peer_ips self))) b))
    /\ peer_ips self' = peer_ips self.
Proof.
  intros B. unfold probe_all.
  rewrite (FallbackFacts.bind_ok _ _ (self, h) (self, h) self);
    [|reflexivity].
  apply (probe_loop_records env (peer_ips self) self [] h B).
Qed.

(** [run_once] over such peers: the probes, then the smoothing of the
    buffers as the probes left them; the prober keeps what it recorded
    whether the smoothing returns or raises. *)
Lemma run_once_records (env : Env) (self : Prober) (h : list event) :
  (forall p, In p (peer_ips self) -> get (buffers self) p <> None) ->
  exists self',
    run_once env (self, h)
    = (fst (get_smoothed_metrics self' (h ++ map EvPing (peer_ips self))),
       (self',
        snd (get_smoothed_metrics self' (h ++ map EvPing (peer_ips self)))))
    /\ (forall p b,
           get (buffers self) p = Some b ->
           get (buffers self') p
           = Some (fold_left record_outcome
                             (outcomes_of p (probes env h (peer_ips self))) b))
    /\ peer_ips self' = peer_ips self.
Proof.
  intros B.
  destruct (probe_all_records env self h B) as (self' & PA & Each & PI).
  exists self'. split; [|split; [exact Each | exact PI]].
  unfold run_once.
  rewrite (FallbackFacts.bind_ok _ _ _ _ _ PA).
  rewrite (FallbackFacts.bind_ok _ _ _
             (self', h ++ map EvPing (peer_ips self)) self');
    [|reflexivity].
  apply lift_run.
Qed.

(** What [probe_all] has appended stays when it raises: the first peer
    of [lopsided_prober] is probed and recorded, then the missing buffers
    of the second raise [KeyError]. *)
Example probe_all_keeps_appends :
  exists self',
    probe_all (scripted_env [reply_50ms; reply_50ms])
              (lopsided_prober, [])
    = (Raise (KeyError "10.254.0.3"),
       (self', [EvPing "10.254.0.2"; EvPing "10.254.0.3"]))
    /\ option_map (fun b => buffer (loss b))
                  (get (buffers self') "10.254.0.2")
       = Some [0%float].
Proof. eexists. split; reflexivity. Qed.

(** ** Scenario S4, for every order of the outcomes *)

Lemma option_float_eqb_eq (a b : option float) :
  option_float_eqb a b = true -> a = b.
Proof.
  destruct a, b; simpl; try discriminate; try reflexivity.
  intros E. apply FloatAxioms.Leibniz.eqb_spec in E. now subst.
Qed.

Lemma Metric_eqb_eq (a b : Metric) : Metric_eqb a b = true -> a = b.
Proof.
  destruct a, b. unfold Metric_eqb. simpl.
  rewrite !andb_true_iff. intros [[E1 E2] E3].
  apply String.eqb_eq in E1. apply option_float_eqb_eq in E2.
  apply FloatAxioms.Leibniz.eqb_spec in E3. now subst.
Qed.

(** A script made of such outcomes is one of [all_scripts]. *)
Lemma all_scripts_complete (script : list ping_outcome) :
  Forall plain script -> In script (all_scripts (List.length script)).
Proof.
  induction 1 as [|o script P F IH]; simpl; [now left|].
  apply in_flat_map. exists script. split; [exact IH|].
  destruct P as [-> | [-> | ->]]; simpl; auto.
Qed.

Lemma scenario_S4_holds : forallb scenario_S4 (all_scripts 10) = true.
Proof. vm_compute. reflexivity. Qed.

Lemma reports_sound (script : list ping_outcome) (expected : Metric) :
  reports script expected = true ->
  fst (run_cycles (scripted_env script) 10 []
         (single_peer_prober "10.254.0.2" 10, []))
  = Ok [expected].
Proof.
  unfold reports.
  destruct (fst (run_cycles _ 10 [] _)) as [[|m [|]]|];
    try discriminate.
  intros E. apply Metric_eqb_eq in E. now subst.
Qed.

(** C4.  In every [probe_all], each listed peer is probed in order and
    its loss buffer takes a sample on every one of its probes, 1.0 when the
    probe timed out or raised and 0.0 when it was answered, while its RTT
    buffer takes the round-trip time of an answered probe and is left
    alone otherwise.  Hence, with a window of 10 and ten probes of one peer
    in any order: 7 replies after 50 ms and 3 timeouts or exceptions give
    the metric rtt_ms = 50.0, loss_rate = 0.3; ten timeouts or exceptions
    give rtt_ms absent, loss_rate = 1.0.  But a probe that [ping3] answers
    with [False], its answer on an error, is recorded as a success: 0.0
    goes to the loss buffer and 0 to the RTT buffer, so that ten such
    failures give rtt_ms = 0.0 and loss_rate = 0.0 instead of rtt_ms
    absent and loss_rate = 1.0. *)
Theorem probe_all_buffers :
  (forall (env : Env) (self : Prober) (h : list event),
      (forall p, In p (peer_ips self) -> get (buffers self) p <> None) ->
      exists self',
        probe_all env (self, h)
        = (Ok (map (fun x => result_of (fst x) (snd x))
                   (probes env h (peer_ips self))),
           (self', h ++ map EvPing (peer_ips self)))
        /\ forall p b,
            get (buffers self) p = Some b ->
            get (buffers self') p
            = Some (fold_left record_outcome
                      (outcomes_of p (probes env h (peer_ips self))) b))
  /\ (forall script : list ping_outcome,
         List.length script = 10 ->
         Forall plain script ->
         (List.length (filter is_reply script) = 7 ->
          fst (run_cycles (scripted_env script) 10 []
                 (single_peer_prober "10.254.0.2" 10, []))
          = Ok [{| target_ip := "10.254.0.2";
                   rtt_ms := Some 50%float;
                   loss_rate := 0.3 |}])
         /\ (List.length (filter is_reply script) = 0 ->
             fst (run_cycles (scripted_env script) 10 []
                    (single_peer_prober "10.254.0.2" 10, []))
             = Ok [{| target_ip := "10.254.0.2";
                      rtt_ms := None;
                      loss_rate := 1 |}]))
  /\ (forall b : PeerBuffers,
         record_outcome b PingFalse
         = {| rtt := append (rtt b) 0%float;
              loss := append (loss b) 0%float |})
  /\ fst (run_cycles (scripted_env ten_errors) 10 []
            (single_peer_prober "10.254.0.2" 10, []))
     = Ok [{| target_ip := "10.254.0.2";
              rtt_ms := Some 0%float;
              loss_rate := 0 |}].
Proof.
  split; [|split; [|split]].
  - intros env self h B.
    destruct (probe_all_records env self h B) as (self' & R & Each & _).
    exists self'. split; [exact R | exact Each].
  - intros script L P.
    pose proof (all_scripts_complete script P) as I. rewrite L in I.
    pose proof scenario_S4_holds as S. rewrite forallb_forall in S.
    specialize (S script I). unfold scenario_S4 in S.
    split; intros C; rewrite C in S; simpl in S; now apply reports_sound.
  - reflexivity.
  - vm_compute. reflexivity.
Qed.

Lemma probe_all_buffers_witness :
  fst (run_cycles
         (scripted_env [reply_50ms; PingNone; reply_50ms; PingRaises;
                        reply_50ms; reply_50ms; PingNone; reply_50ms;
                        reply_50ms; reply_50ms])
         10 [] (single_peer_prober "10.254.0.2" 10, []))
  = Ok [{| target_ip := "10.254.0.2";
           rtt_ms := Some 50%float;
           loss_rate := 0.3 |}].
Proof.
  apply (proj1 (proj2 probe_all_buffers)
           [reply_50ms; PingNone; reply_50ms; PingRaises;
            reply_50ms; reply_50ms; PingNone; reply_50ms;
            reply_50ms; reply_50ms]).
  - reflexivity.
  - repeat (apply Forall_cons; [unfold plain; auto|]). apply Forall_nil.
  - reflexivity.
Defined.

End ProberFacts.

(* ================================================================== *)
(** * More facts about agent/prober.py *)

Module ProberExtra.
Import Models World PyDict PyDictFacts Prober ExtraSpec.

Lemma tl_skipn {A : Type} (k : nat) (l : list A) :
  tl (skipn k l) = skipn (S k) l.
Proof.
  revert l. induction k as [|k IH]; intros [|x l]; simpl; auto.
Qed.

Lemma lastn_length {A : Type} (n : nat) (l : list A) :
  List.length (lastn n l) = Nat.min (List.length l) n.
Proof. unfold lastn. rewrite length_skipn. lia. Qed.

(** Appending to a window that holds the last [W] items of [p] makes it
    hold the last [W] items of [p ++ [x]]. *)
Lemma append_lastn (W : nat) (p : list float) (x : float) (b : SlidingWindowBuffer) :
  (0 < W)%nat ->
  maxlen b = Z.of_nat W ->
  buffer b = lastn W p ->
  maxlen (append b x) = Z.of_nat W
  /\ buffer (append b x) = lastn W (p ++ [x]).
Proof.
  intros P M B. unfold append. simpl. split; [exact M|].
  rewrite M, B, lastn_length. unfold lastn. rewrite length_app. simpl.
  destruct (Z.eqb_spec (Z.of_nat (Nat.min (List.length p) W)) (Z.of_nat W))
    as [E|NE].
  - assert (L : (W <= List.length p)%nat) by lia.
    rewrite tl_skipn, skipn_app.
    replace (List.length p + 1 - W)%nat with (S (List.length p - W)) by lia.
    replace (S (List.length p - W) - List.length p)%nat with 0%nat by lia.
    reflexivity.
  - assert (L : (List.length p < W)%nat) by lia.
    replace (List.length p - W)%nat with 0%nat by lia.
    replace (List.length p + 1 - W)%nat with 0%nat by lia.
    reflexivity.
Qed.

Lemma fold_append_lastn (W : nat) (xs : list float) :
  (0 < W)%nat ->
  forall (p : list float) (b : SlidingWindowBuffer),
    maxlen b = Z.of_nat W ->
    buffer b = lastn W p ->
    maxlen (fold_left append xs b) = Z.of_nat W
    /\ buffer (fold_left append xs b) = lastn W (p ++ xs).
Proof.
  intros P. induction xs as [|x xs IH]; intros p b M B; simpl.
  - now rewrite app_nil_r.
  - destruct (append_lastn W p x b P M B) as [M' B'].
    destruct (IH (p ++ [x]) (append b x) M' B') as [M2 B2].
    split; [exact M2|]. now rewrite B2, <- app_assoc.
Qed.

(** X1.  A buffer cannot be created for a capacity of zero or less.  For
    a positive capacity [W] that a [deque] takes ([W <= deque_max]) it can,
    and after any sequence of appends to the fresh buffer it holds the last
    [min(n, W)] values appended, oldest first, and never more than [W]. *)
Theorem window_keeps_latest (W : Z) (xs : list float) :
  ((W <= 0)%Z -> new_buffer W = None)
  /\ ((0 < W <= deque_max)%Z ->
      exists b,
        new_buffer W = Some b
        /\ buffer (fold_left append xs b)
           = skipn (List.length xs - Z.to_nat W) xs
        /\ List.length (buffer (fold_left append xs b))
           = Nat.min (List.length xs) (Z.to_nat W)
        /\ maxlen (fold_left append xs b) = W).
Proof.
  split.
  - intros N. unfold new_buffer. destruct (Z.leb_spec W 0); [reflexivity|lia].
  - intros [P _]. unfold new_buffer. destruct (Z.leb_spec W 0); [lia|].
    eexists. split; [reflexivity|].
    destruct (fold_append_lastn (Z.to_nat W) xs ltac:(lia) []
                {| maxlen := W; buffer := [] |}) as [M B].
    + simpl. lia.
    + reflexivity.
    + simpl in B. split; [exact B|]. split.
      * rewrite B. apply lastn_length.
      * rewrite M. lia.
Qed.

Lemma window_keeps_latest_witness :
  new_buffer 0 = None
  /\ exists b,
       new_buffer 3 = Some b
       /\ buffer (fold_left append [1; 2; 3; 4; 5]%float b) = [3; 4; 5]%float.
Proof.
  split.
  - apply (proj1 (window_keeps_latest 0 [])). lia.
  - destruct (proj2 (window_keeps_latest 3 [1; 2; 3; 4; 5]%float))
      as (b & N & B & _).
    + unfold deque_max. lia.
    + exists b. split; [exact N | exact B].
Defined.

(** ** A prober that has not probed yet *)

Lemma fold_set_get {V : Type} (v : V) (peers : list string) :
  forall (d : dict string V) (k : string),
    get (fold_left (fun d ip => set d ip v) peers d) k
    = if PyStr.list_in k peers then Some v else get d k.
Proof.
  induction peers as [|p peers IH]; intros d k; simpl; [reflexivity|].
  rewrite IH, get_set. cbn [keqb Key_string].
  unfold PyStr.list_in. simpl.
  rewrite (String.eqb_sym k p).
  destruct (existsb (String.eqb k) peers); [now rewrite orb_true_r|].
  rewrite orb_false_r. reflexivity.
Qed.

Lemma smoothed_fresh (self : Prober) (fresh : PeerBuffers)
    (peers : list string) :
  buffer (rtt fresh) = [] -> buffer (loss fresh) = [] ->
  (forall p, In p peers -> get (buffers self) p = Some fresh) ->
  forall (acc : list Metric) (h : list event),
    for_each (smoothed_step self) peers acc h
    = (Ok (acc ++ map (fun p => {| target_ip := p;
                                   rtt_ms := None;
                                   loss_rate := 0 |}) peers), h).
Proof.
  intros R L. induction peers as [|p peers IH]; intros B acc h; simpl.
  - now rewrite app_nil_r.
  - unfold bind at 1. unfold smoothed_step at 1.
    rewrite (B p (or_introl eq_refl)).
    unfold get_moving_average. rewrite R, L. simpl.
    rewrite IH; [|intros q I; apply B; now right].
    now rewrite <- app_assoc.
Qed.

(** X2.  A prober that has not probed yet reports every peer, in order,
    with no round-trip time and a loss rate of 0.0 (not "absent"), and does
    so without touching the network. *)
Theorem fresh_prober_reports_no_loss (peers : list string)
    (interval : Z) (timeout : float) (window_size : Z) (h : list event) :
  (0 < window_size)%Z ->
  exists self,
    new_prober peers interval timeout window_size = Some self
    /\ get_smoothed_metrics self h
       = (Ok (map (fun p => {| target_ip := p;
                               rtt_ms := None;
                               loss_rate := 0 |}) peers), h).
Proof.
  intros P. unfold new_prober, new_buffer.
  destruct (Z.leb_spec window_size 0); [lia|].
  eexists. split; [destruct peers; reflexivity|].
  unfold get_smoothed_metrics. cbn [peer_ips buffers].
  rewrite (smoothed_fresh _ {| rtt := {| maxlen := window_size; buffer := [] |};
                               loss := {| maxlen := window_size; buffer := [] |} |}
             peers); try reflexivity.
  intros p I. cbn [buffers]. rewrite fold_set_get.
  apply SolverFacts.list_in_In in I. now rewrite I.
Qed.

Lemma fresh_prober_reports_no_loss_witness :
  exists self,
    new_prober ["10.254.0.2"; "10.254.0.3"] 5 2 10 = Some self
    /\ get_smoothed_metrics self []
       = (Ok [{| target_ip := "10.254.0.2"; rtt_ms := None; loss_rate := 0 |};
              {| target_ip := "10.254.0.3"; rtt_ms := None; loss_rate := 0 |}],
          []).
Proof.
  apply (fresh_prober_reports_no_loss ["10.254.0.2"; "10.254.0.3"] 5 2 10 []).
  reflexivity.
Defined.

(** ** The loss rate of a window *)

Lemma all_bools_complete (l : list bool) : In l (all_bools (List.length l)).
Proof.
  induction l as [|b l IH]; simpl; [now left|].
  apply in_flat_map. exists l. split; [exact IH|].
  destruct b; simpl; auto.
Qed.

Lemma loss_mean_ok_upto_12 :
  forallb (fun n => forallb (loss_mean_ok 12) (all_bools n)) (seq 0 13) = true.
Proof. vm_compute. reflexivity. Qed.

(** X3.  For every window of at most 12 loss samples, in any order, the
    smoothed loss is the number of failed probes divided by the number of
    samples (in binary64), and it lies between 0 and 1; the capacity plays
    no part. *)
Theorem loss_rate_is_failure_ratio (capacity : Z) (failed : list bool) :
  failed <> [] ->
  (List.length failed <= 12)%nat ->
  exists m,
    get_moving_average {| maxlen := capacity;
                          buffer := map loss_sample failed |} = Some m
    /\ m = (float_of_nat (List.length (filter (fun b => b) failed))
            / float_of_nat (List.length failed))%float
    /\ (0 <=? m)%float = true /\ (m <=? 1)%float = true.
Proof.
  intros NE L.
  pose proof loss_mean_ok_upto_12 as A. rewrite forallb_forall in A.
  specialize (A (List.length failed)
                ltac:(apply in_seq; lia)).
  rewrite forallb_forall in A. specialize (A failed (all_bools_complete failed)).
  unfold loss_mean_ok in A. destruct failed as [|b failed]; [congruence|].
  change (get_moving_average {| maxlen := capacity;
                                buffer := map loss_sample (b :: failed) |})
    with (get_moving_average {| maxlen := 12;
                                buffer := map loss_sample (b :: failed) |}).
  destruct (get_moving_average _) as [m|]; [|discriminate].
  rewrite !andb_true_iff in A. destruct A as [[E Lo] Hi].
  apply FloatAxioms.Leibniz.eqb_spec in E.
  exists m. auto.
Qed.

Lemma loss_rate_is_failure_ratio_witness :
  exists m,
    get_moving_average
      {| maxlen := 10;
         buffer := map loss_sample [true; false; false; true] |} = Some m
    /\ m = 0.5%float.
Proof.
  destruct (loss_rate_is_failure_ratio 10 [true; false; false; true]
              ltac:(discriminate) ltac:(simpl; lia)) as (m & G & E & _).
  exists m. split; [exact G|]. rewrite E. reflexivity.
Defined.

End ProberExtra.

(* ================================================================== *)
(** * More facts about agent/executor.py *)

Module ExecutorExtra.
Import Models World PyDict PyDictFacts Executor Scenarios ExecutorSpec
       ExecutorExtraSpec.

(** X4.  For a relay next hop, with destination and next hop inside the
    allowed subnet, [apply_route] runs exactly one command, the replace of
    the host route via the next hop on the interface, and answers [True]
    only when that command exits with status 0: a non-zero exit, a timeout
    or a failure to run it all give [False]. *)
Theorem apply_route_relay (env : Env) (self : Executor)
    (dst_ip next_hop : string) (h : list event) :
  next_hop <> "direct" ->
  _is_ip_in_allowed_subnet self dst_ip = true ->
  _is_ip_in_allowed_subnet self next_hop = true ->
  apply_route env self dst_ip next_hop h
  = (Ok match subprocess_run env h (replace_command self dst_ip next_hop) with
        | Completed returncode _ _ => (returncode =? 0)%Z
        | TimeoutExpired => false
        | ProcRaises => false
        end,
     h ++ [EvRun (replace_command self dst_ip next_hop)]).
Proof.
  intros ND D N. unfold apply_route, generate_route_add_command.
  apply String.eqb_neq in ND. rewrite ND, D, N. simpl.
  rewrite ExecutorFacts.bind_run. fold (replace_command self dst_ip next_hop).
  destruct (subprocess_run env h _); reflexivity.
Qed.

Lemma apply_route_relay_witness :
  apply_route denied_env wg0_executor "10.254.0.3" "10.254.0.2" []
  = (Ok false,
     [EvRun ["ip"; "route"; "replace"; "10.254.0.3/32"; "via"; "10.254.0.2";
             "dev"; "wg0"]]).
Proof.
  apply (apply_route_relay denied_env wg0_executor "10.254.0.3" "10.254.0.2" []);
    [discriminate | reflexivity | reflexivity].
Defined.

(** ** Flushing *)

Lemma apply_direct_run (env : Env) (self : Executor) (dst_ip : string)
    (h : list event) :
  exists b,
    apply_route env self dst_ip "direct" h
    = (Ok b,
       h ++ if _is_ip_in_allowed_subnet self dst_ip
            then [EvRun (del_command self dst_ip)] else [])
    /\ (b = true -> _is_ip_in_allowed_subnet self dst_ip = true).
Proof.
  unfold apply_route, generate_route_del_command. simpl.
  destruct (_is_ip_in_allowed_subnet self dst_ip) eqn:D; simpl.
  - rewrite ExecutorFacts.bind_run. fold (del_command self dst_ip).
    destruct (subprocess_run env h _); eexists; split; reflexivity || auto.
  - exists false. rewrite app_nil_r. split; [reflexivity | discriminate].
Qed.

Lemma apply_each_direct (env : Env) (self : Executor) (dsts : list string) :
  forall (success : bool) (h : list event),
    exists b,
      apply_each env self (map (fun d => (d, "direct")) dsts) success h
      = (Ok b,
         h ++ map (fun d => EvRun (del_command self d))
                  (filter (_is_ip_in_allowed_subnet self) dsts))
      /\ (b = true ->
          success = true
          /\ forall d, In d dsts -> _is_ip_in_allowed_subnet self d = true).
Proof.
  induction dsts as [|d dsts IH]; intros success h.
  - exists success. simpl. rewrite app_nil_r. split; [reflexivity|].
    intros ->. split; [reflexivity | intros ? []].
  - destruct (apply_direct_run env self d h) as (ok & R & S).
    cbn [map apply_each]. rewrite (FallbackFacts.bind_ok _ _ h _ _ R).
    destruct (IH (if negb ok then false else success)
                 (h ++ (if _is_ip_in_allowed_subnet self d
                        then [EvRun (del_command self d)] else [])))
      as (b & R' & S').
    exists b. rewrite R'. split.
    + f_equal. cbn [filter].
      destruct (_is_ip_in_allowed_subnet self d); simpl;
        now rewrite <- app_assoc.
    + intros B. destruct (S' B) as [E A]. destruct ok; simpl in E.
      * split; [exact E|]. intros x [<-|I]; auto.
      * discriminate.
Qed.

(** X5.  [flush_all_routes] lists the table once and then runs one delete
    per listed destination inside the allowed subnet, in table order, and
    nothing else: never a replace, and no command for a destination outside
    the subnet.  It never raises; it answers [True] for an empty table, and
    whenever it answers [True] every listed destination was inside the
    subnet. *)
Theorem flush_all_routes_trace (env : Env) (self : Executor) (h : list event) :
  exists routes self' b,
    get_current_routes env self h
    = (Ok (routes, self'), h ++ [EvRun listing_command])
    /\ flush_all_routes env self h
       = (Ok (b, self'),
          h ++ EvRun listing_command
            :: map (fun d => EvRun (del_command self d))
                   (filter (_is_ip_in_allowed_subnet self) (keys routes)))
    /\ (routes = [] -> b = true)
    /\ (b = true ->
        forall d, In d (keys routes) -> _is_ip_in_allowed_subnet self d = true).
Proof.
  destruct (AgentFacts.get_current_routes_returns env self h)
    as ([routes self'] & G).
  assert (SE : _is_ip_in_allowed_subnet self' = _is_ip_in_allowed_subnet self
               /\ del_command self' = del_command self).
  { unfold get_current_routes in G. rewrite ExecutorFacts.bind_run in G.
    destruct (subprocess_run env h _) as [rc ? ?| |]; try (now inversion G).
    destruct (rc =? 0)%Z; now inversion G. }
  destruct SE as [SE1 SE2].
  assert (FL : flush_all_routes env self h
               = (if is_empty routes then ret (true, self')
                  else bind (apply_each env self'
                               (map (fun d => (d, "direct")) (keys routes))
                               true)
                            (fun success => ret (success, self')))
                   (h ++ [EvRun listing_command])).
  { unfold flush_all_routes. now rewrite (FallbackFacts.bind_ok _ _ h _ _ G). }
  destruct routes as [|kv routes].
  - exists [], self', true. split; [exact G|]. split; [exact FL|]. auto.
  - cbn [is_empty] in FL.
    destruct (apply_each_direct env self' (keys (kv :: routes)) true
                (h ++ [EvRun listing_command])) as (b & R & S).
    rewrite (FallbackFacts.bind_ok _ _ _ _ _ R) in FL.
    rewrite SE1, SE2, <- app_assoc in FL.
    exists (kv :: routes), self', b.
    split; [exact G|]. split; [exact FL|].
    split; [discriminate|]. intros B d I.
    rewrite <- SE1. now apply (proj2 (S B)).
Qed.

(** ** More on the diff *)

Lemma diff_fold_same (current : dict string string)
    (l : list (string * string)) :
  (forall k v, In (k, v) l -> get current k = Some v) ->
  forall acc, fold_left (diff_step current) l acc = acc.
Proof.
  induction l as [|[k v] l IH]; intros S acc; simpl; [reflexivity|].
  rewrite IH; [|intros; apply S; now right].
  destruct acc as [a m]. unfold diff_step.
  rewrite (S k v (or_introl eq_refl)), String.eqb_refl. reflexivity.
Qed.

Lemma delete_fold_same (desired : dict string string) (l : list string) :
  (forall k, In k l -> mem desired k = true) ->
  forall acc, fold_left (delete_step desired) l acc = acc.
Proof.
  induction l as [|k l IH]; intros S acc; simpl; [reflexivity|].
  rewrite IH; [|intros; apply S; now right].
  unfold delete_step. now rewrite (S k (or_introl eq_refl)).
Qed.

(** X6.  A table diffed against itself needs no change: the three
    collections are empty. *)
Theorem calculate_route_diff_same (routes : dict string string) :
  NoDup (keys routes) ->
  calculate_route_diff routes routes = ([], [], []).
Proof.
  intros ND. unfold calculate_route_diff, items.
  rewrite diff_fold_same; [|intros k v I; now apply In_get].
  rewrite delete_fold_same; [reflexivity|].
  intros k I. now apply mem_keys.
Qed.

Lemma calculate_route_diff_same_witness :
  calculate_route_diff [("10.254.0.3", "10.254.0.2"); ("10.254.0.4", "direct")]
                       [("10.254.0.3", "10.254.0.2"); ("10.254.0.4", "direct")]
  = ([], [], []).
Proof.
  apply calculate_route_diff_same.
  repeat constructor; simpl; intuition discriminate.
Defined.

(** X7.  The diff is complete and minimal: writing the additions and the
    modifications into the current table and removing the deletions gives,
    at every destination, the desired next hop; and a destination whose
    next hop is already the desired one is in none of the three
    collections. *)
Theorem calculate_route_diff_patches (desired current : dict string string) :
  NoDup (keys desired) ->
  let to_add := fst (fst (calculate_route_diff desired current)) in
  let to_modify := snd (fst (calculate_route_diff desired current)) in
  let to_delete := snd (calculate_route_diff desired current) in
  (forall k, patched to_add to_modify to_delete current k = get desired k)
  /\ (forall k v,
         get desired k = Some v -> get current k = Some v ->
         get to_add k = None /\ get to_modify k = None /\ ~ In k to_delete).
Proof.
  intros ND. unfold calculate_route_diff, items.
  destruct (fold_left (diff_step current) desired (empty, empty))
    as [a m] eqn:F. simpl.
  set (del := fold_left (delete_step desired) (keys current) []).
  assert (KA : forall k, In k (keys a) <->
                         In k (keys desired) /\ ~ In k (keys current)).
  { intros k. pose proof (DiffFacts.diff_fold_keys current desired empty empty k)
      as P. simpl in P. rewrite F in P. destruct P as [P _]. simpl in P.
    rewrite P. unfold keys. tauto. }
  assert (KM : forall k, In k (keys m) <->
                         exists v w, In (k, v) desired
                                     /\ get current k = Some w /\ w <> v).
  { intros k. pose proof (DiffFacts.diff_fold_keys current desired empty empty k)
      as P. simpl in P. rewrite F in P. destruct P as [_ P]. simpl in P.
    rewrite P. tauto. }
  assert (KD : forall k, In k del <->
                         In k (keys current) /\ ~ In k (keys desired)).
  { intros k. unfold del. rewrite DiffFacts.delete_fold. simpl. tauto. }
  assert (VA : forall k v, get a k = Some v -> get desired k = Some v).
  { intros k v G.
    pose proof (DiffFacts.diff_fold_values current desired empty empty k v) as P.
    simpl in P. rewrite F in P. destruct P as [P _].
    destruct (P G) as [A|A]; [discriminate | now apply In_get]. }
  assert (VM : forall k v, get m k = Some v -> get desired k = Some v).
  { intros k v G.
    pose proof (DiffFacts.diff_fold_values current desired empty empty k v) as P.
    simpl in P. rewrite F in P. destruct P as [_ P].
    destruct (P G) as [A|A]; [discriminate | now apply In_get]. }
  split.
  - intros k. unfold patched.
    destruct (PyStr.list_in k del) eqn:D.
    + apply SolverFacts.list_in_In, KD in D. destruct D as [_ N].
      symmetry. now apply get_None.
    + apply SolverFacts.list_in_false in D.
      destruct (get a k) as [v|] eqn:GA; [symmetry; now apply VA|].
      destruct (get m k) as [v|] eqn:GM; [symmetry; now apply VM|].
      apply get_None in GA. apply get_None in GM.
      destruct (get desired k) as [v|] eqn:GD.
      * destruct (get current k) as [w|] eqn:GC.
        -- destruct (String.eqb_spec w v) as [->|NE]; [reflexivity|].
           exfalso. apply GM, KM. exists v, w.
           split; [now apply get_In | auto].
        -- exfalso. apply GA, KA. split.
           ++ apply get_In in GD. apply (in_map fst) in GD. exact GD.
           ++ now apply get_None.
      * destruct (get current k) as [w|] eqn:GC; [|reflexivity].
        exfalso. apply D, KD. split.
        -- apply get_In in GC. apply (in_map fst) in GC. exact GC.
        -- now apply get_None.
  - intros k v GD GC. split; [|split].
    + apply get_None. rewrite KA. intros [_ N]. apply get_None in N. congruence.
    + apply get_None. rewrite KM. intros (v' & w & I & G & NE).
      apply (In_get desired k v' ND) in I. congruence.
    + rewrite KD. intros [_ N]. apply get_None in N. congruence.
Qed.

Lemma calculate_route_diff_patches_witness :
  patched
    (fst (fst (calculate_route_diff [("10.254.0.3", "10.254.0.2")]
                                    [("10.254.0.4", "10.254.0.2")])))
    (snd (fst (calculate_route_diff [("10.254.0.3", "10.254.0.2")]
                                    [("10.254.0.4", "10.254.0.2")])))
    (snd (calculate_route_diff [("10.254.0.3", "10.254.0.2")]
                               [("10.254.0.4", "10.254.0.2")]))
    [("10.254.0.4", "10.254.0.2")] "10.254.0.4"
  = None.
Proof.
  apply (proj1 (calculate_route_diff_patches
                  [("10.254.0.3", "10.254.0.2")]
                  [("10.254.0.4", "10.254.0.2")]
                  ltac:(repeat constructor; simpl; tauto))).
Defined.

End ExecutorExtra.

(* ================================================================== *)
(** * More facts about agent/client.py *)

Module ClientExtra.
Import Models World Client Scenarios ClientExtraSpec ClientFacts.

Lemma count_posts_app (h1 h2 : list event) :
  count_posts (h1 ++ h2) = count_posts h1 + count_posts h2.
Proof.
  induction h1 as [|e h1 IH]; simpl; [reflexivity|].
  destruct e; simpl; now rewrite IH.
Qed.

(** X8.  When no request for the routes is answered by a 200 with a valid
    route list, [fetch_routes_with_retry] answers [None] after exactly
    [retry_attempts] requests, each but the last followed by the backoff
    [retry_backoff[min(attempt, len - 1)]]: nothing is sent when
    [retry_attempts <= 0], and no sleep follows the last request. *)
Theorem fetch_routes_with_retry_exhausted (env : Env)
    (self : ControllerClient) (agent_id : string) (h : list event) :
  usable_backoff self ->
  (forall h', failed_fetch (requests_get env h' agent_id) = true) ->
  exists added,
    fetch_routes_with_retry env self agent_id h = (Ok None, h ++ added)
    /\ added = flat_map (fun a => EvGet agent_id
                                  :: if (a <? retry_attempts self - 1)%Z
                                     then [EvSleep (backoff_delay self a)]
                                     else [])
                        (range (retry_attempts self))
    /\ gets added = repeat agent_id (Z.to_nat (retry_attempts self))
    /\ sleeps added
       = map (backoff_delay self) (range (retry_attempts self - 1))
    /\ (forall s, In s (sleeps added) -> In s (retry_backoff self)).
Proof.
  intros U F. pose proof (proj1 U) as NE.
  eexists. split; [|split; [reflexivity|]].
  - apply (fetch_routes_with_retry_trace env self agent_id h U F).
  - rewrite exhausted_gets, exhausted_sleeps, range_length, range_but_last.
    split; [reflexivity|]. split; [reflexivity|].
    intros s I. apply in_map_iff in I. destruct I as (a & <- & I).
    apply range_bound in I. unfold backoff_delay. apply nth_In.
    destruct (retry_backoff self) as [|d ds]; [congruence|].
    cbn [List.length]. lia.
Qed.

Lemma fetch_routes_with_retry_exhausted_witness :
  exists added,
    fetch_routes_with_retry unknown_agent_env default_client "10.254.0.1" []
    = (Ok None, [] ++ added)
    /\ gets added = ["10.254.0.1"; "10.254.0.1"; "10.254.0.1"]
    /\ sleeps added = [1; 2]%Z.
Proof.
  destruct (fetch_routes_with_retry_exhausted unknown_agent_env
              default_client "10.254.0.1" [])
    as (added & E & _ & G & S & _).
  - split; [discriminate | repeat constructor; discriminate].
  - intros h'. reflexivity.
  - exists added. split; [exact E|]. split; [exact G | exact S].
Defined.

(** The operation [send_telemetry_with_retry] hands to the loop. *)
Lemma send_operation_run (env : Env) (self : ControllerClient)
    (telemetry : TelemetryRequest) (h : list event) :
  bind (send_telemetry env self telemetry)
       (fun success => ret (if success then Some true else None)) h
  = (Ok (if failed_post (requests_post env h telemetry)
         then None else Some true),
     h ++ [EvPost telemetry]).
Proof.
  cbv beta delta [bind send_telemetry post failed_post].
  destruct (requests_post env h telemetry) as [st body| | | |];
    try reflexivity.
  destruct st as [|p|p]; try reflexivity.
  do 8 (destruct p as [p|p|]; try reflexivity).
Qed.

(** The loop against a scripted controller: the attempts numbered from the
    count of reports already sent fail as long as the script says so. *)
Lemma send_loop_scripted (self : ControllerClient)
    (telemetry : TelemetryRequest) (body : http_body)
    (fails : list http_outcome) :
  usable_backoff self ->
  Forall (fun o => failed_post o = true) fails ->
  forall (done : list http_outcome) (h : list event) (rest : list Z),
    count_posts h = List.length done ->
    (Z.of_nat (List.length done + List.length fails)
     < retry_attempts self)%Z ->
    retry_attempts_loop self
      (bind (send_telemetry
               (scripted_post_env (done ++ fails ++ [Response 200 body]))
               self telemetry)
            (fun success => ret (if success then Some true else None)))
      (map Z.of_nat (seq (List.length done) (List.length fails))
       ++ Z.of_nat (List.length done + List.length fails) :: rest) h
    = (Ok true,
       h ++ flat_map (fun a => [EvPost telemetry;
                                EvSleep (backoff_delay self a)])
                     (map Z.of_nat (seq (List.length done)
                                        (List.length fails)))
         ++ [EvPost telemetry]).
Proof.
  intros U.
  induction 1 as [|o fails Fo Ff IH]; intros done h rest C B.
  - cbn [List.length seq map app flat_map]. rewrite Nat.add_0_r.
    apply ClientFacts.retry_attempts_loop_hit.
    rewrite send_operation_run.
    cbn [scripted_post_env requests_post]. rewrite C.
    rewrite app_nth2 by lia. rewrite Nat.sub_diag. reflexivity.
  - cbn [List.length seq map app flat_map].
    rewrite (retry_attempts_loop_miss self _ _ _ h (h ++ [EvPost telemetry])
               U).
    + cbn [List.length] in B.
      destruct (Z.ltb_spec (Z.of_nat (List.length done))
                           (retry_attempts self - 1)) as [_|G]; [|lia].
      specialize (IH (done ++ [o])
                     ((h ++ [EvPost telemetry])
                      ++ [EvSleep (backoff_delay self
                                     (Z.of_nat (List.length done)))])
                     rest).
      rewrite length_app in IH. cbn [List.length] in IH.
      replace ((done ++ [o]) ++ fails ++ [Response 200 body])
        with (done ++ (o :: fails) ++ [Response 200 body]) in IH
        by (rewrite <- app_assoc; reflexivity).
      cbn [app] in IH.
      replace (List.length done + 1) with (S (List.length done)) in IH by lia.
      replace (S (List.length done) + List.length fails)
        with (List.length done + S (List.length fails)) in IH by lia.
      rewrite IH.
      * f_equal. rewrite <- !app_assoc. reflexivity.
      * rewrite !count_posts_app. cbn [count_posts]. lia.
      * exact B.
    + left. rewrite send_operation_run.
      cbn [scripted_post_env requests_post]. rewrite C.
      rewrite app_nth2 by lia. rewrite Nat.sub_diag. cbn [app nth].
      rewrite Fo. reflexivity.
Qed.

(** X9.  Against a controller that fails the first [k] reports and then
    accepts one, with [k < retry_attempts], [send_telemetry_with_retry]
    answers [True] after [k + 1] POSTs; each failed one is followed by its
    backoff, the accepted one by nothing. *)
Theorem send_telemetry_with_retry_recovers (self : ControllerClient)
    (telemetry : TelemetryRequest) (body : http_body)
    (fails : list http_outcome) :
  usable_backoff self ->
  Forall (fun o => failed_post o = true) fails ->
  (Z.of_nat (List.length fails) < retry_attempts self)%Z ->
  send_telemetry_with_retry
    (scripted_post_env (fails ++ [Response 200 body])) self telemetry []
  = (Ok true,
     flat_map (fun a => [EvPost telemetry; EvSleep (backoff_delay self a)])
              (range (Z.of_nat (List.length fails)))
     ++ [EvPost telemetry]).
Proof.
  intros U Ff B.
  unfold send_telemetry_with_retry, _retry_with_backoff, try_except.
  assert (R : range (retry_attempts self)
              = map Z.of_nat (seq 0 (List.length fails))
                ++ Z.of_nat (0 + List.length fails)
                   :: map Z.of_nat
                        (seq (S (List.length fails))
                             (Z.to_nat (retry_attempts self)
                              - S (List.length fails)))).
  { unfold range.
    replace (Z.to_nat (retry_attempts self))
      with (List.length fails
            + S (Z.to_nat (retry_attempts self) - S (List.length fails)))
      at 1 by lia.
    rewrite seq_app, map_app. cbn [seq map]. reflexivity. }
  rewrite R.
  pose proof (send_loop_scripted self telemetry body fails U Ff [] []
                (map Z.of_nat
                   (seq (S (List.length fails))
                        (Z.to_nat (retry_attempts self)
                         - S (List.length fails))))
                eq_refl) as L.
  cbn [app List.length] in L. rewrite L by (cbn [Nat.add]; lia).
  unfold range. rewrite Nat2Z.id. reflexivity.
Qed.

Lemma send_telemetry_with_retry_recovers_witness :
  send_telemetry_with_retry
    (scripted_post_env [HttpTimeout; Response 500 BodyNotJson;
                        Response 200 BodyNotJson])
    default_client a_report []
  = (Ok true,
     [EvPost a_report; EvSleep 1; EvPost a_report; EvSleep 2;
      EvPost a_report]).
Proof.
  apply (send_telemetry_with_retry_recovers default_client a_report
           BodyNotJson [HttpTimeout; Response 500 BodyNotJson]).
  - split; [discriminate | repeat constructor; discriminate].
  - repeat constructor.
  - reflexivity.
Defined.

(** A report none of whose attempts is accepted comes back as [False]. *)
Lemma send_telemetry_with_retry_lost (env : Env) (self : ControllerClient)
    (telemetry : TelemetryRequest) :
  usable_backoff self ->
  (forall h, failed_post (requests_post env h telemetry) = true) ->
  forall h, fst (send_telemetry_with_retry env self telemetry h) = Ok false.
Proof.
  intros U F h.
  unfold send_telemetry_with_retry, _retry_with_backoff, try_except.
  match goal with
  | |- context [retry_attempts_loop self ?op ?l h] =>
      pose proof (retry_attempts_loop_exhausted self op U) as X;
      destruct (retry_attempts_loop self op l h) as [r h1] eqn:E;
      assert (R : r = Raise RetryExhausted);
      [ specialize (X ltac:(intros h0; left;
                            rewrite send_operation_run, F;
                            reflexivity) l h);
        rewrite E in X; exact X
      | subst r; reflexivity ]
  end.
Qed.

(** Delays [time.sleep] accepts are in particular not negative. *)
Lemma sleepable_usable (self : ControllerClient) :
  retry_backoff self <> [] ->
  Forall sleepable (retry_backoff self) ->
  usable_backoff self.
Proof.
  intros NE S. split; [exact NE|].
  eapply Forall_impl; [|exact S]. intros d [L _]. exact L.
Qed.

(** The guard on the delays is needed: a negative backoff makes
    [time.sleep] raise [ValueError] between two attempts, outside the
    [try] of the loop, and the wrapper only catches [RetryExhausted]. *)
Example negative_backoff_escapes :
  fst (send_telemetry_with_retry down_env
         {| controller_url := controller_url default_client;
            timeout := timeout default_client;
            retry_attempts := 3;
            retry_backoff := [-1]%Z |}
         a_report [])
  = Raise ValueError.
Proof. reflexivity. Qed.

(** X10.  With a backoff list that is not empty and holds only delays
    [time.sleep] accepts ([0 <= d <= sleep_max]), neither wrapper raises,
    whatever the controller answers and whatever the number of attempts;
    when no attempt succeeds, [send_telemetry_with_retry] answers [False]
    and [fetch_routes_with_retry] answers [None]. *)
Theorem with_retry_never_raises (env : Env) (self : ControllerClient)
    (telemetry : TelemetryRequest) (agent_id : string) (h : list event) :
  retry_backoff self <> [] ->
  Forall sleepable (retry_backoff self) ->
  (exists sent, fst (send_telemetry_with_retry env self telemetry h) = Ok sent)
  /\ (exists routes,
         fst (fetch_routes_with_retry env self agent_id h) = Ok routes)
  /\ ((forall h', failed_post (requests_post env h' telemetry) = true) ->
      fst (send_telemetry_with_retry env self telemetry h) = Ok false)
  /\ ((forall h', failed_fetch (requests_get env h' agent_id) = true) ->
      fst (fetch_routes_with_retry env self agent_id h) = Ok None).
Proof.
  intros NE S. pose proof (sleepable_usable self NE S) as U.
  split; [|split; [|split]].
  - unfold send_telemetry_with_retry, _retry_with_backoff, try_except.
    match goal with
    | |- context [retry_attempts_loop self ?op ?l h] =>
        pose proof (retry_attempts_loop_outcome self op l h U) as E;
        destruct (retry_attempts_loop self op l h) as [[a|e] h1]
    end; cbn [fst] in E.
    + exists a. reflexivity.
    + subst e. exists false. reflexivity.
  - unfold fetch_routes_with_retry, _retry_with_backoff, try_except.
    unfold bind at 1.
    match goal with
    | |- context [retry_attempts_loop self ?op ?l h] =>
        pose proof (retry_attempts_loop_outcome self op l h U) as E;
        destruct (retry_attempts_loop self op l h) as [[a|e] h1]
    end; cbn [fst] in E.
    + exists (Some a). reflexivity.
    + subst e. exists None. reflexivity.
  - intros F. apply (send_telemetry_with_retry_lost env self telemetry U F).
  - intros F.
    rewrite (fetch_routes_with_retry_trace env self agent_id h U F).
    reflexivity.
Qed.

Lemma with_retry_never_raises_witness :
  (exists sent,
      fst (send_telemetry_with_retry down_env default_client a_report [])
      = Ok sent)
  /\ (exists routes,
         fst (fetch_routes_with_retry down_env default_client
                "10.254.0.1" []) = Ok routes)
  /\ fst (send_telemetry_with_retry down_env default_client a_report [])
     = Ok false
  /\ fst (fetch_routes_with_retry down_env default_client "10.254.0.1" [])
     = Ok None.
Proof.
  destruct (with_retry_never_raises down_env default_client a_report
              "10.254.0.1" []) as (S & R & F & N).
  - discriminate.
  - repeat constructor; discriminate.
  - split; [exact S|]. split; [exact R|].
    split; [apply F | apply N]; intros h'; simpl;
      [destruct (count_posts h')|]; reflexivity.
Defined.

End ClientExtra.

(* ================================================================== *)
(** * More facts about agent/main.py *)

Module AgentExtra.
Import Models World PyDict Executor Client Agent Scenarios ExecutorSpec
       ExecutorExtraSpec ClientExtraSpec AgentSpec AgentExtraSpec.

Lemma commands_app (h1 h2 : list event) :
  commands (h1 ++ h2) = commands h1 ++ commands h2.
Proof.
  induction h1 as [|e h1 IH]; simpl; [reflexivity|].
  destruct e; simpl; now rewrite IH.
Qed.

(** ** Histories only grow *)

Lemma retry_attempts_loop_extends {A : Type} (P : event -> Prop)
    (P_sleep : forall s, P (EvSleep s)) (self : ControllerClient)
    (operation : IO (option A)) :
  usable_backoff self ->
  extends P operation ->
  forall attempts, extends P (retry_attempts_loop self operation attempts).
Proof.
  intros U X attempts. induction attempts as [|attempt rest IH]; intros h.
  - exists []. simpl. rewrite app_nil_r. auto.
  - destruct (X h) as (added & E & F).
    assert (M : forall h1,
               operation h = (Ok None, h1)
               \/ (exists e, operation h = (Raise e, h1)) ->
               snd (operation h) = h1 ->
               exists more,
                 snd (retry_attempts_loop self operation (attempt :: rest) h)
                 = h ++ more /\ Forall P more).
    { intros h1 N S.
      rewrite (ClientFacts.retry_attempts_loop_miss self operation attempt
                 rest h h1 U N).
      rewrite <- S, E.
      match goal with
      | |- context [retry_attempts_loop self operation rest ?h2] =>
          destruct (IH h2) as (more & E' & F'); rewrite E'
      end.
      eexists. rewrite <- !app_assoc. split; [reflexivity|].
      apply Forall_app. split; [exact F|].
      apply Forall_app. split; [|exact F'].
      destruct (attempt <? retry_attempts self - 1)%Z; repeat constructor.
      apply P_sleep. }
    destruct (operation h) as [[[a|]|e] h1] eqn:O.
    + rewrite (ClientFacts.retry_attempts_loop_hit self operation attempt
                 rest h h1 a O).
      exists added. split; [exact E | exact F].
    + apply (M h1); [now left | reflexivity].
    + apply (M h1); [right; now exists e | reflexivity].
Qed.

(** The report with retries: a boolean, after POSTs and sleeps only. *)
Lemma send_telemetry_with_retry_extends (env : Env) (self : ControllerClient)
    (telemetry : TelemetryRequest) (h : list event) :
  usable_backoff self ->
  exists sent added,
    send_telemetry_with_retry env self telemetry h = (Ok sent, h ++ added)
    /\ Forall (report_or_sleep telemetry) added.
Proof.
  intros U.
  unfold send_telemetry_with_retry, _retry_with_backoff, try_except.
  match goal with
  | |- context [retry_attempts_loop self ?op ?l h] =>
      pose proof (ClientFacts.retry_attempts_loop_outcome self op l h U) as O;
      destruct (retry_attempts_loop_extends (report_or_sleep telemetry)
                  (fun _ => I)
                  self op U) with (attempts := l) (h := h) as (added & E & F);
      [| destruct (retry_attempts_loop self op l h) as [[a|e] h1] ]
  end.
  - intros h0. rewrite ClientExtra.send_operation_run. simpl.
    exists [EvPost telemetry]. split; [reflexivity|].
    constructor; [reflexivity | constructor].
  - simpl in E. subst h1. eauto.
  - simpl in E, O. subst h1 e. exists false, added. auto.
Qed.

(** The fetch with retries: a value, after GETs and sleeps only. *)
Lemma fetch_routes_with_retry_extends (env : Env) (self : ControllerClient)
    (agent_id : string) (h : list event) :
  usable_backoff self ->
  exists routes added,
    fetch_routes_with_retry env self agent_id h = (Ok routes, h ++ added)
    /\ Forall (fetch_or_sleep agent_id) added.
Proof.
  intros U.
  unfold fetch_routes_with_retry, _retry_with_backoff, try_except.
  unfold bind at 1.
  match goal with
  | |- context [retry_attempts_loop self ?op ?l h] =>
      pose proof (ClientFacts.retry_attempts_loop_outcome self op l h U) as O;
      destruct (retry_attempts_loop_extends (fetch_or_sleep agent_id)
                  (fun _ => I)
                  self op U) with (attempts := l) (h := h) as (added & E & F);
      [| destruct (retry_attempts_loop self op l h) as [[a|e] h1] ]
  end.
  - intros h0. rewrite ClientFacts.fetch_routes_run. simpl.
    exists [EvGet agent_id]. split; [reflexivity|].
    constructor; [reflexivity | constructor].
  - simpl in E. subst h1. simpl. eauto.
  - simpl in E, O. subst h1 e. exists None, added. auto.
Qed.

(** The flush: the listing, then deletions only; the interface and the
    subnet of the executor stay. *)
Lemma flush_all_routes_extends (env : Env) (self : Executor.Executor)
    (h : list event) :
  exists b self' added,
    flush_all_routes env self h = (Ok (b, self'), h ++ added)
    /\ wg_interface self' = wg_interface self
    /\ allowed_subnet self' = allowed_subnet self
    /\ (exists dels, added = EvRun listing_command
                             :: map (fun d => EvRun (del_command self d)) dels).
Proof.
  destruct (AgentFacts.get_current_routes_returns env self h)
    as ([routes self'] & G).
  assert (SE : wg_interface self' = wg_interface self
               /\ allowed_subnet self' = allowed_subnet self).
  { unfold get_current_routes in G. rewrite ExecutorFacts.bind_run in G.
    destruct (subprocess_run env h _) as [rc ? ?| |]; try (now inversion G).
    destruct (rc =? 0)%Z; now inversion G. }
  destruct SE as [SE1 SE2].
  unfold flush_all_routes. rewrite (FallbackFacts.bind_ok _ _ h _ _ G).
  destruct (is_empty routes).
  - exists true, self', [EvRun listing_command].
    split; [reflexivity|]. split; [exact SE1|]. split; [exact SE2|].
    exists []. reflexivity.
  - destruct (ExecutorExtra.apply_each_direct env self' (keys routes) true
                (h ++ [EvRun listing_command])) as (b & R & _).
    rewrite (FallbackFacts.bind_ok _ _ _ _ _ R).
    eexists b, self', _. rewrite <- app_assoc.
    split; [reflexivity|]. split; [exact SE1|]. split; [exact SE2|].
    eexists. cbn [app]. f_equal. apply map_ext. intros d.
    unfold del_command. now rewrite SE1.
Qed.

(** What [_enter_fallback_mode] does in each of the two states. *)
Lemma enter_fallback_run (env : Env) (a : Agent) (h : list event) :
  _enter_fallback_mode env (a, h)
  = if in_fallback_mode (state a) then (Ok tt, (a, h))
    else match flush_all_routes env (executor a) h with
         | (Ok (_, e), h') => (Ok tt, (fallen_back a e, h'))
         | (Raise x, h') => (Raise x, (fallen_back a (executor a), h'))
         end.
Proof.
  destruct a as [cfg [lm fb] pr ex cl].
  unfold _enter_fallback_mode, is_in_fallback_mode, get_self,
    set_fallback_mode, put_state, put_executor, io.
  cbv beta delta [bind ret]. simpl.
  destruct fb; simpl; [reflexivity|].
  destruct (flush_all_routes env ex h) as [[[b e]|x] h']; reflexivity.
Qed.

(** X11.  [_enter_fallback_mode] flushes on the transition only: an
    agent already in fallback mode is left as it is, without a single
    command; one that is not gets the flag set and the routes flushed
    once.  Entering twice in a row is the same as entering once. *)
Theorem enter_fallback_mode_once (env : Env) (a : Agent) (h : list event) :
  (in_fallback_mode (state a) = true ->
   _enter_fallback_mode env (a, h) = (Ok tt, (a, h)))
  /\ (in_fallback_mode (state a) = false ->
      exists b e h',
        flush_all_routes env (executor a) h = (Ok (b, e), h')
        /\ _enter_fallback_mode env (a, h) = (Ok tt, (fallen_back a e, h')))
  /\ bind (_enter_fallback_mode env) (fun _ => _enter_fallback_mode env) (a, h)
     = _enter_fallback_mode env (a, h).
Proof.
  rewrite enter_fallback_run.
  destruct (flush_all_routes_extends env (executor a) h)
    as (b & e & added & FL & _).
  split; [|split].
  - intros ->. reflexivity.
  - intros ->. exists b, e, (h ++ added). rewrite FL. auto.
  - unfold bind. rewrite enter_fallback_run.
    destruct (in_fallback_mode (state a)) eqn:F.
    + rewrite enter_fallback_run, F. reflexivity.
    + rewrite FL, enter_fallback_run. reflexivity.
Qed.

Lemma enter_fallback_mode_once_witness :
  _enter_fallback_mode quiet_env (fallen_back agent0 (executor agent0), [])
  = (Ok tt, (fallen_back agent0 (executor agent0), [])).
Proof.
  apply (proj1 (enter_fallback_mode_once quiet_env
                  (fallen_back agent0 (executor agent0)) [])).
  reflexivity.
Defined.


(** ** A whole sync cycle *)

Lemma same_setup_refl (a : Agent) : same_setup a a.
Proof. unfold same_setup. auto 10. Qed.

Lemma same_setup_trans (a b c : Agent) :
  same_setup a b -> same_setup b c -> same_setup a c.
Proof.
  unfold same_setup. intros (A1 & A2 & A3 & A4 & A5 & A6)
                            (B1 & B2 & B3 & B4 & B5 & B6).
  repeat split; congruence.
Qed.

Lemma removal_event_setup (a a' : Agent) (e : event) :
  same_setup a a' ->
  removal_event (executor a') e -> removal_event (executor a) e.
Proof.
  intros (_ & _ & _ & _ & W & _). destruct e; simpl; auto.
  unfold removal_only, del_command. rewrite W. auto.
Qed.

(** Entering fallback: the flag is set after removals only. *)
Lemma enter_fallback_cycle (env : Env) (a : Agent) (h : list event) :
  exists a' added,
    _enter_fallback_mode env (a, h) = (Ok tt, (a', h ++ added))
    /\ same_setup a a'
    /\ in_fallback_mode (state a') = true
    /\ Forall (removal_event (executor a)) added
    /\ (in_fallback_mode (state a) = false ->
        In (EvRun listing_command) added).
Proof.
  rewrite enter_fallback_run.
  destruct (in_fallback_mode (state a)) eqn:F.
  - exists a, []. rewrite app_nil_r. split; [reflexivity|].
    split; [apply same_setup_refl|]. split; [exact F|].
    split; [constructor | discriminate].
  - destruct (flush_all_routes_extends env (executor a) h)
      as (b & e & added & FL & W & N & dels & D).
    rewrite FL. exists (fallen_back a e), added. split; [reflexivity|].
    split; [unfold same_setup; simpl; auto 10|]. split; [reflexivity|].
    subst added. split; [|intros _; now left].
    constructor; [now left|].
    apply Forall_forall. intros x I. apply in_map_iff in I.
    destruct I as (d & <- & _). right. now exists d.
Qed.

(** After an accepted report the flag is cleared if it was set. *)
Lemma leave_fallback_setup (a : Agent) (h : list event) :
  exists a1,
    bind is_in_fallback_mode
         (fun fallback =>
            bind (if fallback then _exit_fallback_mode else ret tt)
                 (fun _ => ret FallThrough)) (a, h)
    = (Ok FallThrough, (a1, h))
    /\ same_setup a a1
    /\ in_fallback_mode (state a1) = false.
Proof.
  exists (if in_fallback_mode (state a) then recovered a else a).
  destruct a as [cfg [lm fb] pr ex cl].
  destruct fb; unfold same_setup; simpl; auto 10.
Qed.

Lemma call_sync_routes_raises (env : Env) (routes : list RouteConfig)
    (s : Agent * list event) :
  call_sync_routes env routes s = (Raise (AttributeError "sync_routes"), s).
Proof. reflexivity. Qed.

Lemma try_except_run {S A : Type} (c : M S A) (handler : exn -> M S A)
    (s : S) :
  try_except c handler s
  = match c s with
    | (Ok x, s') => (Ok x, s')
    | (Raise e, s') => handler e s'
    end.
Proof. reflexivity. Qed.

Lemma Forall_cycle_post (self : Executor.Executor)
    (report : TelemetryRequest -> Prop) (agent_id : string)
    (t : TelemetryRequest) (l : list event) :
  report t ->
  Forall (report_or_sleep t) l -> Forall (cycle_event self report agent_id) l.
Proof.
  intros R. apply Forall_impl. intros e. destruct e; simpl; try tauto.
  now intros ->.
Qed.

Lemma Forall_cycle_get (self : Executor.Executor)
    (report : TelemetryRequest -> Prop) (agent_id : string) (l : list event) :
  Forall (fetch_or_sleep agent_id) l ->
  Forall (cycle_event self report agent_id) l.
Proof. apply Forall_impl. intros e. destruct e; simpl; tauto. Qed.

Lemma Forall_cycle_removal (a a' : Agent)
    (report : TelemetryRequest -> Prop) (agent_id : string) (l : list event) :
  same_setup a a' ->
  Forall (removal_event (executor a')) l ->
  Forall (cycle_event (executor a) report agent_id) l.
Proof.
  intros S. apply Forall_impl. intros e R.
  apply (removal_event_setup a a') in R; [|exact S].
  destruct e; simpl in *; tauto.
Qed.

(** The events of one iteration of the executor loop. *)
Lemma sync_cycle_events (env : Env) (a : Agent) (h : list event) :
  (0 <= sync_interval (config a))%Z ->
  usable_backoff (client a) ->
  exists a' added,
    executor_loop_body env (a, h)
    = (Ok tt, (a', h ++ added ++ [EvSleep (sync_interval (config a))]))
    /\ same_setup a a'
    /\ Forall (cycle_event (executor a) (sent_report env a h)
                           (agent_id (config a))) added
    /\ (latest_metrics (state a) = None -> a' = a /\ added = []).
Proof.
  intros SI U.
  set (known := cycle_event (executor a) (sent_report env a h)
                            (agent_id (config a))).
  assert (LMa : latest_metrics (state a) = latest_metrics (state a))
    by reflexivity.
  revert LMa. generalize (latest_metrics (state a)) at 2 3.
  intros lm LMa.
  unfold executor_loop_body. rewrite try_except_run.
  rewrite (FallbackFacts.bind_ok _ _ (a, h) (a, h) lm);
    [|unfold get_metrics, get_self, bind, ret; simpl; now rewrite LMa].
  rewrite (FallbackFacts.bind_ok _ _ (a, h) (a, h) a); [|reflexivity].
  cbv beta.
  destruct lm as [metrics|].
  2:{ exists a, []. rewrite (FallbackFacts.io_sleep _ a h SI).
      split; [reflexivity|]. split; [apply same_setup_refl|].
      split; [constructor | auto]. }
  rewrite (FallbackFacts.bind_ok _ _ (a, h) (a, h) (World.now env h));
    [|reflexivity].
  set (telemetry := {| Models.agent_id := agent_id (config a);
                       timestamp := World.now env h;
                       Models.metrics := metrics |}).
  destruct (valid_TelemetryRequest telemetry) eqn:V.
  2:{ change (negb false) with true. cbv iota.
      exists a, []. unfold raise at 1. cbv iota beta.
      rewrite (FallbackFacts.bind_ok _ _ (a, h) (a, h) a); [|reflexivity].
      rewrite (FallbackFacts.io_sleep _ a h SI).
      split; [reflexivity|]. split; [apply same_setup_refl|].
      split; [constructor | discriminate]. }
  assert (SR : sent_report env a h telemetry).
  { exists metrics. split; [exact LMa|]. split; [reflexivity | exact V]. }
  change (negb true) with false. cbv iota.
  destruct (send_telemetry_with_retry_extends env (client a) telemetry h U)
    as (sent & added1 & SE & F1).
  apply (Forall_cycle_post (executor a) (sent_report env a h)
           (agent_id (config a)) telemetry added1 SR) in F1.
  fold known in F1.
  destruct sent.
  - (* the report is accepted *)
    destruct (leave_fallback_setup a (h ++ added1)) as (a1 & L & S1 & _).
    rewrite (FallbackFacts.bind_ok _ _ (a, h) (a1, h ++ added1) FallThrough).
    2:{ apply FallbackFacts.try_except_ok.
        rewrite (FallbackFacts.bind_ok _ _ (a, h) (a, h ++ added1) true).
        - exact L.
        - now rewrite FallbackFacts.io_run, SE. }
    cbv iota.
    destruct (fetch_routes_with_retry_extends env (client a)
                (agent_id (config a)) (h ++ added1) U)
      as (routes & added2 & FE & F2).
    apply (Forall_cycle_get (executor a) (sent_report env a h)) in F2.
    fold known in F2.
    destruct routes as [routes|].
    + (* routes arrive: the call of the missing method raises *)
      unfold bind at 1. rewrite try_except_run.
      rewrite (FallbackFacts.bind_ok _ _ (a1, h ++ added1)
                 (a1, (h ++ added1) ++ added2) (Some routes));
        [|now rewrite FallbackFacts.io_run, FE].
      cbv iota. unfold bind at 1. rewrite call_sync_routes_raises.
      cbn [on_retry_exhausted]. unfold raise at 1. cbv iota beta.
      rewrite (FallbackFacts.bind_ok _ _ _ (a1, (h ++ added1) ++ added2) a1);
        [|reflexivity].
      replace (config a1) with (config a) by (symmetry; apply S1).
      rewrite (FallbackFacts.io_sleep _ a1 _ SI).
      exists a1, (added1 ++ added2).
      rewrite <- !app_assoc. split; [reflexivity|]. split; [exact S1|].
      split; [apply Forall_app; auto | discriminate].
    + (* no routes: fallback *)
      destruct (enter_fallback_cycle env a1 ((h ++ added1) ++ added2))
        as (a2 & added3 & EF & S2 & _ & F3 & _).
      apply (Forall_cycle_removal a a1 (sent_report env a h)
               (agent_id (config a))) in F3; [|exact S1].
      fold known in F3.
      rewrite (FallbackFacts.bind_ok _ _ (a1, h ++ added1)
                 (a2, (((h ++ added1) ++ added2) ++ added3)
                      ++ [EvSleep (sync_interval (config a))])
                 Continue).
      2:{ apply FallbackFacts.try_except_ok.
          rewrite (FallbackFacts.bind_ok _ _ (a1, h ++ added1)
                     (a1, (h ++ added1) ++ added2) None);
            [|now rewrite FallbackFacts.io_run, FE].
          cbv iota.
          rewrite (FallbackFacts.bind_ok _ _ _ _ tt EF).
          rewrite (FallbackFacts.bind_ok _ _ _
                     (a2, (((h ++ added1) ++ added2) ++ added3)
                          ++ [EvSleep (sync_interval (config a))]) tt);
            [reflexivity|].
          now apply FallbackFacts.io_sleep. }
      cbv iota. unfold ret at 1.
      exists a2, (added1 ++ added2 ++ added3).
      rewrite <- !app_assoc. split; [reflexivity|].
      split; [apply (same_setup_trans a a1 a2); assumption|].
      split; [repeat (apply Forall_app; split); auto | discriminate].
  - (* the report is lost: fallback *)
    destruct (enter_fallback_cycle env a (h ++ added1))
      as (a2 & added3 & EF & S2 & _ & F3 & _).
    apply (Forall_cycle_removal a a (sent_report env a h)
             (agent_id (config a))) in F3; [|apply same_setup_refl].
    fold known in F3.
    rewrite (FallbackFacts.bind_ok _ _ (a, h)
               (a2, ((h ++ added1) ++ added3)
                    ++ [EvSleep (sync_interval (config a))])
               Continue).
    2:{ apply FallbackFacts.try_except_ok.
        rewrite (FallbackFacts.bind_ok _ _ (a, h) (a, h ++ added1) false);
          [|now rewrite FallbackFacts.io_run, SE].
        change (negb false) with true. cbv iota.
        rewrite (FallbackFacts.bind_ok _ _ _ _ tt EF).
        rewrite (FallbackFacts.bind_ok _ _ _
                   (a2, ((h ++ added1) ++ added3)
                        ++ [EvSleep (sync_interval (config a))]) tt);
          [reflexivity|].
        now apply FallbackFacts.io_sleep. }
    cbv iota. unfold ret at 1.
    exists a2, (added1 ++ added3).
    rewrite <- !app_assoc. split; [reflexivity|]. split; [exact S2|].
    split; [apply Forall_app; auto | discriminate].
Qed.

(** X12.  One iteration of the executor loop never raises and always ends
    with the sleep of [sync_interval], whatever the controller and the
    [ip] command answer.  It keeps the configuration, the client, the
    prober and the published measurements; it sends no probe; and the only
    commands it runs are the listing of the table and deletions of host
    routes on the WireGuard interface: it never installs a route. *)
Theorem executor_loop_body_cycle (env : Env) (a : Agent) (h : list event) :
  (0 <= sync_interval (config a))%Z ->
  usable_backoff (client a) ->
  exists a' added,
    executor_loop_body env (a, h)
    = (Ok tt, (a', h ++ added ++ [EvSleep (sync_interval (config a))]))
    /\ same_setup a a'
    /\ pings added = []
    /\ (forall c, In c (commands added) -> removal_only (executor a) c)
    /\ (latest_metrics (state a) = None -> a' = a /\ added = []).
Proof.
  intros SI U.
  destruct (sync_cycle_events env a h SI U) as (a' & added & E & S & F & N).
  exists a', added. split; [exact E|]. split; [exact S|].
  split; [|split; [|exact N]].
  - clear E N. induction F as [|e l Fe Fl IH]; [reflexivity|].
    destruct e; simpl in *; tauto.
  - clear E N. induction F as [|e l Fe Fl IH]; [intros ? []|].
    intros c. destruct e; simpl in *; auto.
    intros [<-|I]; auto.
Qed.

Lemma executor_loop_body_cycle_witness :
  exists a' added,
    executor_loop_body denied_env (agent0, [])
    = (Ok tt, (a', [] ++ added ++ [EvSleep 10]))
    /\ same_setup agent0 a'
    /\ pings added = [].
Proof.
  destruct (executor_loop_body_cycle denied_env agent0 [])
    as (a' & added & E & S & P & _).
  - discriminate.
  - split; [discriminate | repeat constructor; discriminate].
  - exists a', added. auto.
Defined.

Lemma gets_report_or_sleep (t : TelemetryRequest) (l : list event) :
  Forall (report_or_sleep t) l -> gets l = [].
Proof.
  induction 1 as [|e l Fe Fl IH]; [reflexivity|].
  destruct e; simpl in *; tauto.
Qed.

Lemma gets_removal (self : Executor.Executor) (l : list event) :
  Forall (removal_event self) l -> gets l = [].
Proof.
  induction 1 as [|e l Fe Fl IH]; [reflexivity|].
  destruct e; simpl in *; tauto.
Qed.

(** X13.  When the controller accepts none of the attempts to report, the
    cycle ends with the agent in fallback mode, and the routes are not
    asked for: no GET is sent.  An agent that was not in fallback mode
    before lists the routing table to flush it. *)
Theorem lost_report_enters_fallback (env : Env) (a : Agent) (h : list event)
    (metrics : list Metric) :
  latest_metrics (state a) = Some metrics ->
  metrics <> [] ->
  (0 < World.now env h)%Z ->
  (0 <= sync_interval (config a))%Z ->
  usable_backoff (client a) ->
  (forall h' t, failed_post (requests_post env h' t) = true) ->
  exists a' added,
    executor_loop_body env (a, h) = (Ok tt, (a', h ++ added))
    /\ in_fallback_mode (state a') = true
    /\ gets added = []
    /\ (in_fallback_mode (state a) = false ->
        In listing_command (commands added)).
Proof.
  intros LM NE TS SI U F.
  set (telemetry := {| Models.agent_id := agent_id (config a);
                       timestamp := World.now env h;
                       Models.metrics := metrics |}).
  destruct (send_telemetry_with_retry_extends env (client a) telemetry h U)
    as (sent & added1 & SE & F1).
  assert (L : sent = false).
  { pose proof (ClientExtra.send_telemetry_with_retry_lost env (client a)
                  telemetry U (fun h' => F h' telemetry) h) as X.
    rewrite SE in X. simpl in X. congruence. }
  subst sent.
  destruct (enter_fallback_cycle env a (h ++ added1))
    as (a2 & added3 & EF & S2 & FB & F3 & LS).
  exists a2, (added1 ++ added3 ++ [EvSleep (sync_interval (config a))]).
  split; [|split; [exact FB|split]].
  - unfold executor_loop_body.
    apply FallbackFacts.try_except_ok.
    rewrite (FallbackFacts.bind_ok _ _ (a, h) (a, h) (Some metrics));
      [|unfold get_metrics, get_self, bind, ret; simpl; now rewrite LM].
    rewrite (FallbackFacts.bind_ok _ _ (a, h) (a, h) a); [|reflexivity].
    cbv beta iota.
    rewrite (FallbackFacts.bind_ok _ _ (a, h) (a, h) (World.now env h));
      [|reflexivity].
    fold telemetry.
    assert (V : valid_TelemetryRequest telemetry = true).
    { unfold valid_TelemetryRequest, telemetry. simpl.
      apply Z.ltb_lt in TS. rewrite TS.
      destruct metrics; [congruence | reflexivity]. }
    rewrite V. change (negb true) with false. cbv iota.
    rewrite (FallbackFacts.bind_ok _ _ (a, h)
               (a2, ((h ++ added1) ++ added3)
                    ++ [EvSleep (sync_interval (config a))])
               Continue).
    + cbv iota. unfold ret. rewrite <- !app_assoc. reflexivity.
    + apply FallbackFacts.try_except_ok.
      rewrite (FallbackFacts.bind_ok _ _ (a, h) (a, h ++ added1) false);
        [|now rewrite FallbackFacts.io_run, SE].
      change (negb false) with true. cbv iota.
      rewrite (FallbackFacts.bind_ok _ _ _ _ tt EF).
      rewrite (FallbackFacts.bind_ok _ _ _
                 (a2, ((h ++ added1) ++ added3)
                      ++ [EvSleep (sync_interval (config a))]) tt);
        [reflexivity|].
      now apply FallbackFacts.io_sleep.
  - rewrite !ClientFacts.gets_app, (gets_report_or_sleep _ _ F1),
      (gets_removal _ _ F3). reflexivity.
  - intros NF. specialize (LS NF).
    rewrite !commands_app. apply in_or_app. right. apply in_or_app. left.
    clear - LS. induction added3 as [|e l IH]; [destruct LS|].
    destruct LS as [->|I]; [now left|].
    destruct e; simpl; auto.
Qed.

Lemma lost_report_enters_fallback_witness :
  exists a' added,
    executor_loop_body (scripted_post_env []) (agent0, [])
    = (Ok tt, (a', [] ++ added))
    /\ in_fallback_mode (state a') = true
    /\ gets added = []
    /\ In listing_command (commands added).
Proof.
  destruct (lost_report_enters_fallback (scripted_post_env []) agent0 []
              [one_metric])
    as (a' & added & E & FB & G & L).
  - reflexivity.
  - discriminate.
  - reflexivity.
  - discriminate.
  - split; [discriminate | repeat constructor; discriminate].
  - intros h' t. simpl. destruct (count_posts h'); reflexivity.
  - exists a', added. split; [exact E|]. split; [exact FB|].
    split; [exact G|]. apply L. reflexivity.
Defined.

(** X14.  A cycle in which the report is accepted at once and the fetch is
    answered at once with a valid route list, whatever the list: the agent
    leaves fallback mode if it was in it, and the cycle consists of the
    report, the fetch and the final sleep.  No command is run, so none of
    the fetched routes is installed. *)
Theorem accepted_cycle_applies_nothing (env : Env) (a : Agent)
    (h : list event) (metrics : list Metric) (body : http_body)
    (routes : list RouteConfig) :
  let telemetry := {| Models.agent_id := agent_id (config a);
                      timestamp := World.now env h;
                      Models.metrics := metrics |} in
  latest_metrics (state a) = Some metrics ->
  metrics <> [] ->
  (0 < World.now env h)%Z ->
  (0 <= sync_interval (config a))%Z ->
  (0 < retry_attempts (client a))%Z ->
  requests_post env h telemetry = Response 200 body ->
  requests_get env (h ++ [EvPost telemetry]) (agent_id (config a))
  = Response 200 (BodyRoutes routes) ->
  executor_loop_body env (a, h)
  = (Ok tt,
     (recovered a,
      h ++ [EvPost telemetry; EvGet (agent_id (config a));
            EvSleep (sync_interval (config a))])).
Proof.
  intros telemetry LM NE TS SI RA P G.
  destruct (ClientFacts.range_pos _ RA) as [rest R].
  assert (FE : fetch_routes_with_retry env (client a) (agent_id (config a))
                 (h ++ [EvPost telemetry])
               = (Ok (Some routes),
                  (h ++ [EvPost telemetry]) ++ [EvGet (agent_id (config a))])).
  { unfold fetch_routes_with_retry, _retry_with_backoff, try_except, bind.
    rewrite R.
    rewrite (ClientFacts.retry_attempts_loop_hit (client a) _ 0%Z rest
               (h ++ [EvPost telemetry])
               ((h ++ [EvPost telemetry]) ++ [EvGet (agent_id (config a))])
               routes); [reflexivity|].
    rewrite ClientFacts.fetch_routes_run, G. reflexivity. }
  assert (L : bind is_in_fallback_mode
                (fun fallback =>
                   bind (if fallback then _exit_fallback_mode else ret tt)
                        (fun _ => ret FallThrough))
                (a, h ++ [EvPost telemetry])
              = (Ok FallThrough, (recovered a, h ++ [EvPost telemetry]))).
  { destruct a as [cfg [lm fb] pr ex cl]. destruct fb; reflexivity. }
  unfold executor_loop_body. rewrite try_except_run.
  rewrite (FallbackFacts.bind_ok _ _ (a, h) (a, h) (Some metrics));
    [|unfold get_metrics, get_self, bind, ret; simpl; now rewrite LM].
  rewrite (FallbackFacts.bind_ok _ _ (a, h) (a, h) a); [|reflexivity].
  cbv beta iota.
  rewrite (FallbackFacts.bind_ok _ _ (a, h) (a, h) (World.now env h));
    [|reflexivity].
  fold telemetry.
  assert (V : valid_TelemetryRequest telemetry = true).
  { unfold valid_TelemetryRequest, telemetry. simpl.
    apply Z.ltb_lt in TS. rewrite TS.
    destruct metrics; [congruence | reflexivity]. }
  rewrite V. change (negb true) with false. cbv iota.
  rewrite (FallbackFacts.bind_ok _ _ (a, h)
             (recovered a, h ++ [EvPost telemetry]) FallThrough).
  2:{ apply FallbackFacts.try_except_ok.
      rewrite (FallbackFacts.bind_ok _ _ (a, h) (a, h ++ [EvPost telemetry])
                 true).
      - exact L.
      - rewrite FallbackFacts.io_run.
        now rewrite (ClientFacts.send_telemetry_with_retry_ok
                       env (client a) telemetry h body RA P). }
  cbv iota. unfold bind at 1. rewrite try_except_run.
  rewrite (FallbackFacts.bind_ok _ _ (recovered a, h ++ [EvPost telemetry])
             (recovered a,
              (h ++ [EvPost telemetry]) ++ [EvGet (agent_id (config a))])
             (Some routes));
    [|now rewrite FallbackFacts.io_run, FE].
  cbv iota. unfold bind at 1. rewrite call_sync_routes_raises.
  cbn [on_retry_exhausted]. unfold raise at 1. cbv iota beta.
  rewrite (FallbackFacts.bind_ok _ _ _
             (recovered a,
              (h ++ [EvPost telemetry]) ++ [EvGet (agent_id (config a))])
             (recovered a)); [|reflexivity].
  change (config (recovered a)) with (config a).
  rewrite (FallbackFacts.io_sleep _ _ _ SI).
  rewrite <- !app_assoc. reflexivity.
Qed.

Lemma accepted_cycle_applies_nothing_witness :
  executor_loop_body one_route_env
    (fallen_back agent0 (executor agent0), [])
  = (Ok tt, (agent0, [EvPost report0; EvGet "10.254.0.1"; EvSleep 10])).
Proof.
  apply (accepted_cycle_applies_nothing one_route_env
           (fallen_back agent0 (executor agent0)) [] [one_metric]
           BodyWithoutRoutes [relay_route]);
    try reflexivity; discriminate.
Defined.

(** ** The prober loop *)

(** Smoothing over peers that all have buffers: one metric per peer in
    order, or the [ValidationError] of a [Metric]; the history plays no
    part and is not touched. *)
Lemma smoothed_outcome (self : Prober.Prober) (peers : list string) :
  (forall p, In p peers -> get (Prober.buffers self) p <> None) ->
  forall acc : list Metric,
    (exists ms,
        (forall h, Prober.for_each (Prober.smoothed_step self) peers acc h
                   = (Ok (acc ++ ms), h))
        /\ map target_ip ms = peers
        /\ forallb valid_Metric ms = true)
    \/ (forall h, Prober.for_each (Prober.smoothed_step self) peers acc h
                  = (Raise ValidationError, h)).
Proof.
  induction peers as [|p peers IH]; intros B acc.
  - left. exists []. rewrite app_nil_r. split; [|split]; reflexivity.
  - destruct (get (Prober.buffers self) p) as [b|] eqn:G;
      [|exfalso; apply (B p); [now left | exact G]].
    set (metric := {| target_ip := p;
                      rtt_ms := Prober.get_moving_average (Prober.rtt b);
                      loss_rate :=
                        match Prober.get_moving_average (Prober.loss b) with
                        | Some l => l
                        | None => 0%float
                        end |}).
    cbn [Prober.for_each].
    destruct (valid_Metric metric) eqn:V.
    + assert (ST : forall h, Prober.smoothed_step self acc p h
                             = (Ok (acc ++ [metric]), h)).
      { intros h. unfold Prober.smoothed_step. rewrite G. cbv zeta.
        fold metric. now rewrite V. }
      destruct (IH (fun q I => B q (or_intror I)) (acc ++ [metric]))
        as [(ms & E & T & VM)|E].
      * left. exists (metric :: ms). split; [|split].
        -- intros h. rewrite (FallbackFacts.bind_ok _ _ _ _ _ (ST h)).
           rewrite E, <- app_assoc. reflexivity.
        -- simpl. now rewrite T.
        -- cbn [forallb]. now rewrite V, VM.
      * right. intros h. rewrite (FallbackFacts.bind_ok _ _ _ _ _ (ST h)).
        apply E.
    + right. intros h. unfold bind, Prober.smoothed_step. rewrite G.
      cbv zeta. fold metric. now rewrite V.
Qed.

Lemma with_prober_run {A : Type} (c : Prober.PM A) (a : Agent)
    (h : list event) :
  with_prober c (a, h)
  = (fst (c (prober a, h)),
     (probed a (fst (snd (c (prober a, h)))), snd (snd (c (prober a, h))))).
Proof.
  unfold with_prober. cbn [fst snd].
  destruct (c (prober a, h)) as [r [p h']]. reflexivity.
Qed.

(** X15.  One iteration of the prober loop over peers that all have
    buffers, with a [probe_interval] that [time.sleep] accepts, never
    raises: it probes every peer once, in the configured order, then
    sleeps [probe_interval], and runs no command and no request.  It
    leaves the configuration, the executor, the client and the fallback
    flag alone.  The buffers of every peer take the outcomes of its
    probes, and keep them whether or not the measurements are published:
    these are replaced by the smoothed metrics of the updated buffers, one
    per peer, in order, each within the field constraints of [Metric]; or,
    when an average fails the validation of [Metric], they are left as
    they were.  Every peer still has buffers afterwards, so the next
    iteration starts from the same condition. *)
Theorem prober_loop_body_cycle (env : Env) (a : Agent) (h : list event) :
  (forall p, In p (Prober.peer_ips (prober a)) ->
             get (Prober.buffers (prober a)) p <> None) ->
  sleepable (probe_interval (config a)) ->
  exists a',
    prober_loop_body env (a, h)
    = (Ok tt,
       (a', h ++ map EvPing (Prober.peer_ips (prober a))
              ++ [EvSleep (probe_interval (config a))]))
    /\ config a' = config a
    /\ executor a' = executor a
    /\ client a' = client a
    /\ in_fallback_mode (state a') = in_fallback_mode (state a)
    /\ Prober.peer_ips (prober a') = Prober.peer_ips (prober a)
    /\ (forall p b,
           get (Prober.buffers (prober a)) p = Some b ->
           get (Prober.buffers (prober a')) p
           = Some (fold_left ProberSpec.record_outcome
                     (ProberSpec.outcomes_of p
                        (ProberSpec.probes env h
                           (Prober.peer_ips (prober a)))) b))
    /\ ((exists metrics,
            (forall h', Prober.get_smoothed_metrics (prober a') h'
                        = (Ok metrics, h'))
            /\ latest_metrics (state a') = Some metrics
            /\ map target_ip metrics = Prober.peer_ips (prober a)
            /\ forallb valid_Metric metrics = true)
        \/ ((forall h', Prober.get_smoothed_metrics (prober a') h'
                        = (Raise ValidationError, h'))
            /\ latest_metrics (state a') = latest_metrics (state a)))
    /\ (forall p, In p (Prober.peer_ips (prober a')) ->
                  get (Prober.buffers (prober a')) p <> None).
Proof.
  intros B [SI _].
  destruct (ProberFacts.run_once_records env (prober a) h B)
    as (p' & RO & Each & PI).
  assert (B' : forall p, In p (Prober.peer_ips p') ->
                         get (Prober.buffers p') p <> None).
  { intros p I. rewrite PI in I.
    destruct (get (Prober.buffers (prober a)) p) as [b|] eqn:G;
      [|now apply B in I].
    rewrite (Each p b G). discriminate. }
  set (h1 := h ++ map EvPing (Prober.peer_ips (prober a))) in *.
  unfold prober_loop_body. rewrite try_except_run.
  rewrite (FallbackFacts.bind_ok _ _ (a, h) (a, h) a); [|reflexivity].
  unfold bind at 1. rewrite with_prober_run, RO. cbn [fst snd].
  destruct (smoothed_outcome p' (Prober.peer_ips p') B' [])
    as [(ms & E & T & VM)|E];
    fold (Prober.get_smoothed_metrics p') in E; rewrite (E h1);
    cbn [fst snd app].
  - exists (published a p' ms).
    rewrite (FallbackFacts.bind_ok _ _ (probed a p', h1)
               (published a p' ms, h1) tt); [|reflexivity].
    change (config (published a p' ms)) with (config a).
    rewrite (FallbackFacts.io_sleep _ _ _ SI). unfold h1.
    rewrite <- app_assoc. split; [reflexivity|]. cbn.
    repeat (split; [reflexivity|]). split; [exact PI|].
    split; [exact Each|]. split; [|exact B'].
    left. exists ms. split; [exact E|]. split; [reflexivity|].
    split; [now rewrite T, PI | exact VM].
  - exists (probed a p').
    rewrite (FallbackFacts.bind_ok _ _ _ (probed a p', h1) (probed a p'));
      [|reflexivity].
    change (config (probed a p')) with (config a).
    rewrite (FallbackFacts.io_sleep _ _ _ SI). unfold h1.
    rewrite <- app_assoc. split; [reflexivity|]. cbn.
    repeat (split; [reflexivity|]). split; [exact PI|].
    split; [exact Each|]. split; [|exact B'].
    right. split; [exact E | reflexivity].
Qed.

Lemma prober_loop_body_cycle_witness :
  exists a',
    prober_loop_body quiet_env (agent0, [])
    = (Ok tt, (a', [] ++ map EvPing ["10.254.0.2"] ++ [EvSleep 5]))
    /\ config a' = config agent0
    /\ option_map (fun b => Prober.buffer (Prober.loss b))
                  (get (Prober.buffers (prober a')) "10.254.0.2")
       = Some [1%float].
Proof.
  destruct (prober_loop_body_cycle quiet_env agent0 [])
    as (a' & E & C & _ & _ & _ & _ & Each & _).
  - intros p [<-|[]]. discriminate.
  - split; discriminate.
  - exists a'. split; [exact E|]. split; [exact C|].
    rewrite (Each "10.254.0.2" _ eq_refl). reflexivity.
Defined.

Lemma posts_app (h1 h2 : list event) :
  posts (h1 ++ h2) = posts h1 ++ posts h2.
Proof.
  induction h1 as [|e h1 IH]; simpl; [reflexivity|].
  destruct e; simpl; now rewrite IH.
Qed.

(** X25.  The reports of a sync cycle.  When the published measurements
    are within the field constraints of [Metric], as the prober loop
    leaves them, every report the cycle posts, retries included, is the
    same one: the agent's identifier, the time at the start of the cycle
    and the published measurements; and the telemetry endpoint of the
    controller accepts it with 200, never 422, whatever the state of the
    controller.  Every fetch of the cycle asks for the agent's own
    routes. *)
Theorem posted_reports_are_accepted (env : Env) (a : Agent) (h : list event)
    (metrics : list Metric) :
  latest_metrics (state a) = Some metrics ->
  forallb valid_Metric metrics = true ->
  (0 <= sync_interval (config a))%Z ->
  usable_backoff (client a) ->
  exists a' added,
    executor_loop_body env (a, h) = (Ok tt, (a', h ++ added))
    /\ (forall t, In t (posts added) ->
          t = cycle_report env a h metrics
          /\ forall ctl,
               fst (Api.receive_telemetry t ctl) = Api.Status200 tt)
    /\ (forall agent, In agent (gets added) -> agent = agent_id (config a)).
Proof.
  intros LM VM SI U.
  destruct (sync_cycle_events env a h SI U) as (a' & added & E & _ & F & _).
  exists a', (added ++ [EvSleep (sync_interval (config a))]).
  split; [exact E|].
  rewrite posts_app, ClientFacts.gets_app. cbn [posts gets].
  rewrite !app_nil_r. split.
  - intros t I.
    assert (SR : sent_report env a h t).
    { clear E. induction F as [|e l Fe Fl IH]; [destruct I|].
      destruct e; simpl in *; auto. destruct I as [<-|I]; auto. }
    destruct SR as (metrics0 & LM0 & -> & V).
    rewrite LM in LM0. injection LM0 as <-.
    split; [reflexivity|]. intros ctl.
    unfold Api.receive_telemetry, Api.valid_body. rewrite V.
    cbn [cycle_report Models.metrics]. rewrite VM. reflexivity.
  - intros agent I. clear E.
    induction F as [|e l Fe Fl IH]; [destruct I|].
    destruct e; simpl in *; auto. destruct I as [<-|I]; auto.
Qed.

Lemma posted_reports_are_accepted_witness :
  exists a' added,
    executor_loop_body unknown_agent_env (agent0, [])
    = (Ok tt, (a', [] ++ added))
    /\ (forall t, In t (posts added) ->
          t = cycle_report unknown_agent_env agent0 [] [one_metric]
          /\ forall ctl,
               fst (Api.receive_telemetry t ctl) = Api.Status200 tt).
Proof.
  destruct (posted_reports_are_accepted unknown_agent_env agent0 []
              [one_metric]) as (a' & added & E & P & _).
  - reflexivity.
  - reflexivity.
  - discriminate.
  - split; [discriminate | repeat constructor; discriminate].
  - exists a', added. split; [exact E | exact P].
Defined.

End AgentExtra.

(* ================================================================== *)
(** * Facts about controller/topology_db.py *)

Module TopologyFacts.
Import Models PyDict PyDictFacts Solver TopologyDB ControllerSpec.

Lemma keys_set_list {V : Type} (d : dict string V) (k : string) (v : V) :
  keys (set d k v) = if mem d k then keys d else keys d ++ [k].
Proof.
  unfold mem. induction d as [|[k0 v0] d IH]; simpl; [reflexivity|].
  destruct (String.eqb_spec k0 k) as [->|NE]; simpl; [reflexivity|].
  rewrite IH. now destruct (get d k).
Qed.

Lemma delete_absent {V : Type} (d : dict string V) (k : string) :
  ~ In k (keys d) -> delete d k = d.
Proof.
  induction d as [|[k0 v0] d IH]; simpl; [reflexivity|]. intros N.
  destruct (String.eqb_spec k0 k) as [->|NE]; [tauto|].
  rewrite IH; tauto.
Qed.

Lemma delete_app {V : Type} (kept d : dict string V) (k : string) (v : V) :
  ~ In k (keys kept) -> delete (kept ++ (k, v) :: d) k = kept ++ d.
Proof.
  induction kept as [|[k0 v0] kept IH]; simpl; intros N.
  - now rewrite String.eqb_refl.
  - destruct (String.eqb_spec k0 k) as [->|NE]; [tauto|].
    rewrite IH; tauto.
Qed.

Lemma remove_stale_fold (current_time max_age_seconds : Z)
    (suffix : dict string Entry) :
  forall (removed : list string) (kept : dict string Entry),
    NoDup (keys (kept ++ suffix)) ->
    fold_left (remove_if_stale current_time max_age_seconds) suffix
              (removed, kept ++ suffix)
    = (removed ++ keys (filter (stale current_time max_age_seconds) suffix),
       kept ++ filter (fun item =>
                         negb (stale current_time max_age_seconds item))
                      suffix).
Proof.
  induction suffix as [|[k e] suffix IH]; intros removed kept N.
  - simpl. now rewrite !app_nil_r.
  - cbn [fold_left remove_if_stale filter fst snd].
    rewrite Z.gtb_ltb.
    change (max_age_seconds <? current_time - entry_timestamp e)%Z
      with (stale current_time max_age_seconds (k, e)).
    assert (NK : ~ In k (keys kept)).
    { unfold keys in *. rewrite map_app in N. simpl in N.
      apply NoDup_remove_2 in N. rewrite in_app_iff in N. tauto. }
    destruct (stale current_time max_age_seconds (k, e)).
    + rewrite (delete_app kept suffix k e NK), IH.
      * cbn [negb keys map fst]. now rewrite <- app_assoc.
      * unfold keys in *. rewrite map_app in *. simpl in N.
        now apply NoDup_remove_1 in N.
    + replace (kept ++ (k, e) :: suffix) with ((kept ++ [(k, e)]) ++ suffix)
        by now rewrite <- app_assoc.
      rewrite IH.
      * cbn [negb]. now rewrite <- app_assoc.
      * now rewrite <- app_assoc.
Qed.

Lemma get_filter {V : Type} (f : string * V -> bool) (d : dict string V)
    (k : string) :
  NoDup (keys d) ->
  get (filter f d) k
  = match get d k with
    | Some v => if f (k, v) then Some v else None
    | None => None
    end.
Proof.
  induction d as [|[k0 v0] d IH]; simpl; [reflexivity|]. intros N.
  inversion N as [|? ? Hn Hd]; subst.
  destruct (String.eqb_spec k0 k) as [->|NE].
  - destruct (f (k, v0)) eqn:F; simpl.
    + now rewrite String.eqb_refl.
    + rewrite (IH Hd).
      destruct (get d k) eqn:G; [|reflexivity].
      apply get_In in G. apply (in_map fst) in G. tauto.
  - destruct (f (k0, v0)); simpl.
    + destruct (String.eqb_spec k0 k); [congruence|]. now apply IH.
    + now apply IH.
Qed.

(** X16.  Storing a report and reading it back: the agent's entry is the
    report just stored, whatever was there before; every other agent's
    entry is untouched; the agent is known from then on; and the list of
    agents keeps its order, a new agent going last. *)
Theorem store_telemetry_lookup (self : TopologyDatabase) (agent_id : string)
    (timestamp : Z) (metrics : dict string MetricData) :
  let self' := store_telemetry self agent_id timestamp metrics in
  get_agent_data self' agent_id
  = Some {| entry_timestamp := timestamp; entry_metrics := metrics |}
  /\ (forall other, other <> agent_id ->
        get_agent_data self' other = get_agent_data self other)
  /\ agent_exists self' agent_id = true
  /\ get_all_agents self'
     = (if agent_exists self agent_id then get_all_agents self
        else get_all_agents self ++ [agent_id])
  /\ get_agent_count self'
     = (if agent_exists self agent_id then get_agent_count self
        else S (get_agent_count self)).
Proof.
  intros self'. unfold self', get_agent_data, agent_exists, get_all_agents,
    get_agent_count, store_telemetry.
  split; [apply get_set_same|].
  split.
  { intros other NE. rewrite get_set.
    destruct (keqb_spec agent_id other); [congruence | reflexivity]. }
  split; [unfold mem; now rewrite get_set_same|].
  split; [apply keys_set_list|].
  rewrite <- !(length_map fst). fold (keys (set self agent_id
    {| entry_timestamp := timestamp; entry_metrics := metrics |})).
  fold (keys self). rewrite keys_set_list.
  destruct (mem self agent_id); [reflexivity|].
  rewrite length_app. simpl. lia.
Qed.

(** X17.  On a database in which no agent occurs twice,
    [remove_stale_agents] removes exactly the entries older than
    [max_age_seconds] (an entry of exactly that age stays), reports their
    agents in database order and keeps the other entries in order. *)
Theorem remove_stale_agents_exact (current_time : Z)
    (self : TopologyDatabase) (max_age_seconds : Z) :
  NoDup (get_all_agents self) ->
  let removed := fst (remove_stale_agents current_time self max_age_seconds) in
  let self' := snd (remove_stale_agents current_time self max_age_seconds) in
  removed = keys (filter (stale current_time max_age_seconds) self)
  /\ self' = filter (fun item =>
                       negb (stale current_time max_age_seconds item)) self
  /\ (forall agent_id,
        get_agent_data self' agent_id
        = match get_agent_data self agent_id with
          | Some e =>
              if (current_time - entry_timestamp e <=? max_age_seconds)%Z
              then Some e else None
          | None => None
          end)
  /\ (forall agent_id,
        In agent_id removed <->
        exists e, get_agent_data self agent_id = Some e
                  /\ (max_age_seconds
                      < current_time - entry_timestamp e)%Z).
Proof.
  intros N removed self'. unfold removed, self', remove_stale_agents, items.
  pose proof (remove_stale_fold current_time max_age_seconds self [] [] N)
    as R.
  cbn [app] in R. unfold TopologyDatabase, dict in *. rewrite R.
  cbn [app fst snd]. split; [reflexivity|]. split; [reflexivity|].
  unfold get_agent_data. split.
  - intros agent_id. rewrite (get_filter _ self agent_id N).
    destruct (get self agent_id) as [e|]; [|reflexivity].
    unfold stale. cbn [snd]. rewrite Z.leb_antisym. reflexivity.
  - intros agent_id. unfold keys. rewrite in_map_iff. split.
    + intros ([k e] & <- & I). apply filter_In in I. destruct I as [I S].
      exists e. split; [now apply In_get|].
      unfold stale in S. cbn [snd] in S. now apply Z.ltb_lt.
    + intros (e & G & L). exists (agent_id, e). split; [reflexivity|].
      apply filter_In. split; [now apply get_In|].
      unfold stale. cbn [snd]. now apply Z.ltb_lt.
Qed.

Lemma remove_stale_agents_exact_witness :
  fst (remove_stale_agents 200 two_reports 60) = ["A"]
  /\ snd (remove_stale_agents 200 two_reports 60)
     = [("B", {| entry_timestamp := 140; entry_metrics := empty |})].
Proof.
  destruct (remove_stale_agents_exact 200 two_reports 60) as (R & S & _).
  - repeat constructor; simpl; intuition discriminate.
  - split; [exact R | exact S].
Defined.

End TopologyFacts.

(* ================================================================== *)
(** * More facts about controller/solver.py *)

Module SolverExtra.
Import Models PyDict PyDictFacts Solver Scenarios SolverSpec ControllerSpec.

(** ** The graph *)

Lemma add_node_edges (G : DiGraph) (n : string) :
  edges (add_node G n) = edges G.
Proof. unfold add_node. now destruct (PyStr.list_in n (nodes G)). Qed.

Lemma add_node_extends (G : DiGraph) (n : string) :
  exists extra, nodes (add_node G n) = nodes G ++ extra.
Proof.
  unfold add_node. destruct (PyStr.list_in n (nodes G)).
  - exists []. now rewrite app_nil_r.
  - now exists [n].
Qed.

Lemma add_edge_nodes (G : DiGraph) (u v : string) (w : float) (x : string) :
  In x (nodes (add_edge G u v w)) <-> x = u \/ x = v \/ In x (nodes G).
Proof.
  unfold add_edge. cbn [nodes].
  rewrite !SolverFacts.add_node_nodes. tauto.
Qed.

Lemma add_edge_extends (G : DiGraph) (u v : string) (w : float) :
  exists extra, nodes (add_edge G u v w) = nodes G ++ extra.
Proof.
  unfold add_edge. cbn [nodes].
  destruct (add_node_extends G u) as [e1 E1].
  destruct (add_node_extends (add_node G u) v) as [e2 E2].
  exists (e1 ++ e2). now rewrite E2, E1, app_assoc.
Qed.

Lemma add_edge_edges (G : DiGraph) (u v : string) (w : float)
    (key : string * string) :
  get (edges (add_edge G u v w)) key
  = if keqb (u, v) key then Some w else get (edges G) key.
Proof.
  unfold add_edge. cbn [edges]. rewrite get_set, !add_node_edges.
  reflexivity.
Qed.

Lemma fold_add_node_edges (l : list string) (G : DiGraph) :
  edges (fold_left add_node l G) = edges G.
Proof.
  revert G. induction l as [|n l IH]; intros G; simpl; [reflexivity|].
  now rewrite IH, add_node_edges.
Qed.

Lemma fold_add_node_nodes (l : list string) (G : DiGraph) (x : string) :
  In x (nodes (fold_left add_node l G)) <-> In x l \/ In x (nodes G).
Proof.
  revert G. induction l as [|n l IH]; intros G; simpl; [tauto|].
  rewrite IH, SolverFacts.add_node_nodes. intuition congruence.
Qed.

(** The reporters are the first nodes, in the order of the topology. *)
Lemma fold_add_node_order (l : list string) :
  forall G,
    NoDup (nodes G ++ l) ->
    nodes (fold_left add_node l G) = nodes G ++ l.
Proof.
  induction l as [|n l IH]; intros G N; simpl.
  - now rewrite app_nil_r.
  - assert (NI : ~ In n (nodes G)).
    { apply NoDup_remove_2 in N. rewrite in_app_iff in N. tauto. }
    assert (E : nodes (add_node G n) = nodes G ++ [n]).
    { unfold add_node. apply SolverFacts.list_in_false in NI.
      now rewrite NI. }
    rewrite IH, E, <- app_assoc; [reflexivity|].
    rewrite E, <- app_assoc. exact N.
Qed.

(** The links of one report. *)
Lemma add_links_edges (self : RouteSolver) (source : string)
    (ms : dict string MetricData) (s t : string) :
  forall G,
    get (edges (fold_left (add_link self source) ms G)) (s, t)
    = if String.eqb source s
      then match get (rev ms) t with
           | Some md => Some (link_cost self md)
           | None => get (edges G) (s, t)
           end
      else get (edges G) (s, t).
Proof.
  induction ms as [|[t0 md0] ms IH] using rev_ind; intros G.
  - simpl. now destruct (String.eqb source s).
  - rewrite fold_left_app, rev_app_distr. cbn [fold_left rev app add_link].
    rewrite add_edge_edges, IH. cbn [get keqb Key_pair Key_string].
    unfold pair_eqb. cbn [fst snd].
    destruct (String.eqb source s); cbn [andb]; [|reflexivity].
    destruct (String.eqb t0 t); [|reflexivity].
    unfold link_cost, calculate_cost. destruct (rtt md0); reflexivity.
Qed.

Lemma get_rev {V : Type} (d : dict string V) (k : string) :
  NoDup (keys d) -> get (rev d) k = get d k.
Proof.
  induction d as [|[k0 v0] d IH]; intros N; [reflexivity|].
  inversion N as [|? ? Hn Hd]; subst. cbn [rev].
  assert (A : forall (a b : dict string V),
             get (a ++ b) k = match get a k with
                              | Some v => Some v
                              | None => get b k
                              end).
  { induction a as [|[ka va] a IHa]; intros b; simpl; [reflexivity|].
    destruct (String.eqb ka k); [reflexivity | apply IHa]. }
  rewrite A, (IH Hd). cbn [get keqb Key_string].
  destruct (String.eqb_spec k0 k) as [->|NE].
  - destruct (get d k) eqn:G; [|reflexivity].
    apply get_In in G. apply (in_map fst) in G. tauto.
  - now destruct (get d k).
Qed.

Lemma add_links_fold_edges (self : RouteSolver)
    (topology_data : dict string AgentData) (s t : string) :
  proper topology_data ->
  forall G,
    get (edges (fold_left (add_links self) topology_data G)) (s, t)
    = match link topology_data s t with
      | Some md => Some (link_cost self md)
      | None => get (edges G) (s, t)
      end.
Proof.
  unfold proper, link.
  induction topology_data as [|[s0 data] topo IH]; intros [N M] G.
  - reflexivity.
  - inversion N as [|? ? Hn Hd]; subst.
    cbn [fold_left add_links get keqb Key_string].
    rewrite IH.
    2:{ split; [exact Hd|]. intros s' d' m' I. apply (M s' d' m').
        now right. }
    assert (NM : match metrics data with
                 | Some m => NoDup (keys m)
                 | None => True
                 end).
    { destruct (metrics data) as [m|] eqn:E; [|exact I].
      apply (M s0 data m); [now left | exact E]. }
    rewrite add_links_edges.
    destruct (String.eqb_spec s0 s) as [->|NE].
    + destruct (get topo s) eqn:G'.
      { apply get_In in G'. apply (in_map fst) in G'. tauto. }
      destruct (metrics data) as [m|]; [|reflexivity].
      unfold items. now rewrite (get_rev m t NM).
    + reflexivity.
Qed.

Lemma add_links_nodes (self : RouteSolver) (source : string)
    (ms : dict string MetricData) (x : string) :
  forall G,
    In x (nodes (fold_left (add_link self source) ms G))
    <-> (ms <> [] /\ x = source) \/ In x (keys ms) \/ In x (nodes G).
Proof.
  induction ms as [|[t0 md0] ms IH]; intros G.
  - simpl. intuition congruence.
  - cbn [fold_left add_link keys map fst]. rewrite IH, add_edge_nodes.
    assert (NE : (t0, md0) :: ms <> []) by discriminate.
    unfold keys in *. simpl. intuition (subst; simpl; auto 7).
Qed.

Lemma add_links_fold_nodes (self : RouteSolver)
    (topology_data : dict string AgentData) (x : string) :
  forall G,
    In x (nodes (fold_left (add_links self) topology_data G))
    <-> (exists s data m,
            In (s, data) topology_data /\ metrics data = Some m
            /\ m <> [] /\ (x = s \/ In x (keys m)))
        \/ In x (nodes G).
Proof.
  induction topology_data as [|[s0 data] topo IH]; intros G.
  - simpl. split; [auto | intros [(s & d & m & [] & _)|I]; exact I].
  - cbn [fold_left add_links]. rewrite IH, add_links_nodes. split.
    + intros [(s & d & m & I & E & NE & X)|[[NE ->]|[I|I]]]; auto.
      * left. exists s, d, m. split; [now right | auto].
      * destruct (metrics data) as [m|] eqn:E; [|now elim NE].
        left. exists s0, data, m. split; [now left | auto].
      * destruct (metrics data) as [m|] eqn:E; [|destruct I].
        left. exists s0, data, m. split; [now left|].
        split; [exact E|]. split; [|now right].
        intros ->. destruct I.
    + intros [(s & d & m & [E0|I] & E & NE & X)|I]; auto.
      * injection E0 as -> ->. rewrite E. right.
        destruct X as [->|X]; auto.
      * left. exists s, d, m. auto.
Qed.

(** X18.  The graph of a topology in which no agent and no target occurs
    twice.  Its nodes are the reporting agents, first and in the order of
    the topology, followed by the targets that never reported.  It has an
    edge from [s] to [t] exactly when [s] reported a measurement of [t];
    the weight is the round-trip time plus the loss rate times the penalty
    factor, and infinity when the measurement has no round-trip time. *)
Theorem build_graph_links (self : RouteSolver)
    (topology_data : dict string AgentData) :
  proper topology_data ->
  let G := build_graph self topology_data in
  (exists targets, nodes G = keys topology_data ++ targets)
  /\ (forall x, In x (nodes G) <->
                In x (keys topology_data)
                \/ exists s, link topology_data s x <> None)
  /\ (forall s t,
        get (edges G) (s, t)
        = match link topology_data s t with
          | Some md => Some (link_cost self md)
          | None => None
          end).
Proof.
  intros P G. unfold G, build_graph. split; [|split].
  - assert (X : forall l G0, exists extra,
                 nodes (fold_left (add_links self) l G0) = nodes G0 ++ extra).
    { induction l as [|[s d] l IH]; intros G0.
      - exists []. simpl. now rewrite app_nil_r.
      - cbn [fold_left].
        assert (Y : forall ms G1, exists extra,
                   nodes (fold_left (add_link self s) ms G1)
                   = nodes G1 ++ extra).
        { induction ms as [|[t md] ms IHm]; intros G1.
          - exists []. simpl. now rewrite app_nil_r.
          - cbn [fold_left add_link].
            destruct (IHm (add_edge G1 s t
                             match rtt md with
                             | Some rtt =>
                                 calculate_cost rtt
                                   match loss md with
                                   | Some l => l
                                   | None => 0%float
                                   end (penalty_factor self)
                             | None => infinity
                             end)) as [e2 E2].
            destruct (add_edge_extends G1 s t
                        match rtt md with
                        | Some rtt =>
                            calculate_cost rtt
                              match loss md with
                              | Some l => l
                              | None => 0%float
                              end (penalty_factor self)
                        | None => infinity
                        end) as [e1 E1].
            exists (e1 ++ e2). now rewrite E2, E1, app_assoc. }
        destruct (IH (add_links self G0 (s, d))) as [e2 E2].
        destruct (Y match metrics d with Some m => m | None => empty end G0)
          as [e1 E1].
        exists (e1 ++ e2). rewrite E2.
        rewrite app_assoc. f_equal. exact E1. }
    destruct (X (items topology_data)
                (fold_left add_node (keys topology_data) empty_graph))
      as [extra E].
    exists extra. rewrite E, fold_add_node_order; [reflexivity|].
    apply P.
  - intros x. unfold items.
    rewrite add_links_fold_nodes, fold_add_node_nodes. cbn [nodes empty_graph].
    unfold link. split.
    + intros [(s & d & m & I & E & NE & [->|X])|[I|[]]]; auto.
      * left. apply (in_map fst) in I. exact I.
      * right. exists s. rewrite (In_get topology_data s d (proj1 P) I), E.
        apply mem_keys in X. unfold mem in X.
        destruct (get m x); [discriminate | discriminate].
    + intros [I|(s & L)]; auto.
      destruct (get topology_data s) as [d|] eqn:Gs; [|congruence].
      destruct (metrics d) as [m|] eqn:E; [|congruence].
      left. exists s, d, m. split; [now apply get_In|].
      split; [exact E|]. split.
      * intros ->. now apply L.
      * right. apply mem_keys. unfold mem. destruct (get m x); congruence.
  - intros s t. unfold items.
    rewrite (add_links_fold_edges self topology_data s t P).
    now rewrite fold_add_node_edges.
Qed.

Lemma build_graph_links_witness :
  nodes (build_graph default_solver relay_topology) = ["A"; "C"; "B"]
  /\ get (edges (build_graph default_solver relay_topology)) ("A", "B")
     = Some (200 + 0.1 * 100)%float
  /\ get (edges (build_graph default_solver relay_topology)) ("B", "A")
     = None.
Proof.
  assert (P : proper relay_topology).
  { split.
    - repeat constructor; simpl; intuition discriminate.
    - intros s data m [E|[E|[]]] M; injection E as <- <-;
        injection M as <-; repeat constructor; simpl; intuition discriminate. }
  destruct (build_graph_links default_solver relay_topology P)
    as (_ & _ & E).
  split; [reflexivity|]. split.
  - rewrite (E "A" "B"). reflexivity.
  - rewrite (E "B" "A"). reflexivity.
Defined.

(** ** What a pass leaves alone *)

Lemma visit_target_frame (nx : Networkx) (G : DiGraph)
    (source_agent : string) (acc : list RouteConfig * RouteSolver)
    (target : string) :
  let acc' := visit_target nx G source_agent acc target in
  penalty_factor (snd acc') = penalty_factor (snd acc)
  /\ hysteresis (snd acc') = hysteresis (snd acc)
  /\ (forall key, key <> (source_agent, target) ->
        get (previous_costs (snd acc')) key
        = get (previous_costs (snd acc)) key)
  /\ (forall key, get (previous_costs (snd acc)) key <> None ->
                  get (previous_costs (snd acc')) key <> None)
  /\ (fst acc' = fst acc
      \/ exists r, fst acc' = fst acc ++ [r]
                   /\ dst_cidr r = (target ++ "/32")%string).
Proof.
  destruct acc as [routes self]. unfold visit_target.
  assert (Same : penalty_factor self = penalty_factor self
                 /\ hysteresis self = hysteresis self
                 /\ (forall key, key <> (source_agent, target) ->
                       get (previous_costs self) key
                       = get (previous_costs self) key)
                 /\ (forall key, get (previous_costs self) key <> None ->
                                 get (previous_costs self) key <> None)
                 /\ (routes = routes
                     \/ exists r, routes = routes ++ [r]
                                  /\ dst_cidr r = (target ++ "/32")%string))
    by auto 10.
  destruct (String.eqb target source_agent); [exact Same|].
  destruct (shortest_path nx G source_agent target) as [path| |];
    try exact Same.
  destruct (shortest_path_length nx G source_agent target) as [c| |];
    try exact Same.
  destruct (c =? infinity)%float; [exact Same|].
  destruct (significantly_better self c _); [|exact Same].
  assert (Upd : forall key, key <> (source_agent, target) ->
                  get (set (previous_costs self) (source_agent, target) c) key
                  = get (previous_costs self) key).
  { intros key NE. rewrite get_set.
    destruct (keqb_spec (source_agent, target) key); congruence. }
  assert (Keep : forall key,
             get (previous_costs self) key <> None ->
             get (set (previous_costs self) (source_agent, target) c) key
             <> None).
  { intros key NN. rewrite get_set.
    destruct (keqb (source_agent, target) key); [discriminate | exact NN]. }
  destruct (path_len path =? 1)%nat; [|destruct (path_len path =? 2)%nat];
    cbn [fst snd penalty_factor hysteresis previous_costs set_previous_costs];
    (split; [reflexivity|]); (split; [reflexivity|]);
    (split; [exact Upd|]); (split; [exact Keep|]).
  - now left.
  - right. eexists. split; reflexivity.
  - right. eexists. split; reflexivity.
Qed.

Lemma fold_visit_frame (nx : Networkx) (G : DiGraph) (source_agent : string)
    (targets : list string) :
  NoDup targets ->
  forall (visited : list string) (acc : list RouteConfig * RouteSolver),
    (forall t, In t targets -> ~ In t visited) ->
    NoDup (map dst_cidr (fst acc)) ->
    (forall r, In r (fst acc) ->
               exists t, In t visited /\ dst_cidr r = (t ++ "/32")%string) ->
    let acc' := fold_left (visit_target nx G source_agent) targets acc in
    penalty_factor (snd acc') = penalty_factor (snd acc)
    /\ hysteresis (snd acc') = hysteresis (snd acc)
    /\ (forall key, fst key <> source_agent ->
          get (previous_costs (snd acc')) key
          = get (previous_costs (snd acc)) key)
    /\ (forall key, get (previous_costs (snd acc)) key <> None ->
                    get (previous_costs (snd acc')) key <> None)
    /\ NoDup (map dst_cidr (fst acc'))
    /\ (forall r, In r (fst acc') ->
                  exists t, dst_cidr r = (t ++ "/32")%string).
Proof.
  induction 1 as [|t targets NI ND IH]; intros visited acc Fresh N Seen.
  - simpl. repeat (split; [auto; fail|]).
    intros r I. destruct (Seen r I) as (t & _ & D). now exists t.
  - cbn [fold_left].
    destruct (visit_target_frame nx G source_agent acc t)
      as (P1 & H1 & O1 & K1 & R1).
    set (acc1 := visit_target nx G source_agent acc t) in *.
    destruct (IH (t :: visited) acc1) as (P2 & H2 & O2 & K2 & N2 & D2).
    + intros t' I [<-|V]; [tauto|]. apply (Fresh t'); [now right | exact V].
    + destruct R1 as [->|(r & -> & D)]; [exact N|].
      rewrite map_app. cbn [map]. rewrite D.
      apply NoDup_app_remove_l with (l := []). cbn [app].
      apply (NoDup_Add (a := (t ++ "/32")%string) (l := map dst_cidr (fst acc))).
      * clear. induction (map dst_cidr (fst acc)) as [|x l IHl];
          cbn [app]; constructor; exact IHl.
      * split; [exact N|]. intros I. apply in_map_iff in I.
        destruct I as (r' & E & I'). destruct (Seen r' I') as (t' & V & D').
        rewrite D' in E. apply SolverFacts.append_inv_tail in E. subst t'.
        apply (Fresh t); [now left | exact V].
    + intros r0 I. destruct R1 as [E|(r & E & D)]; rewrite E in I.
      * destruct (Seen r0 I) as (t' & V & D'). exists t'. split; [now right|].
        exact D'.
      * apply in_app_iff in I. destruct I as [I|[<-|[]]].
        -- destruct (Seen r0 I) as (t' & V & D'). exists t'.
           split; [now right | exact D'].
        -- exists t. split; [now left | exact D].
    + split; [congruence|]. split; [congruence|]. split; [|split].
      * intros key NE. rewrite O2 by exact NE. apply O1.
        intros ->. now apply NE.
      * intros key NN. apply K2, K1, NN.
      * split; [exact N2 | exact D2].
Qed.

(** X19.  A pass of [compute_routes_for] for one agent keeps the penalty
    factor and the hysteresis threshold, leaves the cost history of every
    other source agent as it was, and never drops an entry of the
    history.  The routes it answers have pairwise distinct destinations
    and pass the validation of [RouteConfig].  For an agent that is no
    node of the graph the solver is left unchanged. *)
Theorem compute_routes_for_frame (nx : Networkx) (self : RouteSolver)
    (source_agent : string) (topology_data : dict string AgentData) :
  let routes := fst (compute_routes_for nx self source_agent topology_data) in
  let self' := snd (compute_routes_for nx self source_agent topology_data) in
  penalty_factor self' = penalty_factor self
  /\ hysteresis self' = hysteresis self
  /\ (forall key, fst key <> source_agent ->
        get (previous_costs self') key = get (previous_costs self) key)
  /\ (forall key, get (previous_costs self) key <> None ->
                  get (previous_costs self') key <> None)
  /\ NoDup (map dst_cidr routes)
  /\ (forall r, In r routes -> valid_RouteConfig r = true)
  /\ (~ In source_agent (nodes (build_graph self topology_data)) ->
      self' = self).
Proof.
  intros routes self'. unfold routes, self', compute_routes_for.
  destruct (PyStr.list_in source_agent
              (nodes (build_graph self topology_data))) eqn:E;
    cbn [negb].
  - destruct (fold_visit_frame nx (build_graph self topology_data)
                source_agent (nodes (build_graph self topology_data))
                (SolverFacts.build_graph_NoDup self topology_data)
                [] ([], self))
      as (P & H & O & K & N & D).
    + intros t _ [].
    + constructor.
    + intros r [].
    + split; [exact P|]. split; [exact H|]. split; [exact O|].
      split; [exact K|]. split; [exact N|]. split.
      * intros r I. destruct (D r I) as (t & Dt).
        unfold valid_RouteConfig. rewrite Dt.
        apply (ParseFacts.str_in_app t "/" "32").
      * intros NI. apply SolverFacts.list_in_In in E. tauto.
  - cbn [fst snd map]. split; [reflexivity|]. split; [reflexivity|].
    split; [reflexivity|]. split; [auto|]. split; [constructor|].
    split; [intros r [] | reflexivity].
Qed.

End SolverExtra.

(* ================================================================== *)
(** * Facts about controller/api.py *)

Module ApiFacts.
Import Models PyDict PyDictFacts Solver TopologyDB Api Scenarios SolverSpec
       ControllerSpec.

Lemma find_app {A : Type} (p : A -> bool) (a b : list A) :
  find p (a ++ b) = match find p a with
                    | Some x => Some x
                    | None => find p b
                    end.
Proof.
  induction a as [|x a IH]; simpl; [reflexivity|].
  now destruct (p x).
Qed.

Lemma metrics_fold (ms : list Metric) :
  forall (d : dict string MetricData) (t : string),
    get (fold_left (fun d metric =>
                      set d (target_ip metric)
                          {| rtt := rtt_ms metric;
                             loss := Some (loss_rate metric) |}) ms d) t
    = match last_metric ms t with
      | Some m => Some (stored_metric m)
      | None => get d t
      end.
Proof.
  unfold last_metric.
  induction ms as [|m ms IH]; intros d t; [reflexivity|].
  cbn [fold_left rev]. rewrite IH, find_app. cbn [find].
  destruct (find _ (rev ms)); [reflexivity|].
  rewrite get_set. cbn [keqb Key_string].
  now destruct (String.eqb (target_ip m) t).
Qed.

Lemma metrics_fold_NoDup (ms : list Metric) :
  forall d : dict string MetricData,
    NoDup (keys d) ->
    NoDup (keys (fold_left (fun d metric =>
                              set d (target_ip metric)
                                  {| rtt := rtt_ms metric;
                                     loss := Some (loss_rate metric) |})
                           ms d)).
Proof.
  induction ms as [|m ms IH]; intros d N; [exact N|].
  cbn [fold_left]. apply IH. now apply set_NoDup.
Qed.

(** X20.  The dictionary the telemetry endpoint stores holds, for every
    target of the report, the round-trip time and the loss rate of the
    last metric listed for that target (a target listed twice keeps the
    later values), and nothing for any other target. *)
Theorem metrics_dict_last_wins (data : TelemetryRequest) (t : string) :
  get (metrics_dict data) t
  = option_map stored_metric (last_metric (Models.metrics data) t)
  /\ (get (metrics_dict data) t <> None
      <-> In t (map target_ip (Models.metrics data)))
  /\ NoDup (keys (metrics_dict data)).
Proof.
  unfold metrics_dict.
  assert (E : get (fold_left (fun d metric =>
                      set d (target_ip metric)
                          {| rtt := rtt_ms metric;
                             loss := Some (loss_rate metric) |})
                     (Models.metrics data) empty) t
              = option_map stored_metric
                  (last_metric (Models.metrics data) t)).
  { rewrite metrics_fold.
    now destruct (last_metric (Models.metrics data) t). }
  split; [exact E|]. split.
  - rewrite E. unfold last_metric. split.
    + destruct (find _ (rev (Models.metrics data))) as [m|] eqn:F;
        [intros _|intros X; now elim X].
      apply find_some in F. destruct F as [I Q].
      apply String.eqb_eq in Q. subst t.
      apply in_map. now apply in_rev.
    + intros I. apply in_map_iff in I. destruct I as (m & <- & I).
      destruct (find _ (rev (Models.metrics data))) as [m'|] eqn:F;
        [discriminate|].
      pose proof (find_none _ _ F m (proj1 (in_rev _ _) I)) as Q.
      simpl in Q. now rewrite String.eqb_refl in Q.
  - apply metrics_fold_NoDup. constructor.
Qed.

Lemma metrics_dict_NoDup (data : TelemetryRequest) :
  NoDup (keys (metrics_dict data)).
Proof. unfold metrics_dict. apply metrics_fold_NoDup. constructor. Qed.

(** ** Sequences of requests *)

Lemma mem_set {V : Type} (d : dict string V) (k : string) (v : V)
    (k' : string) :
  mem (set d k v) k' = String.eqb k k' || mem d k'.
Proof.
  unfold mem. rewrite get_set. cbn [keqb Key_string].
  now destruct (String.eqb k k').
Qed.

Lemma get_routes_db (nx : Networkx) (agent_id : string) (ctl : Controller) :
  topology_db (snd (get_routes nx agent_id ctl)) = topology_db ctl.
Proof.
  unfold get_routes.
  destruct (agent_exists (topology_db ctl) agent_id); cbn [negb];
    [|reflexivity].
  now destruct (compute_routes_for nx (route_solver ctl) agent_id _).
Qed.

Lemma serve_exists (nx : Networkx) (ctl : Controller) (req : request)
    (agent_id : string) :
  agent_exists (topology_db (serve nx ctl req)) agent_id
  = report_of agent_id req || agent_exists (topology_db ctl) agent_id.
Proof.
  destruct req as [data|other]; cbn [serve report_of].
  - unfold receive_telemetry.
    destruct (valid_body data); cbn [negb snd topology_db andb];
      [|reflexivity].
    unfold agent_exists, store_telemetry. apply mem_set.
  - now rewrite get_routes_db.
Qed.

Lemma serve_all_exists (nx : Networkx) (reqs : list request)
    (agent_id : string) :
  forall ctl,
    agent_exists (topology_db (serve_all nx reqs ctl)) agent_id
    = existsb (report_of agent_id) reqs
      || agent_exists (topology_db ctl) agent_id.
Proof.
  unfold serve_all.
  induction reqs as [|req reqs IH]; intros ctl; [reflexivity|].
  cbn [fold_left existsb]. rewrite IH, serve_exists.
  destruct (report_of agent_id req), (existsb (report_of agent_id) reqs);
    reflexivity.
Qed.

(** ** From a report to the graph *)

Lemma In_set {V : Type} (d : dict string V) (k : string) (v : V)
    (k' : string) (v' : V) :
  In (k', v') (set d k v) -> (k', v') = (k, v) \/ In (k', v') d.
Proof.
  induction d as [|[k0 v0] d IH]; simpl.
  - intros [E|[]]. left. congruence.
  - destruct (String.eqb_spec k0 k) as [->|NE]; simpl.
    + intros [E|I]; auto.
    + intros [E|I]; auto. destruct (IH I); auto.
Qed.

Lemma metric_copy (m : dict string MetricData) :
  map (fun m : string * MetricData =>
         (fst m, {| rtt := rtt (snd m); loss := loss (snd m) |})) m = m.
Proof.
  induction m as [|[k [r l]] m IH]; simpl; [reflexivity|].
  now rewrite IH.
Qed.

Lemma get_all_data_keys (self : TopologyDatabase) :
  keys (get_all_data self) = keys self.
Proof.
  unfold get_all_data, keys, items. rewrite map_map. reflexivity.
Qed.

Lemma get_all_data_get (self : TopologyDatabase) (agent_id : string) :
  get (get_all_data self) agent_id
  = option_map (fun e => {| timestamp := entry_timestamp e;
                            metrics := Some (entry_metrics e) |})
               (get self agent_id).
Proof.
  unfold get_all_data, items.
  induction self as [|[k e] self IH]; simpl; [reflexivity|].
  destruct (String.eqb k agent_id); [|exact IH].
  simpl. now rewrite metric_copy.
Qed.

(** The databases the API builds: no agent twice and, in an entry, no
    target twice. *)
Lemma serve_proper (nx : Networkx) (ctl : Controller) (req : request) :
  NoDup (keys (topology_db ctl)) ->
  (forall k e, In (k, e) (topology_db ctl) -> NoDup (keys (entry_metrics e))) ->
  NoDup (keys (topology_db (serve nx ctl req)))
  /\ (forall k e, In (k, e) (topology_db (serve nx ctl req)) ->
                  NoDup (keys (entry_metrics e))).
Proof.
  intros N M. destruct req as [data|other]; cbn [serve].
  - unfold receive_telemetry.
    destruct (valid_body data); cbn [negb snd topology_db]; [|auto].
    unfold store_telemetry. split; [now apply set_NoDup|].
    intros k e I. apply In_set in I. destruct I as [E|I]; [|eauto].
    injection E as _ ->. cbn [entry_metrics].
    apply (metrics_dict_NoDup data).
  - rewrite get_routes_db. auto.
Qed.

Lemma compute_routes_for_penalty (nx : Networkx) (self : RouteSolver)
    (source_agent : string) (topology_data : dict string AgentData) :
  penalty_factor (snd (compute_routes_for nx self source_agent topology_data))
  = penalty_factor self.
Proof.
  unfold compute_routes_for.
  destruct (PyStr.list_in source_agent _); cbn [negb]; [|reflexivity].
  apply (SolverExtra.fold_visit_frame nx (build_graph self topology_data)
           source_agent (nodes (build_graph self topology_data))
           (SolverFacts.build_graph_NoDup self topology_data)
           [] ([], self)).
  - intros t _ [].
  - constructor.
  - intros r [].
Qed.

Lemma serve_penalty (nx : Networkx) (ctl : Controller) (req : request) :
  penalty_factor (route_solver (serve nx ctl req))
  = penalty_factor (route_solver ctl).
Proof.
  destruct req as [data|agent_id]; cbn [serve].
  - unfold receive_telemetry. now destruct (valid_body data).
  - unfold get_routes.
    destruct (agent_exists (topology_db ctl) agent_id); cbn [negb];
      [|reflexivity].
    pose proof (compute_routes_for_penalty nx (route_solver ctl) agent_id
                  (get_all_data (topology_db ctl))) as P.
    now destruct (compute_routes_for nx (route_solver ctl) agent_id _).
Qed.

Lemma serve_all_invariant (nx : Networkx) (reqs : list request) :
  forall ctl,
    NoDup (keys (topology_db ctl)) ->
    (forall k e, In (k, e) (topology_db ctl) ->
                 NoDup (keys (entry_metrics e))) ->
    NoDup (keys (topology_db (serve_all nx reqs ctl)))
    /\ (forall k e, In (k, e) (topology_db (serve_all nx reqs ctl)) ->
                    NoDup (keys (entry_metrics e)))
    /\ penalty_factor (route_solver (serve_all nx reqs ctl))
       = penalty_factor (route_solver ctl).
Proof.
  unfold serve_all.
  induction reqs as [|req reqs IH]; intros ctl N M; [auto|].
  cbn [fold_left].
  destruct (serve_proper nx ctl req N M) as [N1 M1].
  destruct (IH (serve nx ctl req) N1 M1) as (N2 & M2 & P2).
  split; [exact N2|]. split; [exact M2|].
  now rewrite P2, serve_penalty.
Qed.

(** X21.  Whatever requests the controller has served since it started,
    it answers a request for routes with 404 exactly when the agent has
    not sent a valid report so far, and with 200 and a route list
    otherwise: an agent once known is never forgotten, and asking for
    routes makes no agent known.  The agents the database lists, whose
    number the health endpoint reports, are those that sent a valid
    report, each once. *)
Theorem get_routes_404_iff_never_reported (nx : Networkx)
    (reqs : list request) (agent_id : string) :
  let ctl := serve_all nx reqs startup in
  (fst (get_routes nx agent_id ctl) = Status404
   <-> existsb (report_of agent_id) reqs = false)
  /\ (existsb (report_of agent_id) reqs = true
      <-> exists routes, fst (get_routes nx agent_id ctl) = Status200 routes)
  /\ (In agent_id (get_all_agents (topology_db ctl))
      <-> existsb (report_of agent_id) reqs = true)
  /\ NoDup (get_all_agents (topology_db ctl)).
Proof.
  intros ctl.
  assert (E : agent_exists (topology_db ctl) agent_id
              = existsb (report_of agent_id) reqs).
  { unfold ctl. rewrite serve_all_exists. cbn.
    now rewrite orb_false_r. }
  assert (G : fst (get_routes nx agent_id ctl)
              = if existsb (report_of agent_id) reqs
                then Status200
                       (fst (compute_routes_for nx (route_solver ctl)
                               agent_id (get_all_data (topology_db ctl))))
                else Status404).
  { unfold get_routes. rewrite E.
    destruct (existsb (report_of agent_id) reqs); cbn [negb];
      [|reflexivity].
    now destruct (compute_routes_for nx (route_solver ctl) agent_id _). }
  split; [|split].
  - rewrite G. destruct (existsb (report_of agent_id) reqs);
      split; congruence.
  - rewrite G. destruct (existsb (report_of agent_id) reqs); split.
    + eauto.
    + reflexivity.
    + discriminate.
    + intros [routes X]. discriminate.
  - split.
    + rewrite <- E. unfold get_all_agents, agent_exists.
      symmetry. apply mem_keys.
    + apply (serve_all_invariant nx reqs startup).
      * constructor.
      * intros k e [].
Qed.

Lemma get_all_data_proper (self : TopologyDatabase) :
  NoDup (keys self) ->
  (forall k e, In (k, e) self -> NoDup (keys (entry_metrics e))) ->
  proper (get_all_data self).
Proof.
  intros N M. split; [now rewrite get_all_data_keys|].
  intros s data m I E. unfold get_all_data, items in I.
  apply in_map_iff in I. destruct I as ([k e] & Q & I).
  injection Q as <- <-. cbn [metrics snd] in E. injection E as <-.
  rewrite metric_copy. now apply (M k e).
Qed.

(** X22.  From a report to the graph.  Right after the controller has
    accepted a valid report, whatever it served before, the graph the
    solver builds has the reporting agent and every reported target among
    its nodes, and its edges out of the reporting agent are the targets of
    that report: the weight of the edge to a target is the round-trip
    time plus a hundred times the loss rate of the last metric reported
    for it, infinity when that metric has no round-trip time, and there is
    no edge to a target the report does not list. *)
Theorem report_becomes_links (nx : Networkx) (reqs : list request)
    (data : TelemetryRequest) :
  valid_body data = true ->
  let ctl := serve_all nx (reqs ++ [PostTelemetry data]) startup in
  let G := build_graph (route_solver ctl) (get_all_data (topology_db ctl)) in
  In (Models.agent_id data) (nodes G)
  /\ (forall m, In m (Models.metrics data) -> In (target_ip m) (nodes G))
  /\ (forall t,
        get (edges G) (Models.agent_id data, t)
        = option_map measured_cost (last_metric (Models.metrics data) t)).
Proof.
  intros V ctl G.
  set (ctl0 := serve_all nx reqs startup).
  assert (C : ctl = serve nx ctl0 (PostTelemetry data)).
  { unfold ctl, ctl0, serve_all. now rewrite fold_left_app. }
  destruct (serve_all_invariant nx reqs startup) as (N0 & M0 & P0).
  { constructor. }
  { intros k e []. }
  fold ctl0 in N0, M0, P0.
  destruct (serve_proper nx ctl0 (PostTelemetry data) N0 M0) as [N M].
  rewrite <- C in N, M.
  assert (P : penalty_factor (route_solver ctl) = 100%float).
  { rewrite C, serve_penalty, P0. reflexivity. }
  assert (DB : topology_db ctl
               = store_telemetry (topology_db ctl0) (Models.agent_id data)
                   (Models.timestamp data) (metrics_dict data)).
  { rewrite C. cbn [serve]. unfold receive_telemetry. now rewrite V. }
  pose proof (get_all_data_proper (topology_db ctl) N M) as PR.
  assert (L : forall t,
             link (get_all_data (topology_db ctl)) (Models.agent_id data) t
             = option_map stored_metric
                 (last_metric (Models.metrics data) t)).
  { intros t. unfold link. rewrite get_all_data_get, DB.
    unfold store_telemetry. rewrite get_set_same.
    cbn [option_map metrics entry_metrics].
    unfold metrics_dict. rewrite metrics_fold.
    now destruct (last_metric (Models.metrics data) t). }
  assert (E : forall t,
             get (edges G) (Models.agent_id data, t)
             = option_map measured_cost
                 (last_metric (Models.metrics data) t)).
  { intros t. unfold G, build_graph, items.
    rewrite (SolverExtra.add_links_fold_edges (route_solver ctl)
               (get_all_data (topology_db ctl)) (Models.agent_id data) t PR).
    rewrite L, SolverExtra.fold_add_node_edges.
    destruct (last_metric (Models.metrics data) t) as [m|]; [|reflexivity].
    cbn [option_map]. unfold link_cost, stored_metric, measured_cost.
    cbn [rtt loss]. now rewrite P. }
  split; [|split; [|exact E]].
  - unfold G, build_graph, items.
    apply SolverExtra.add_links_fold_nodes. right.
    apply SolverExtra.fold_add_node_nodes. left.
    rewrite get_all_data_keys, DB. unfold store_telemetry.
    apply keys_set. now left.
  - intros m I.
    assert (X : get (edges G) (Models.agent_id data, target_ip m) <> None).
    { rewrite E. unfold last_metric.
      destruct (find _ (rev (Models.metrics data))) eqn:F; [discriminate|].
      pose proof (find_none _ _ F m (proj1 (in_rev _ _) I)) as Q.
      simpl in Q. now rewrite String.eqb_refl in Q. }
    unfold G, build_graph, items in X |- *.
    rewrite (SolverExtra.add_links_fold_edges (route_solver ctl)
               (get_all_data (topology_db ctl)) (Models.agent_id data)
               (target_ip m) PR) in X.
    rewrite SolverExtra.fold_add_node_edges in X. cbn [edges empty_graph get] in X.
    apply SolverExtra.add_links_fold_nodes. left.
    unfold link in X.
    destruct (get (get_all_data (topology_db ctl)) (Models.agent_id data))
      as [d|] eqn:Gd; [|now elim X].
    destruct (metrics d) as [ms|] eqn:Em; [|now elim X].
    exists (Models.agent_id data), d, ms.
    split; [now apply get_In|]. split; [exact Em|].
    split.
    + intros ->. now apply X.
    + right. apply mem_keys. unfold mem.
      destruct (get ms (target_ip m)); [reflexivity | now elim X].
Qed.

Lemma report_becomes_links_witness :
  get (edges (build_graph (route_solver after_first_report)
                          (get_all_data (topology_db after_first_report))))
      ("10.254.0.1", "10.254.0.2")
  = Some (35.5 + 0 * 100)%float.
Proof.
  destruct (report_becomes_links NxReference.nx [GetRoutes "10.254.0.1"]
              AgentSpec.report0) as (_ & _ & E).
  - reflexivity.
  - exact (E "10.254.0.2").
Defined.

End ApiFacts.

(* ================================================================== *)
(** * Facts about agent/executor.py: a table read back *)

Module ListingFacts.
Import Models World PyStr PyDict PyDictFacts Executor Scenarios ExecutorSpec
       ListingSpec.

Lemma linebreak_is_space (c : ascii) :
  is_linebreak c = true -> is_space c = true.
Proof.
  destruct c as [[] [] [] [] [] [] [] []]; vm_compute; intros E;
    try reflexivity; discriminate.
Qed.

Lemma no_space_no_linebreak (s : string) :
  no_space s = true -> no_linebreak s = true.
Proof.
  induction s as [|c s IH]; simpl; [reflexivity|].
  rewrite !andb_true_iff, !negb_true_iff. intros [S R].
  split; [|now apply IH].
  destruct (is_linebreak c) eqn:L; [|reflexivity].
  apply linebreak_is_space in L. congruence.
Qed.

Lemma no_linebreak_app (a b : string) :
  no_linebreak (a ++ b) = no_linebreak a && no_linebreak b.
Proof.
  induction a as [|c a IH]; simpl; [reflexivity|].
  now rewrite IH, andb_assoc.
Qed.

Lemma word_no_linebreak (w : string) :
  is_word w = true -> no_linebreak w = true.
Proof.
  unfold is_word. rewrite andb_true_iff. intros [_ S].
  now apply no_space_no_linebreak.
Qed.

Lemma join_no_linebreak (words : list string) :
  Forall (fun w => is_word w = true) words ->
  no_linebreak (join words) = true.
Proof.
  induction 1 as [|w words W F IH]; [reflexivity|].
  destruct words as [|w' words]; cbn [join].
  - now apply word_no_linebreak.
  - rewrite no_linebreak_app. cbn [no_linebreak].
    rewrite (word_no_linebreak w W). cbn [join] in IH. rewrite IH.
    reflexivity.
Qed.

(** [splitlines] cuts at the line feed that ends a line. *)
Lemma splitlines_line (line rest : string) :
  no_linebreak line = true ->
  splitlines (line ++ String "010"%char rest) = line :: splitlines rest.
Proof.
  induction line as [|c line IH]; intros N.
  - cbn [String.append]. destruct rest as [|c' rest']; reflexivity.
  - cbn [no_linebreak] in N. apply andb_true_iff in N. destruct N as [C N].
    apply negb_true_iff in C.
    cbn [String.append splitlines]. rewrite C, (IH N). reflexivity.
Qed.

Lemma not_via (d : string) : (d =? "via")%string = false -> d <> "via".
Proof. apply String.eqb_neq. Qed.

(** One printed line read back. *)
Lemma parse_route_line (self : Executor) (routes : dict string string)
    (route : string * string) :
  is_word (wg_interface self) = true ->
  wg_interface self <> "via" ->
  printable route = true ->
  parse_line self routes (route_line self route)
  = set routes (fst route) (snd route)
  /\ no_linebreak (route_line self route) = true.
Proof.
  intros WI NV P. destruct route as [d nh]. unfold printable in P.
  cbn [fst snd] in *.
  rewrite !andb_true_iff, !negb_true_iff in P.
  destruct P as [[[WD SL] DV] WN]. apply not_via in DV.
  unfold route_line. cbn [fst snd].
  destruct (String.eqb_spec nh "direct") as [->|ND].
  - assert (F : Forall (fun w => is_word w = true)
                       [d; "dev"; wg_interface self; "scope"; "link"]).
    { repeat (apply Forall_cons; [assumption || reflexivity|]).
      apply Forall_nil. }
    split; [|now apply join_no_linebreak].
    apply (ParseFacts.parse_line_direct self routes d d ["scope"; "link"]).
    + exact F.
    + unfold list_in. cbn [existsb].
      apply String.eqb_neq in DV. rewrite (String.eqb_sym "via" d), DV.
      apply String.eqb_neq in NV.
      rewrite (String.eqb_sym "via" (wg_interface self)), NV.
      reflexivity.
    + now apply ParseFacts.host_route_ip_plain.
  - assert (F : Forall (fun w => is_word w = true)
                       [d; "via"; nh; "dev"; wg_interface self]).
    { repeat (apply Forall_cons; [assumption || reflexivity|]).
      apply Forall_nil. }
    split; [|now apply join_no_linebreak].
    apply (ParseFacts.parse_line_relay self routes d nh d []).
    + exact F.
    + exact DV.
    + now apply ParseFacts.host_route_ip_plain.
Qed.

Lemma parse_listing (self : Executor) (printed : dict string string) :
  is_word (wg_interface self) = true ->
  wg_interface self <> "via" ->
  forallb printable printed = true ->
  forall routes : dict string string,
    fold_left (parse_line self) (splitlines (listing self printed)) routes
    = fold_left (fun d route => set d (fst route) (snd route)) printed routes.
Proof.
  intros WI NV. induction printed as [|route printed IH]; intros P routes.
  - reflexivity.
  - cbn [forallb] in P. apply andb_true_iff in P. destruct P as [P1 P2].
    destruct (parse_route_line self routes route WI NV P1) as [E N].
    cbn [listing]. rewrite (splitlines_line _ _ N).
    cbn [fold_left]. rewrite E. now apply IH.
Qed.

Lemma set_absent {V : Type} (d : dict string V) (k : string) (v : V) :
  ~ In k (keys d) -> set d k v = d ++ [(k, v)].
Proof.
  induction d as [|[k0 v0] d IH]; simpl; [reflexivity|]. intros N.
  destruct (String.eqb_spec k0 k) as [->|NE]; [tauto|].
  rewrite IH; tauto.
Qed.

Lemma fold_set_self {V : Type} (d : dict string V) :
  forall acc : dict string V,
    NoDup (keys (acc ++ d)) ->
    fold_left (fun a item => set a (fst item) (snd item)) d acc = acc ++ d.
Proof.
  induction d as [|[k v] d IH]; intros acc N.
  - simpl. now rewrite app_nil_r.
  - cbn [fold_left fst snd].
    assert (NK : ~ In k (keys acc)).
    { unfold keys in *. rewrite map_app in N. simpl in N.
      apply NoDup_remove_2 in N. rewrite in_app_iff in N. tauto. }
    rewrite (set_absent acc k v NK), IH, <- app_assoc; [reflexivity|].
    now rewrite <- app_assoc.
Qed.

(** X23.  A table read back.  When [ip route show] prints the host
    routes of the interface one per line, a relay route as
    "D via H dev IFACE" and a direct one as "D dev IFACE scope link",
    [get_current_routes] answers exactly these routes, in the printed
    order, and caches them. *)
Theorem listing_read_back (env : Env) (self : Executor)
    (routes : dict string string) (h : list event) (err : string) :
  is_word (wg_interface self) = true ->
  wg_interface self <> "via" ->
  forallb printable routes = true ->
  NoDup (keys routes) ->
  subprocess_run env h listing_command
  = Completed 0 (listing self routes) err ->
  get_current_routes env self h
  = (Ok (routes, set_current_routes self routes),
     h ++ [EvRun listing_command]).
Proof.
  intros WI NV P N E.
  rewrite (ReadFacts.get_current_routes_success env self h _ err E).
  rewrite (parse_listing self routes WI NV P empty).
  pose proof (fold_set_self routes [] N) as X. cbn [app] in X.
  unfold empty. now rewrite X.
Qed.

Lemma listing_read_back_witness :
  get_current_routes two_routes_env wg0_executor []
  = (Ok (two_routes, set_current_routes wg0_executor two_routes),
     [EvRun listing_command]).
Proof.
  apply (listing_read_back two_routes_env wg0_executor two_routes [] "").
  - reflexivity.
  - discriminate.
  - reflexivity.
  - repeat constructor; simpl; intuition discriminate.
  - reflexivity.
Defined.

(** X24.  A listing that fails, by a non-zero exit status, a timeout or
    any other error, reads as an empty table: [get_current_routes] answers
    the empty dictionary and leaves the cached table alone, and
    [flush_all_routes] then answers [True] without a single deletion. *)
Theorem flush_all_routes_listing_failure (env : Env) (self : Executor)
    (h : list event) :
  (forall out err,
      subprocess_run env h listing_command <> Completed 0 out err) ->
  get_current_routes env self h
  = (Ok (empty, self), h ++ [EvRun listing_command])
  /\ flush_all_routes env self h
     = (Ok (true, self), h ++ [EvRun listing_command]).
Proof.
  intros F.
  assert (G : get_current_routes env self h
              = (Ok (empty, self), h ++ [EvRun listing_command])).
  { pose proof (ReadFacts.get_current_routes_failure env self h) as X.
    destruct (subprocess_run env h listing_command) as [rc out err| |];
      try exact X.
    destruct rc; try exact X. now elim (F out err). }
  split; [exact G|].
  unfold flush_all_routes. now rewrite (FallbackFacts.bind_ok _ _ h _ _ G).
Qed.

Lemma flush_all_routes_listing_failure_witness :
  flush_all_routes denied_env wg0_executor []
  = (Ok (true, wg0_executor), [EvRun listing_command]).
Proof.
  apply (flush_all_routes_listing_failure denied_env wg0_executor []).
  intros out err. discriminate.
Defined.

End ListingFacts.
